(** * Liger hybrid attention: gated-slot / gated-linear recurrent path blended
      with a sliding-window flash-attention path.

    Shallow embedding of
      - liger/models/liger_gsa/modeling_liger_gsa.py
          (class LigerGatedSlotAttention; construction of
           LigerGSADecoderLayer and LigerGSAModel; _init_weights)
      - liger/models/liger_qwen2_gla/modeling_liger_qwen2_gla.py
          (class LigerQwen2GatedLinearAttention; LigerQwen2DecoderLayer;
           LigerQwen2GLAModel with its forward)

    Modelling conventions.
      - A tensor is a shape, a dtype tag and an element function from
        multi-indices to real numbers; elements are finite values, and
        infinities and NaN are not represented.
      - The results of [torch.exp], of [1 - x] and of [F.softmax] are
        rounded to the dtype of the result (round to nearest, ties to even,
        with gradual underflow), each as one rounding of the exact value.
        The other operations keep exact values, and a cast changes the
        dtype tag only.
      - Python exceptions are the [Err] branch of [result].
      - Tensor objects that the code mutates in place live in a heap of
        objects addressed by references, so that two names bound to one
        object see each other's in-place updates.  The result of
        [repeat_kv] on a single key/value head is a view whose heads share
        their memory; an in-place product on it raises [RuntimeError].
      - torch / einops / transformers primitives used by the two [forward]
        methods are defined from their documented semantics; the learned
        linear maps, the pooling operator, rotary embedding, the recurrent
        kernels and the flash-attention kernel are collaborators collected
        in the record [Env]. *)

From Stdlib Require Import Reals Lra Lia ZArith FunctionalExtensionality.
From stdpp Require Import base list gmap.

Set Default Proof Using "Type".

(** ** Python-level results *)

Inductive Exn : Type :=
  | ValueError
  | ZeroDivisionError
  | TypeError
  | KeyError
  | IndexError
  | EinopsError
  | RuntimeError.

Inductive result (A : Type) : Type :=
  | Ok (a : A)
  | Err (e : Exn).
Arguments Ok {A} a.
Arguments Err {A} e.

Definition rbind {A B} (m : result A) (k : A -> result B) : result B :=
  match m with
  | Ok a => k a
  | Err e => Err e
  end.

Definition is_ok {A} (r : result A) : bool :=
  match r with
  | Ok _ => true
  | Err _ => false
  end.

Declare Scope res_scope.
Delimit Scope res_scope with res.
Notation "x <- m ;; k" := (rbind m (fun x => k))
  (at level 100, m at next level, right associativity) : res_scope.

(** ** Tensors *)

Inductive Dtype : Type :=
  | TBool | Int64 | Float16 | BFloat16 | Float32 | Float64.

Global Instance Dtype_eq_dec : EqDecision Dtype.
Proof. solve_decision. Defined.

Definition Index := list nat.

Record Tensor : Type := mkTensor {
  shape : list nat;
  dtype : Dtype;
  elem : Index -> R
}.

Fixpoint in_bounds (sh : list nat) (idx : Index) : bool :=
  match sh, idx with
  | [], [] => true
  | d :: sh', i :: idx' => (i <? d) && in_bounds sh' idx'
  | _, _ => false
  end.

(** A tensor of the given shape whose in-range elements are given by [f]. *)
Definition tabulate (sh : list nat) (dt : Dtype) (f : Index -> R) : Tensor :=
  {| shape := sh;
     dtype := dt;
     elem := fun idx => if in_bounds sh idx then f idx else 0%R |}.

Definition numel (t : Tensor) : nat := foldr Nat.mul 1 (shape t).

(** [t.shape[k]] and [t.shape[-k]]. *)
Definition shape_at (t : Tensor) (k : nat) : result nat :=
  match shape t !! k with
  | Some d => Ok d
  | None => Err IndexError
  end.

Definition shape_at_neg (t : Tensor) (k : nat) : result nat :=
  match k with
  | 0 => shape_at t 0
  | S k' => match rev (shape t) !! k' with
            | Some d => Ok d
            | None => Err IndexError
            end
  end.

Definition is_floating (dt : Dtype) : bool :=
  match dt with
  | Float16 | BFloat16 | Float32 | Float64 => true
  | TBool | Int64 => false
  end.

(** Type-promotion category: bool < integer < floating. *)
Definition category (dt : Dtype) : nat :=
  match dt with
  | TBool => 0
  | Int64 => 1
  | _ => 2
  end.

Definition float_rank (dt : Dtype) : nat :=
  match dt with
  | Float64 => 3
  | Float32 => 2
  | _ => 1
  end.

(** [torch.promote_types]. *)
Definition promote_types (a b : Dtype) : Dtype :=
  if decide (a = b) then a
  else if category a <? category b then b
  else if category b <? category a then a
  else if negb (is_floating a) then a
  else if float_rank a <? float_rank b then b
  else if float_rank b <? float_rank a then a
  else Float32.

(** Result dtype of an arithmetic operation between a tensor and a Python
    float scalar. *)
Definition float_scalar_dtype (dt : Dtype) : Dtype :=
  if is_floating dt then dt else Float32.

(** Elementwise unary operation. *)
Definition pointwise (dt : Dtype) (f : R -> R) (t : Tensor) : Tensor :=
  tabulate (shape t) dt (fun idx => f (elem t idx)).

(** *** Broadcasting *)

Definition broadcast_dim (a b : nat) : option nat :=
  if a =? b then Some a
  else if a =? 1 then Some b
  else if b =? 1 then Some a
  else None.

(** Shapes are aligned at their last axis; both arguments are reversed. *)
Fixpoint broadcast_rev (s1 s2 : list nat) : option (list nat) :=
  match s1, s2 with
  | [], s => Some s
  | s, [] => Some s
  | a :: s1', b :: s2' =>
      match broadcast_dim a b, broadcast_rev s1' s2' with
      | Some d, Some r => Some (d :: r)
      | _, _ => None
      end
  end.

Definition broadcast_shapes (s1 s2 : list nat) : option (list nat) :=
  match broadcast_rev (rev s1) (rev s2) with
  | Some r => Some (rev r)
  | None => None
  end.

(** The index at which an operand of shape [sh] is read when the broadcast
    result is read at [idx]. *)
Definition bcast_axis (d i : nat) : nat := if d =? 1 then 0 else i.

Definition bcast_index (sh : list nat) (idx : Index) : Index :=
  rev (zip_with bcast_axis (rev sh) (rev idx)).

(** ** Rounding to a floating-point format *)

(** The largest integer not above [x]. *)
Definition Zfloor (x : R) : Z := (up x - 1)%Z.

(** The integer nearest to [x], the even one of the two when [x] lies
    halfway. *)
Definition Znearest_even (x : R) : Z :=
  let n := Zfloor x in
  if Rlt_dec (x - IZR n) (1 / 2) then n
  else if Rlt_dec (1 / 2) (x - IZR n) then (n + 1)%Z
  else if Z.even n then n else (n + 1)%Z.

(** The binary exponent of a nonzero [x]: the [e] with
    [2^e <= |x| < 2^(e+1)]. *)
Definition ilog2 (x : R) : Z := Zfloor (ln (Rabs x) / ln 2).

(** A binary format: the number of significand bits (the hidden bit
    included) and the exponent of its smallest positive number. *)
Record Format : Type := { prec : Z; emin : Z }.

Definition format_of (dt : Dtype) : option Format :=
  match dt with
  | Float16 => Some {| prec := 11; emin := -24 |}
  | BFloat16 => Some {| prec := 8; emin := -133 |}
  | Float32 => Some {| prec := 24; emin := -149 |}
  | Float64 => Some {| prec := 53; emin := -1074 |}
  | TBool | Int64 => None
  end.

(** Round to nearest, ties to even, with gradual underflow: [x] is scaled
    so that its significand has [prec] bits (fewer below the normal
    range), rounded to an integer and scaled back.  Overflow to infinity
    is not represented. *)
Definition round_float (f : Format) (x : R) : R :=
  if Req_dec_T x 0 then 0%R
  else
    let e := Z.max (ilog2 x - prec f + 1) (emin f) in
    (IZR (Znearest_even (x * powerRZ 2 (- e))) * powerRZ 2 e)%R.

(** The value a result [x] takes when it is stored in a tensor of dtype
    [dt]. *)
Definition round_to (dt : Dtype) (x : R) : R :=
  match format_of dt with
  | Some f => round_float f x
  | None => x
  end.

(** ** torch primitives *)

Definition logsigmoid (x : R) : R := ln (/ (1 + exp (- x))).

(** [F.logsigmoid(t)] *)
Definition F_logsigmoid (t : Tensor) : result Tensor :=
  if is_floating (dtype t) then Ok (pointwise (dtype t) logsigmoid t)
  else Err RuntimeError.

(** [t / c] for a Python number [c] (true division). *)
Definition div_scalar (t : Tensor) (c : R) : Tensor :=
  pointwise (float_scalar_dtype (dtype t)) (fun x => (x / c)%R) t.

(** [torch.exp(t)], rounded to the dtype of the result. *)
Definition torch_exp (t : Tensor) : Tensor :=
  let dt := float_scalar_dtype (dtype t) in
  pointwise dt (fun x => round_to dt (exp x)) t.

(** [c - t] for a Python integer [c], rounded to the dtype of the
    result. *)
Definition rsub_scalar (c : R) (t : Tensor) : Tensor :=
  let dt := if decide (dtype t = TBool) then Int64 else dtype t in
  pointwise dt (fun x => round_to dt (c - x)%R) t.

(** [c * t] for a Python float [c]. *)
Definition mul_scalar (c : R) (t : Tensor) : Tensor :=
  pointwise (float_scalar_dtype (dtype t)) (fun x => (c * x)%R) t.

(** [a + b] with broadcasting and type promotion. *)
Definition torch_add (a b : Tensor) : result Tensor :=
  match broadcast_shapes (shape a) (shape b) with
  | Some sh =>
      Ok (tabulate sh (promote_types (dtype a) (dtype b))
            (fun idx => (elem a (bcast_index (shape a) idx)
                         + elem b (bcast_index (shape b) idx))%R))
  | None => Err RuntimeError
  end.

(** [self.mul_(other)]: the product is written into [self], so the
    broadcast shape has to be the shape of [self] and the promoted dtype has
    to be castable to the dtype of [self]. *)
Definition mul_ (self other : Tensor) : result Tensor :=
  match broadcast_shapes (shape self) (shape other) with
  | Some sh =>
      if decide (sh = shape self) then
        if category (dtype other) <=? category (dtype self) then
          Ok (tabulate (shape self) (dtype self)
                (fun idx => (elem self idx
                             * elem other (bcast_index (shape other) idx))%R))
        else Err RuntimeError
      else Err RuntimeError
  | None => Err RuntimeError
  end.

(** [t.to(dt)] *)
Definition to_dtype (dt : Dtype) (t : Tensor) : Tensor :=
  {| shape := shape t; dtype := dt; elem := elem t |}.

Definition set_last (idx : Index) (j : nat) : Index :=
  removelast idx ++ [j].

Definition sum_upto (n : nat) (f : nat -> R) : R :=
  foldr (fun j acc => (f j + acc)%R) 0%R (seq 0 n).

(** The softmax quotient of the entry at [idx] within its row of [d]
    entries along the last axis. *)
Definition softmax_quotient (t : Tensor) (d : nat) (idx : Index) : R :=
  (exp (elem t idx)
   / sum_upto d (fun j => exp (elem t (set_last idx j))))%R.

(** [F.softmax(t, dim=-1)]: every quotient is rounded to the dtype of
    [t]. *)
Definition F_softmax_last (t : Tensor) : result Tensor :=
  if is_floating (dtype t) then
    match rev (shape t) with
    | d :: _ =>
        Ok (tabulate (shape t) (dtype t)
              (fun idx => round_to (dtype t) (softmax_quotient t d idx)))
    | [] => Ok (tabulate (shape t) (dtype t) (fun _ => 1%R))
    end
  else Err RuntimeError.

(** [t.transpose(1, 2)] *)
Definition swap12 (idx : Index) : Index :=
  match idx with
  | a :: b :: c :: rest => a :: c :: b :: rest
  | _ => idx
  end.

Definition transpose12 (t : Tensor) : result Tensor :=
  match shape t with
  | _ :: _ :: _ :: _ =>
      Ok (tabulate (swap12 (shape t)) (dtype t)
            (fun idx => elem t (swap12 idx)))
  | _ => Err IndexError
  end.

(** Row-major flattening of an index and its inverse, for [view]. *)
Fixpoint ravel (sh : list nat) (idx : Index) : nat :=
  match sh, idx with
  | _ :: sh', i :: idx' => i * foldr Nat.mul 1 sh' + ravel sh' idx'
  | _, _ => 0
  end.

Fixpoint unravel (sh : list nat) (k : nat) : Index :=
  match sh with
  | [] => []
  | _ :: sh' =>
      (k / foldr Nat.mul 1 sh') :: unravel sh' (k mod foldr Nat.mul 1 sh')
  end.

(** [t.view(bsz, q_len, -1, head_dim)]: the third size is inferred, which
    torch refuses when the known sizes multiply to zero or do not divide the
    number of elements. *)
Definition view_heads (bsz q_len head_dim : nat) (t : Tensor)
  : result Tensor :=
  let known := bsz * q_len * head_dim in
  if (known =? 0) || negb (numel t mod known =? 0) then Err RuntimeError
  else
    let sh := [bsz; q_len; numel t / known; head_dim] in
    Ok (tabulate sh (dtype t)
          (fun idx => elem t (unravel (shape t) (ravel sh idx)))).

(** ** einops / transformers primitives *)

(** [rearrange(t, 'b n (h d) -> b h n d', h=h)] *)
Definition rearrange_split_heads (h : nat) (t : Tensor) : result Tensor :=
  match shape t with
  | [b; n; f] =>
      if (h =? 0) || negb (f mod h =? 0) then Err EinopsError
      else
        let d := f / h in
        Ok (tabulate [b; h; n; d] (dtype t)
              (fun idx =>
                 match idx with
                 | [ib; ih; i; id] => elem t [ib; i; ih * d + id]
                 | _ => 0%R
                 end))
  | _ => Err EinopsError
  end.

(** [rearrange(t, 'b h n d -> b n (h d)')] *)
Definition rearrange_merge_heads (t : Tensor) : result Tensor :=
  match shape t with
  | [b; h; n; d] =>
      Ok (tabulate [b; n; h * d] (dtype t)
            (fun idx =>
               match idx with
               | [ib; i; j] => elem t [ib; j / d; i; j mod d]
               | _ => 0%R
               end))
  | _ => Err EinopsError
  end.

(** [repeat_kv(t, n_rep)] of transformers: every key/value head is repeated
    [n_rep] times; for [n_rep = 1] the argument itself is returned. *)
Definition repeat_kv (t : Tensor) (n_rep : nat) : result Tensor :=
  match shape t with
  | [b; kvh; s; d] =>
      if n_rep =? 1 then Ok t
      else
        Ok (tabulate [b; kvh * n_rep; s; d] (dtype t)
              (fun idx =>
                 match idx with
                 | [ib; ih; i; id] => elem t [ib; ih / n_rep; i; id]
                 | _ => 0%R
                 end))
  | _ => Err ValueError
  end.

(** Whether [repeat_kv(t, n_rep)] is a view in which the repeated heads
    share their memory.  [repeat_kv] expands a new axis to size [n_rep]
    without copying and reshapes; on a tensor with elements the reshape
    needs no copy exactly when there is a single key/value head, and the
    result is then the expanded view itself. *)
Definition repeat_kv_shares_memory (t : Tensor) (n_rep : nat) : bool :=
  match shape t with
  | [b; kvh; s; d] => (kvh =? 1) && (1 <? n_rep) && negb (b * s * d =? 0)
  | _ => false
  end.

(** [attention_mask[:, None, -n:, None]].  A Python slice [-0:] is the whole
    axis. *)
Definition mask_last (n : nat) (m : Tensor) : result Tensor :=
  match shape m with
  | bm :: len :: rest =>
      let start := if n =? 0 then 0 else len - n in
      Ok (tabulate (bm :: 1 :: (len - start) :: 1 :: rest) (dtype m)
            (fun idx =>
               match idx with
               | ib :: _ :: i :: _ :: r => elem m (ib :: (start + i) :: r)
               | _ => 0%R
               end))
  | _ => Err IndexError
  end.

(** All in-range indices of a shape, in row-major order. *)
Fixpoint indices (sh : list nat) : list Index :=
  match sh with
  | [] => [[]]
  | d :: sh' => i ← seq 0 d; (i ::.) <$> indices sh'
  end.

(** [c in t]: some element of [t] equals [c]. *)
Definition tensor_contains (c : R) (t : Tensor) : bool :=
  existsb (fun idx => if Req_dec_T (elem t idx) c then true else false)
          (indices (shape t)).

(** ** The heap of tensor objects *)

Definition Ref := nat.
Definition Heap := list Tensor.

Definition Py (A : Type) : Type := Heap -> result (A * Heap).

Definition pret {A} (a : A) : Py A := fun h => Ok (a, h).

Definition pbind {A B} (m : Py A) (k : A -> Py B) : Py B :=
  fun h =>
    match m h with
    | Ok (a, h') => k a h'
    | Err e => Err e
    end.

Definition lift {A} (r : result A) : Py A :=
  fun h =>
    match r with
    | Ok a => Ok (a, h)
    | Err e => Err e
    end.

Declare Scope py_scope.
Delimit Scope py_scope with py.
Notation "x <- m ;; k" := (pbind m (fun x => k))
  (at level 100, m at next level, right associativity) : py_scope.

Definition empty_tensor : Tensor := tabulate [0] Float32 (fun _ => 0%R).

(** A new object holding [t]. *)
Definition new (t : Tensor) : Py Ref :=
  fun h => Ok (length h, h ++ [t]).

(** The current contents of the object [r]. *)
Definition read (r : Ref) : Py Tensor :=
  fun h => Ok (default empty_tensor (h !! r), h).

(** Overwrite the contents of the object [r]. *)
Definition write (r : Ref) (t : Tensor) : Py unit :=
  fun h => Ok (tt, <[r := t]> h).

(** Run a computation on a fresh heap and keep its value. *)
Definition run {A} (m : Py A) : result A :=
  match m [] with
  | Ok (a, _) => Ok a
  | Err e => Err e
  end.

(** [t * attention_mask[:, None, -t.shape[2]:, None]], with the shape of
    [t]. *)
Definition masked (attention_mask t : Tensor) : result Tensor :=
  (n <- shape_at t 2 ;;
   m <- mask_last n attention_mask ;;
   mul_ t m)%res.

(** [x.mul_(attention_mask[:, None, -x.shape[2]:, None])] on the object
    [x]: the product replaces the contents of [x]. *)
Definition mask_mul_ (x : Ref) (attention_mask : Tensor) : Py unit :=
  (t <- read x ;;
   t' <- lift (masked attention_mask t) ;;
   write x t')%py.

(** The same on an object that may be a view whose elements share memory:
    torch refuses to write into such a view. *)
Definition mask_mul_view_ (shares_memory : bool) (x : Ref)
    (attention_mask : Tensor) : Py unit :=
  (t <- read x ;;
   t' <- lift (n <- shape_at t 2 ;;
               m <- mask_last n attention_mask ;;
               if shares_memory then Err RuntimeError else mul_ t m)%res ;;
   write x t')%py.

(** The contents left in an object by the optional masking step. *)
Definition with_mask (attention_mask : option Tensor) (t : Tensor)
  : result Tensor :=
  match attention_mask with
  | Some m => masked m t
  | None => Ok t
  end.

(** ** Python integers *)

(** [a // b] on natural numbers. *)
Definition floordiv (a b : nat) : result nat :=
  if b =? 0 then Err ZeroDivisionError else Ok (a / b).

(** ** Configurations *)

Module LigerGSAConfig.
Record t : Type := {
  hidden_size : nat;
  num_attention_heads : nat;
  num_key_value_heads : nat;
  head_dim : option nat;
  pool_size : nat;
  attention_dropout : R;
  _pre_quantization_dtype : option Dtype
}.
End LigerGSAConfig.

Module LigerQwen2GLAConfig.
Record t : Type := {
  hidden_size : nat;
  num_attention_heads : nat;
  num_key_value_heads : nat;
  max_position_embeddings : nat;
  rope_theta : R;
  attention_dropout : R;
  _pre_quantization_dtype : option Dtype
}.
End LigerQwen2GLAConfig.

(** ** Collaborators *)

(** An [nn.Linear] layer: the dtype of its weight and the map it applies. *)
Record Linear : Type := {
  weight_dtype : Dtype;
  linear_forward : Tensor -> result Tensor
}.

(** What the two attention classes import from torch, transformers and
    fla.  [RState] is the recurrent state handed between the recurrent
    kernels and the cache. *)
Record Env : Type := {
  RState : Type;
  nn_Linear : nat -> nat -> bool -> Linear;
  nn_AdaptiveAvgPool1d : nat -> Tensor -> result Tensor;
  LlamaRotaryEmbedding :
    LigerGSAConfig.t -> Tensor -> option Tensor -> result (Tensor * Tensor);
  Qwen2RotaryEmbedding :
    LigerQwen2GLAConfig.t -> Tensor -> option Tensor
    -> result (Tensor * Tensor);
  apply_rotary_pos_emb :
    Tensor -> Tensor -> Tensor -> Tensor -> result (Tensor * Tensor);
  (* q k v s g scale initial_state *)
  chunk_gsa :
    Tensor -> Tensor -> Tensor -> Tensor -> Tensor -> R -> option RState
    -> result (Tensor * RState);
  fused_recurrent_gsa :
    Tensor -> Tensor -> Tensor -> Tensor -> Tensor -> R -> option RState
    -> result (Tensor * RState);
  (* q k v g scale initial_state *)
  fused_chunk_gla :
    Tensor -> Tensor -> Tensor -> Tensor -> R -> option RState
    -> result (Tensor * RState);
  fused_recurrent_gla :
    Tensor -> Tensor -> Tensor -> Tensor -> R -> option RState
    -> result (Tensor * RState);
  (* q k v attention_mask q_len position_ids sliding_window
     use_top_left_mask target_dtype; dropout is 0.0 and is_causal is True
     at both call sites *)
  _flash_attention_forward :
    Tensor -> Tensor -> Tensor -> option Tensor -> nat -> option Tensor
    -> nat -> bool -> Dtype -> result Tensor;
  is_autocast_enabled : bool;
  get_autocast_gpu_dtype : Dtype;
  is_flash_attn_greater_or_equal_2_10 : bool
}.

(** ** The recurrent-state cache *)

(** Modelled from the spec: the cache class [fla.models.utils.Cache] is
    imported, not defined, by the sources.  The spec describes a cache entry
    as a mapping from layer index to recurrent state plus a token offset
    counter; writing a state stores it under the layer's index and advances
    the counter by the offset passed by the caller. *)
Record FlaCache (S : Type) : Type := {
  states : gmap nat S;
  seen_tokens : nat
}.
Arguments states {S} _.
Arguments seen_tokens {S} _.

(** [len(cache)] *)
Definition cache_len {S} (c : FlaCache S) : nat := size (states c).

(** [cache[layer_idx]] *)
Definition cache_getitem {S} (c : FlaCache S) (layer_idx : nat) : result S :=
  match states c !! layer_idx with
  | Some st => Ok st
  | None => Err KeyError
  end.

(** [cache.update(recurrent_state=st, layer_idx=layer_idx, offset=offset)] *)
Definition cache_update {S} (c : FlaCache S) (st : S) (layer_idx offset : nat)
  : FlaCache S :=
  {| states := <[layer_idx := st]> (states c);
     seen_tokens := seen_tokens c + offset |}.

(** ** Code shared by the two attention classes *)

(** [last_state = None
     if past_key_value is not None and len(past_key_value) > self.layer_idx:
         last_state = past_key_value[self.layer_idx]]
    With [layer_idx] left at [None] the comparison raises. *)
Definition get_last_state {S} (layer_idx : option nat)
    (past_key_value : option (FlaCache S)) : result (option S) :=
  match past_key_value with
  | None => Ok None
  | Some c =>
      match layer_idx with
      | None => Err TypeError
      | Some l =>
          if l <? cache_len c then
            (st <- cache_getitem c l ;; Ok (Some st))%res
          else Ok None
      end
  end.

Definition gate_logit_normalizer : R := 16.

(** [g = F.logsigmoid(g) / gate_logit_normalizer] *)
Definition gate (g : Tensor) : result Tensor :=
  (g' <- F_logsigmoid g ;; Ok (div_scalar g' gate_logit_normalizer))%res.

(** The two recurrent formulations. *)
Inductive Mode : Type := Chunked | FusedRecurrent.

(** [if self.training or q.shape[-2] > 1: <chunked> else: <fused recurrent>] *)
Definition select_mode (training : bool) (q : Tensor) : result Mode :=
  if training then Ok Chunked
  else (n <- shape_at_neg q 2 ;;
        Ok (if 1 <? n then Chunked else FusedRecurrent))%res.

(** [if past_key_value is not None:
         past_key_value.update(recurrent_state=recurrent_state,
                               layer_idx=self.layer_idx, offset=q.shape[1])] *)
Definition update_cache {S} (past_key_value : option (FlaCache S))
    (recurrent_state : S) (layer_idx : option nat) (q : Tensor)
  : result (option (FlaCache S)) :=
  match past_key_value with
  | None => Ok None
  | Some c =>
      (offset <- shape_at q 1 ;;
       match layer_idx with
       | Some l => Ok (Some (cache_update c recurrent_state l offset))
       | None => Err TypeError
       end)%res
  end.

(** The dtype the windowed path is cast back to when its inputs arrive in
    float32. *)
Definition target_dtype (E : Env) (pre_quantization_dtype : option Dtype)
    (weight : Dtype) : Dtype :=
  if is_autocast_enabled E then get_autocast_gpu_dtype E
  else match pre_quantization_dtype with
       | Some dt => dt
       | None => weight
       end.

(** [input_dtype = sq.dtype
     if input_dtype == torch.float32: sq, sk, sv = (x.to(target_dtype) ...)] *)
Definition cast_back (target : Dtype) (sq sk sv : Tensor)
  : Tensor * Tensor * Tensor :=
  if decide (dtype sq = Float32) then
    (to_dtype target sq, to_dtype target sk, to_dtype target sv)
  else (sq, sk, sv).

Definition window_size : nat := 64.

(** [_flash_attention_forward(sq.transpose(1, 2), sk.transpose(1, 2),
       sv.transpose(1, 2), attention_mask, q_len, position_ids=...,
       dropout=0.0, sliding_window=window_size, use_top_left_mask=...,
       is_causal=True, target_dtype=torch.float32).transpose(1, 2)] *)
Definition window_attention (E : Env) (sq sk sv : Tensor)
    (attention_mask : option Tensor) (q_len : nat)
    (position_ids : option Tensor) (use_top_left_mask : bool)
  : result Tensor :=
  (sq' <- transpose12 sq ;;
   sk' <- transpose12 sk ;;
   sv' <- transpose12 sv ;;
   y <- _flash_attention_forward E sq' sk' sv' attention_mask q_len
          position_ids window_size use_top_left_mask Float32 ;;
   transpose12 y)%res.

(** [o_ = 0.5 * y + 0.5 * o_] *)
Definition blend (y o_ : Tensor) : result Tensor :=
  torch_add (mul_scalar 0.5 y) (mul_scalar 0.5 o_).

(** [o = rearrange(o_.bfloat16(), 'b h n d -> b n (h d)')], the argument of
    the output projection. *)
Definition pre_projection (o_ : Tensor) : result Tensor :=
  rearrange_merge_heads (to_dtype BFloat16 o_).

(** ** LigerGatedSlotAttention (modeling_liger_gsa.py) *)

Module GSA.
Section WithEnv.
Context (E : Env).

Record LigerGatedSlotAttention : Type := {
  config : LigerGSAConfig.t;
  layer_idx : option nat;
  attention_dropout : R;
  hidden_size : nat;
  num_heads : nat;
  head_dim : nat;
  num_key_value_heads : nat;
  num_key_value_groups : nat;
  q_proj : Linear;
  k_proj : Linear;
  v_proj : Linear;
  o_proj : Linear;
  rotary_emb : Tensor -> option Tensor -> result (Tensor * Tensor);
  pool_size : nat;
  pool_g : Tensor -> result Tensor;
  training : bool
}.

(** [LigerGatedSlotAttention.__init__].  The default of
    [getattr(config, "head_dim", hidden_size // num_heads)] is evaluated
    before the lookup. *)
Definition __init__ (config : LigerGSAConfig.t) (layer_idx : option nat)
  : result LigerGatedSlotAttention :=
  let hidden_size := LigerGSAConfig.hidden_size config in
  let num_heads := LigerGSAConfig.num_attention_heads config in
  (head_dim_default <- floordiv hidden_size num_heads ;;
   let head_dim := default head_dim_default (LigerGSAConfig.head_dim config) in
   let num_key_value_heads := LigerGSAConfig.num_key_value_heads config in
   num_key_value_groups <- floordiv num_heads num_key_value_heads ;;
   let pool_size := LigerGSAConfig.pool_size config in
   Ok {| config := config;
         layer_idx := layer_idx;
         attention_dropout := LigerGSAConfig.attention_dropout config;
         hidden_size := hidden_size;
         num_heads := num_heads;
         head_dim := head_dim;
         num_key_value_heads := num_key_value_heads;
         num_key_value_groups := num_key_value_groups;
         q_proj := nn_Linear E hidden_size (num_heads * head_dim) false;
         k_proj := nn_Linear E hidden_size
                     (num_key_value_heads * head_dim) false;
         v_proj := nn_Linear E hidden_size
                     (num_key_value_heads * head_dim) false;
         o_proj := nn_Linear E (num_heads * head_dim) hidden_size false;
         rotary_emb := LlamaRotaryEmbedding E config;
         pool_size := pool_size;
         pool_g := nn_AdaptiveAvgPool1d E (pool_size * num_key_value_heads);
         training := true |})%res.

(** [s = 1 - torch.exp(g)] *)
Definition decay (g : Tensor) : Tensor := rsub_scalar 1 (torch_exp g).

Definition recurrent_kernel (mode : Mode) :=
  match mode with
  | Chunked => chunk_gsa E
  | FusedRecurrent => fused_recurrent_gsa E
  end.

(** What a call of [forward] computes: the value it returns ([output]),
    the cache object as the call leaves it ([cache_out]), and the values
    of the local variables of the source that the properties below speak
    about, recorded at the point named in each comment. *)
Record Trace : Type := {
  gate_tensor : Tensor;      (* g after line 104 *)
  decay_tensor : Tensor;     (* s after line 105 *)
  rec_q : Tensor;            (* q, k, v, s, g after line 114 *)
  rec_k : Tensor;
  rec_v : Tensor;
  rec_s : Tensor;
  rec_g : Tensor;
  mode : Mode;               (* the branch taken at line 116 *)
  rec_out : Tensor;          (* o_ after line 117/119 *)
  new_state : RState E;      (* recurrent_state after line 117/119 *)
  win_q : Tensor;            (* sq, sk, sv at line 170 *)
  win_k : Tensor;
  win_v : Tensor;
  win_out : Tensor;          (* y after line 183 *)
  blended : Tensor;          (* o_ after line 185 *)
  o_proj_input : Tensor;     (* o after line 186 *)
  output : Tensor;           (* o after line 187 *)
  cache_out : option (FlaCache (RState E))
}.

(** The body of [forward] after the three projections and the pooling of
    the key projection (source lines 92-189). *)
Definition attend (self : LigerGatedSlotAttention)
    (last_state : option (RState E)) (hidden_states q k v g : Tensor)
    (attention_mask position_ids : option Tensor)
    (past_key_value : option (FlaCache (RState E)))
    (position_embeddings : option (Tensor * Tensor))
  : Py Trace :=
  (q <- lift (rearrange_split_heads (num_heads self) q) ;;
   k <- lift (rearrange_split_heads (num_key_value_heads self) k) ;;
   v <- lift (rearrange_split_heads (num_key_value_heads self) v) ;;
   g <- lift (rearrange_split_heads (num_key_value_heads self) g) ;;
   k <- lift (repeat_kv k (num_key_value_groups self)) ;;
   let v_shares_memory :=
     repeat_kv_shares_memory v (num_key_value_groups self) in
   v <- lift (repeat_kv v (num_key_value_groups self)) ;;
   g <- lift (repeat_kv g (num_key_value_groups self)) ;;
   (* from here on q, k, v name tensor objects *)
   q <- new q ;;
   k <- new k ;;
   v <- new v ;;
   (* sq, sk, sv = q, k, v : second names for the same three objects *)
   let sq := q in
   let sk := k in
   let sv := v in
   g <- lift (gate g) ;;
   let gate_tensor_ := g in
   let decay_tensor_ := decay g in
   s <- new (decay g) ;;
   (* dealing with left-padding *)
   _ <- match attention_mask with
        | Some m => (_ <- mask_mul_ s m ;;
                     mask_mul_view_ v_shares_memory v m)
        | None => pret tt
        end ;;
   let recurrent_state := last_state in
   let scale := 1%R in
   (* q, k, v, s, g = (x.to(torch.float32).contiguous() for x in ...) *)
   q <- read q ;;
   k <- read k ;;
   v <- read v ;;
   s <- read s ;;
   let q := to_dtype Float32 q in
   let k := to_dtype Float32 k in
   let v := to_dtype Float32 v in
   let s := to_dtype Float32 s in
   let g := to_dtype Float32 g in
   mode_ <- lift (select_mode (training self) q) ;;
   r <- lift (recurrent_kernel mode_ q k v s g scale recurrent_state) ;;
   let '(o_, recurrent_state) := r in
   let rec_out_ := o_ in
   past_key_value <-
     lift (update_cache past_key_value recurrent_state (layer_idx self) q) ;;
   q_len <- lift (shape_at_neg hidden_states 2) ;;
   cs <- match position_embeddings with
         | None => (sv_now <- read sv ;;
                    lift (rotary_emb self sv_now position_ids))
         | Some pe => pret pe
         end ;;
   let '(cos, sin) := cs in
   sq_now <- read sq ;;
   sk_now <- read sk ;;
   r <- lift (apply_rotary_pos_emb E sq_now sk_now cos sin) ;;
   let '(sq, sk) := r in
   sv <- read sv ;;
   let '(sq, sk, sv) :=
     cast_back
       (target_dtype E (LigerGSAConfig._pre_quantization_dtype (config self))
          (weight_dtype (q_proj self)))
       sq sk sv in
   y <- lift (window_attention E sq sk sv attention_mask q_len position_ids
                (negb (is_flash_attn_greater_or_equal_2_10 E))) ;;
   o_ <- lift (blend y o_) ;;
   o <- lift (pre_projection o_) ;;
   let o_proj_input_ := o in
   o <- lift (linear_forward (o_proj self) o) ;;
   pret {| gate_tensor := gate_tensor_;
           decay_tensor := decay_tensor_;
           rec_q := q; rec_k := k; rec_v := v; rec_s := s; rec_g := g;
           mode := mode_;
           rec_out := rec_out_;
           new_state := recurrent_state;
           win_q := sq; win_k := sk; win_v := sv;
           win_out := y;
           blended := o_;
           o_proj_input := o_proj_input_;
           output := o;
           cache_out := past_key_value |})%py.

(** [LigerGatedSlotAttention.forward] *)
Definition forward (self : LigerGatedSlotAttention)
    (hidden_states : Tensor) (attention_mask position_ids : option Tensor)
    (past_key_value : option (FlaCache (RState E)))
    (position_embeddings : option (Tensor * Tensor))
  : result Trace :=
  (last_state <- get_last_state (layer_idx self) past_key_value ;;
   q <- linear_forward (q_proj self) hidden_states ;;
   k <- linear_forward (k_proj self) hidden_states ;;
   v <- linear_forward (v_proj self) hidden_states ;;
   g <- pool_g self k ;;
   run (attend self last_state hidden_states q k v g attention_mask
          position_ids past_key_value position_embeddings))%res.

(** [self.v_proj = layer]: the module with another value projection. *)
Definition set_v_proj (self : LigerGatedSlotAttention) (layer : Linear)
  : LigerGatedSlotAttention :=
  {| config := config self;
     layer_idx := layer_idx self;
     attention_dropout := attention_dropout self;
     hidden_size := hidden_size self;
     num_heads := num_heads self;
     head_dim := head_dim self;
     num_key_value_heads := num_key_value_heads self;
     num_key_value_groups := num_key_value_groups self;
     q_proj := q_proj self;
     k_proj := k_proj self;
     v_proj := layer;
     o_proj := o_proj self;
     rotary_emb := rotary_emb self;
     pool_size := pool_size self;
     pool_g := pool_g self;
     training := training self |}.

(** [self.eval()] of [nn.Module]: leave training mode. *)
Definition eval (self : LigerGatedSlotAttention)
  : LigerGatedSlotAttention :=
  {| config := config self;
     layer_idx := layer_idx self;
     attention_dropout := attention_dropout self;
     hidden_size := hidden_size self;
     num_heads := num_heads self;
     head_dim := head_dim self;
     num_key_value_heads := num_key_value_heads self;
     num_key_value_groups := num_key_value_groups self;
     q_proj := q_proj self;
     k_proj := k_proj self;
     v_proj := v_proj self;
     o_proj := o_proj self;
     rotary_emb := rotary_emb self;
     pool_size := pool_size self;
     pool_g := pool_g self;
     training := false |}.
End WithEnv.
End GSA.

(** ** LigerQwen2GatedLinearAttention (modeling_liger_qwen2_gla.py) *)

Module GLA.
Section WithEnv.
Context (E : Env).

Record LigerQwen2GatedLinearAttention : Type := {
  config : LigerQwen2GLAConfig.t;
  layer_idx : option nat;
  hidden_size : nat;
  num_heads : nat;
  head_dim : nat;
  num_key_value_heads : nat;
  num_key_value_groups : nat;
  max_position_embeddings : nat;
  rope_theta : R;
  is_causal : bool;
  attention_dropout : R;
  q_proj : Linear;
  k_proj : Linear;
  v_proj : Linear;
  o_proj : Linear;
  rotary_emb : Tensor -> option Tensor -> result (Tensor * Tensor);
  pool_g : Tensor -> result Tensor;
  training : bool
}.

(** [LigerQwen2GatedLinearAttention.__init__].  A missing [layer_idx] only
    logs a warning. *)
Definition __init__ (config : LigerQwen2GLAConfig.t)
    (layer_idx : option nat) : result LigerQwen2GatedLinearAttention :=
  let hidden_size := LigerQwen2GLAConfig.hidden_size config in
  let num_heads := LigerQwen2GLAConfig.num_attention_heads config in
  (head_dim <- floordiv hidden_size num_heads ;;
   let num_key_value_heads :=
     LigerQwen2GLAConfig.num_key_value_heads config in
   num_key_value_groups <- floordiv num_heads num_key_value_heads ;;
   if negb (head_dim * num_heads =? hidden_size) then Err ValueError
   else
     Ok {| config := config;
           layer_idx := layer_idx;
           hidden_size := hidden_size;
           num_heads := num_heads;
           head_dim := head_dim;
           num_key_value_heads := num_key_value_heads;
           num_key_value_groups := num_key_value_groups;
           max_position_embeddings :=
             LigerQwen2GLAConfig.max_position_embeddings config;
           rope_theta := LigerQwen2GLAConfig.rope_theta config;
           is_causal := true;
           attention_dropout :=
             LigerQwen2GLAConfig.attention_dropout config;
           q_proj := nn_Linear E hidden_size (num_heads * head_dim) true;
           k_proj := nn_Linear E hidden_size
                       (num_key_value_heads * head_dim) true;
           v_proj := nn_Linear E hidden_size
                       (num_key_value_heads * head_dim) true;
           o_proj := nn_Linear E (num_heads * head_dim) hidden_size false;
           rotary_emb := Qwen2RotaryEmbedding E config;
           pool_g := nn_AdaptiveAvgPool1d E (head_dim * num_key_value_heads);
           training := true |})%res.

(** [x.view(bsz, q_len, -1, self.head_dim).transpose(1, 2)] *)
Definition split_heads (bsz q_len head_dim : nat) (x : Tensor)
  : result Tensor :=
  (x' <- view_heads bsz q_len head_dim x ;; transpose12 x')%res.

Definition recurrent_kernel (mode : Mode) :=
  match mode with
  | Chunked => fused_chunk_gla E
  | FusedRecurrent => fused_recurrent_gla E
  end.

(** [if attention_mask is not None and 0.0 in attention_mask: pass
     else: attention_mask = None] *)
Definition keep_padding_mask (attention_mask : option Tensor)
  : option Tensor :=
  match attention_mask with
  | Some m => if tensor_contains 0 m then Some m else None
  | None => None
  end.

(** What a call of [forward] computes: the value it returns ([output]),
    the cache object as the call leaves it ([cache_out]), and the values
    of the local variables of the source that the properties below speak
    about, recorded at the point named in each comment. *)
Record Trace : Type := {
  raw_q : Tensor;            (* sq, sk, sv after line 142 *)
  raw_k : Tensor;
  raw_v : Tensor;
  gate_tensor : Tensor;      (* g after line 149 *)
  rec_q : Tensor;            (* q, k, v, g after line 154 *)
  rec_k : Tensor;
  rec_v : Tensor;
  rec_g : Tensor;
  mode : Mode;               (* the branch taken at line 156 *)
  rec_out : Tensor;          (* o_ after line 157/159 *)
  new_state : RState E;      (* recurrent_state after line 157/159 *)
  cos_sin : Tensor * Tensor; (* cos, sin after line 177 *)
  win_q : Tensor;            (* sq, sk, sv at line 206 *)
  win_k : Tensor;
  win_v : Tensor;
  win_out : Tensor;          (* y after line 218 *)
  blended : Tensor;          (* o_ after line 219 *)
  o_proj_input : Tensor;     (* o after line 220 *)
  output : Tensor;           (* o after line 221 *)
  cache_out : option (FlaCache (RState E))
}.

(** The body of [forward] after the three projections and the pooling of
    the key projection (source lines 115-223). *)
Definition attend (self : LigerQwen2GatedLinearAttention)
    (last_state : option (RState E)) (bsz q_len : nat)
    (query_states key_states value_states g : Tensor)
    (attention_mask position_ids : option Tensor)
    (past_key_value : option (FlaCache (RState E)))
    (position_embeddings : option (Tensor * Tensor))
  : result Trace :=
  (query_states <- split_heads bsz q_len (head_dim self) query_states ;;
   key_states <- split_heads bsz q_len (head_dim self) key_states ;;
   value_states <- split_heads bsz q_len (head_dim self) value_states ;;
   g <- split_heads bsz q_len (head_dim self) g ;;
   (* repeat k/v heads if n_kv_heads < n_heads *)
   let q := query_states in
   k <- repeat_kv key_states (num_key_value_groups self) ;;
   v <- repeat_kv value_states (num_key_value_groups self) ;;
   g <- repeat_kv g (num_key_value_groups self) ;;
   let sq := q in
   let sk := k in
   let sv := v in
   let raw_q_ := sq in
   let raw_k_ := sk in
   let raw_v_ := sv in
   (* norm *)
   q <- F_softmax_last q ;;
   k <- F_softmax_last k ;;
   g <- gate g ;;
   let gate_tensor_ := g in
   let recurrent_state := last_state in
   let scale := 1%R in
   let q := to_dtype Float32 q in
   let k := to_dtype Float32 k in
   let v := to_dtype Float32 v in
   let g := to_dtype Float32 g in
   mode_ <- select_mode (training self) q ;;
   r <- recurrent_kernel mode_ q k v g scale recurrent_state ;;
   let '(o_, recurrent_state) := r in
   let rec_out_ := o_ in
   past_key_value <-
     update_cache past_key_value recurrent_state (layer_idx self) q ;;
   cs <- match position_embeddings with
         | None => rotary_emb self sv position_ids
         | Some pe => Ok pe
         end ;;
   let '(cos, sin) := cs in
   r <- apply_rotary_pos_emb E sq sk cos sin ;;
   let '(sq, sk) := r in
   let '(sq, sk, sv) :=
     cast_back
       (target_dtype E
          (LigerQwen2GLAConfig._pre_quantization_dtype (config self))
          (weight_dtype (q_proj self)))
       sq sk sv in
   let attention_mask := keep_padding_mask attention_mask in
   y <- window_attention E sq sk sv attention_mask q_len position_ids
          false ;;
   o_ <- blend y o_ ;;
   o <- pre_projection o_ ;;
   let o_proj_input_ := o in
   o <- linear_forward (o_proj self) o ;;
   Ok {| raw_q := raw_q_; raw_k := raw_k_; raw_v := raw_v_;
         gate_tensor := gate_tensor_;
         rec_q := q; rec_k := k; rec_v := v; rec_g := g;
         mode := mode_;
         rec_out := rec_out_;
         new_state := recurrent_state;
         cos_sin := (cos, sin);
         win_q := sq; win_k := sk; win_v := sv;
         win_out := y;
         blended := o_;
         o_proj_input := o_proj_input_;
         output := o;
         cache_out := past_key_value |})%res.

(** [LigerQwen2GatedLinearAttention.forward] *)
Definition forward (self : LigerQwen2GatedLinearAttention)
    (hidden_states : Tensor) (attention_mask position_ids : option Tensor)
    (past_key_value : option (FlaCache (RState E)))
    (position_embeddings : option (Tensor * Tensor))
  : result Trace :=
  (last_state <- get_last_state (layer_idx self) past_key_value ;;
   match shape hidden_states with
   | [bsz; q_len; _] =>
       query_states <- linear_forward (q_proj self) hidden_states ;;
       key_states <- linear_forward (k_proj self) hidden_states ;;
       value_states <- linear_forward (v_proj self) hidden_states ;;
       g <- pool_g self key_states ;;
       attend self last_state bsz q_len query_states key_states
         value_states g attention_mask position_ids past_key_value
         position_embeddings
   | _ => Err ValueError
   end)%res.

(** [self.eval()] of [nn.Module]: leave training mode. *)
Definition eval (self : LigerQwen2GatedLinearAttention)
  : LigerQwen2GatedLinearAttention :=
  {| config := config self;
     layer_idx := layer_idx self;
     hidden_size := hidden_size self;
     num_heads := num_heads self;
     head_dim := head_dim self;
     num_key_value_heads := num_key_value_heads self;
     num_key_value_groups := num_key_value_groups self;
     max_position_embeddings := max_position_embeddings self;
     rope_theta := rope_theta self;
     is_causal := is_causal self;
     attention_dropout := attention_dropout self;
     q_proj := q_proj self;
     k_proj := k_proj self;
     v_proj := v_proj self;
     o_proj := o_proj self;
     rotary_emb := rotary_emb self;
     pool_g := pool_g self;
     training := false |}.
End WithEnv.
End GLA.

(** * The stack model of the Qwen2 variant *)

(** ** What the model's [forward] can raise

    Next to the errors of the tensor code, the errors Python raises when a
    name or an attribute is read that was never bound. *)
Inductive PyExn : Type :=
  | Raised (e : Exn)
  | NameError
  | UnboundLocalError
  | AttributeError.

Inductive outcome (A : Type) : Type :=
  | Return (a : A)
  | Raise (e : PyExn).
Arguments Return {A} a.
Arguments Raise {A} e.

Definition obind {A B} (m : outcome A) (k : A -> outcome B) : outcome B :=
  match m with
  | Return a => k a
  | Raise e => Raise e
  end.

Definition is_Return {A} (r : outcome A) : bool :=
  match r with
  | Return _ => true
  | Raise _ => false
  end.

(** A call into the tensor code. *)
Definition call {A} (r : result A) : outcome A :=
  match r with
  | Ok a => Return a
  | Err e => Raise (Raised e)
  end.

Declare Scope out_scope.
Delimit Scope out_scope with out.
Notation "x <- m ;; k" := (obind m (fun x => k))
  (at level 100, m at next level, right associativity) : out_scope.

(** Reading a local variable: [None] is a name of the function body that
    no statement has assigned yet. *)
Definition read_local {A} (x : option A) : outcome A :=
  match x with
  | Some a => Return a
  | None => Raise UnboundLocalError
  end.

(** Reading a name that is bound neither in the function nor in the
    module. *)
Definition read_unbound_global {A} : outcome A := Raise NameError.

(** Reading an attribute of [self] that may not have been set. *)
Definition getattr_self {A} (x : option A) : outcome A :=
  match x with
  | Some a => Return a
  | None => Raise AttributeError
  end.

(** [t += (x,)] on a name holding a tuple or [None]. *)
Definition tuple_iadd {A} (t : option (list A)) (x : A)
  : outcome (option (list A)) :=
  match t with
  | Some l => Return (Some (l ++ [x]))
  | None => Raise (Raised TypeError)
  end.

(** [tup[k]] *)
Definition tuple_getitem {A} (tup : list A) (k : nat) : outcome A :=
  match tup !! k with
  | Some a => Return a
  | None => Raise (Raised IndexError)
  end.

(** [torch.arange(start, stop)] *)
Definition torch_arange (start stop : nat) : Tensor :=
  tabulate [stop - start] Int64
    (fun idx => match idx with
                | [i] => INR (start + i)
                | _ => 0%R
                end).

(** [t.unsqueeze(0)] *)
Definition unsqueeze0 (t : Tensor) : Tensor :=
  tabulate (1 :: shape t) (dtype t)
    (fun idx => match idx with
                | _ :: rest => elem t rest
                | [] => 0%R
                end).

(** [LigerQwen2GLAConfig] as the decoder layer and the model read it: the
    fields the attention class reads, and seven more. *)
Module GLAModelConfig.
Record t : Type := {
  attention : LigerQwen2GLAConfig.t;
  vocab_size : nat;
  pad_token_id : option nat;
  num_hidden_layers : nat;
  rms_norm_eps : R;
  output_attentions : bool;
  output_hidden_states : bool;
  use_cache : bool
}.
End GLAModelConfig.

Module GLAModel.
Section WithEnv.
Context (E : Env).

Definition Config : Type := GLAModelConfig.t.

Record LigerQwen2DecoderLayer : Type := {
  layer_hidden_size : nat;
  self_attn : GLA.LigerQwen2GatedLinearAttention;
  mlp : Tensor -> result Tensor;
  input_layernorm : Tensor -> result Tensor;
  post_attention_layernorm : Tensor -> result Tensor
}.

(** The tuple a decoder layer returns: the hidden states, then what else
    the layer appends. *)
Definition LayerOutputs : Type := (Tensor * list (option Tensor))%type.

(** [layer_outputs[k]] *)
Definition layer_outputs_getitem (lo : LayerOutputs) (k : nat)
  : outcome (option Tensor) :=
  match k with
  | 0 => Return (Some (fst lo))
  | S k' => tuple_getitem (snd lo) k'
  end.

(** The arguments of a decoder layer's call after [self]:
    hidden_states, attention_mask, position_ids, past_key_value,
    output_attentions, use_cache, cache_position, position_embeddings.
    The cache is mutated in place; the call returns it as it leaves it. *)
Definition LayerCall : Type :=
  Tensor -> option Tensor -> Tensor -> option (FlaCache (RState E)) -> bool
  -> bool -> Tensor -> Tensor * Tensor
  -> result (LayerOutputs * option (FlaCache (RState E))).

(** What the decoder layer and the model inherit and import from
    transformers and fla. *)
Record Transformers : Type := {
  Qwen2DecoderLayer__init__ : Config -> nat -> result unit;
  Qwen2DecoderLayer_forward : LigerQwen2DecoderLayer -> LayerCall;
  Qwen2MLP : Config -> Tensor -> result Tensor;
  Qwen2RMSNorm : nat -> R -> Tensor -> result Tensor;
  Qwen2Model__init__ : Config -> result unit;
  nn_Embedding : nat -> nat -> option nat -> Tensor -> result Tensor;
  post_init : Config -> result unit;
  (* FlaCache.from_legacy_cache(None) *)
  from_legacy_cache_None : result (FlaCache (RState E));
  get_seq_length : FlaCache (RState E) -> result nat
}.

Context (T : Transformers).

(** [LigerQwen2DecoderLayer.__init__].  The warning about the sliding
    window has no effect on the layer. *)
Definition LigerQwen2DecoderLayer__init__ (config : Config)
    (layer_idx : nat) : result LigerQwen2DecoderLayer :=
  (_ <- Qwen2DecoderLayer__init__ T config layer_idx ;;
   let hidden_size :=
     LigerQwen2GLAConfig.hidden_size (GLAModelConfig.attention config) in
   self_attn <- GLA.__init__ E (GLAModelConfig.attention config)
                  (Some layer_idx) ;;
   Ok {| layer_hidden_size := hidden_size;
         self_attn := self_attn;
         mlp := Qwen2MLP T config;
         input_layernorm :=
           Qwen2RMSNorm T hidden_size (GLAModelConfig.rms_norm_eps config);
         post_attention_layernorm :=
           Qwen2RMSNorm T hidden_size (GLAModelConfig.rms_norm_eps config)
      |})%res.

Record LigerQwen2GLAModel : Type := {
  config : Config;
  padding_idx : option nat;
  model_vocab_size : nat;
  embed_tokens : Tensor -> result Tensor;
  layers : list LigerQwen2DecoderLayer;
  norm : Tensor -> result Tensor;
  rotary_emb : Tensor -> option Tensor -> result (Tensor * Tensor);
  gradient_checkpointing : bool;
  (* set by [gradient_checkpointing_enable]; takes the layer's call and
     its eight arguments *)
  _gradient_checkpointing_func :
    option (LayerCall -> Tensor -> option Tensor -> Tensor
            -> option (FlaCache (RState E)) -> bool -> bool -> Tensor
            -> Tensor * Tensor
            -> result (LayerOutputs * option (FlaCache (RState E))));
  training : bool
}.

(** [[LigerQwen2DecoderLayer(config, layer_idx)
      for layer_idx in range(config.num_hidden_layers)]] *)
Fixpoint build_layers (config : Config) (first count : nat)
  : result (list LigerQwen2DecoderLayer) :=
  match count with
  | 0 => Ok []
  | S count' =>
      (layer <- LigerQwen2DecoderLayer__init__ config first ;;
       rest <- build_layers config (S first) count' ;;
       Ok (layer :: rest))%res
  end.

(** [LigerQwen2GLAModel.__init__] *)
Definition __init__ (config : Config) : result LigerQwen2GLAModel :=
  (_ <- Qwen2Model__init__ T config ;;
   let padding_idx := GLAModelConfig.pad_token_id config in
   let hidden_size :=
     LigerQwen2GLAConfig.hidden_size (GLAModelConfig.attention config) in
   layers <- build_layers config 0
               (GLAModelConfig.num_hidden_layers config) ;;
   _ <- post_init T config ;;
   Ok {| config := config;
         padding_idx := padding_idx;
         model_vocab_size := GLAModelConfig.vocab_size config;
         embed_tokens :=
           nn_Embedding T (GLAModelConfig.vocab_size config) hidden_size
             padding_idx;
         layers := layers;
         norm := Qwen2RMSNorm T hidden_size
                   (GLAModelConfig.rms_norm_eps config);
         rotary_emb :=
           Qwen2RotaryEmbedding E (GLAModelConfig.attention config);
         gradient_checkpointing := false;
         _gradient_checkpointing_func := None;
         training := true |})%res.

(** What the caller may pass as [past_key_values]: nothing, a cache
    object, or anything else (a tuple or a list of tensors). *)
Inductive PastKeyValues : Type :=
  | NoCache
  | ACache (c : FlaCache (RState E))
  | Legacy.

Record BaseModelOutputWithPast : Type := {
  last_hidden_state : Tensor;
  past_key_values : option (FlaCache (RState E));
  hidden_states : option (list Tensor);
  attentions : option (list (option Tensor))
}.

(** The names of [forward] that the loop over the layers reads and
    assigns.  [all_softmax_hidden_states] is a local name because the loop
    assigns it; [None] in that field is the name before any assignment. *)
Record Locals : Type := {
  l_hidden_states : Tensor;
  l_past_key_values : option (FlaCache (RState E));
  l_all_hidden_states : option (list Tensor);
  l_all_self_attns : option (list (option Tensor));
  l_all_softmax_hidden_states : option (option (list Tensor))
}.

(** The cache object after a layer's call: a cache that was passed is
    the object the layer has mutated; [None] stays [None]. *)
Definition cache_after (before after : option (FlaCache (RState E)))
  : option (FlaCache (RState E)) :=
  match before, after with
  | Some _, Some c => Some c
  | _, _ => before
  end.

(** One iteration of [for decoder_layer in self.layers[...]]
    (source lines 324-357). *)
Definition layer_step (self : LigerQwen2GLAModel)
    (attention_mask : option Tensor) (position_ids : Tensor)
    (output_attentions output_hidden_states use_cache : bool)
    (cache_position : Tensor) (position_embeddings : Tensor * Tensor)
    (st : Locals) (decoder_layer : LigerQwen2DecoderLayer)
  : outcome Locals :=
  (st1 <-
     (if output_hidden_states then
        all_hidden_states <-
          tuple_iadd (l_all_hidden_states st) (l_hidden_states st) ;;
        soft <- read_local (l_all_softmax_hidden_states st) ;;
        soft' <-
          match soft with
          | Some _ => tuple_iadd soft (l_hidden_states st)
          | None => Return None
          end ;;
        Return {| l_hidden_states := l_hidden_states st;
                  l_past_key_values := l_past_key_values st;
                  l_all_hidden_states := all_hidden_states;
                  l_all_self_attns := l_all_self_attns st;
                  l_all_softmax_hidden_states := Some soft' |}
      else Return st) ;;
   r <-
     (if gradient_checkpointing self && training self then
        func <- getattr_self (_gradient_checkpointing_func self) ;;
        causal_mask <- read_unbound_global ;;
        r <- call (func (Qwen2DecoderLayer_forward T decoder_layer)
                     (l_hidden_states st1) causal_mask position_ids
                     (l_past_key_values st1) output_attentions use_cache
                     cache_position position_embeddings) ;;
        Return (l_hidden_states st1, r)
      else
        r <- call (Qwen2DecoderLayer_forward T decoder_layer
                     (l_hidden_states st1) attention_mask position_ids
                     (l_past_key_values st1) output_attentions use_cache
                     cache_position position_embeddings) ;;
        Return (fst (fst r), r)) ;;
   let hidden_states := fst r in
   let layer_outputs := fst (snd r) in
   let past := cache_after (l_past_key_values st1) (snd (snd r)) in
   all_self_attns <-
     (if output_attentions then
        a <- layer_outputs_getitem layer_outputs 1 ;;
        tuple_iadd (l_all_self_attns st1) a
      else Return (l_all_self_attns st1)) ;;
   Return {| l_hidden_states := hidden_states;
             l_past_key_values := past;
             l_all_hidden_states := l_all_hidden_states st1;
             l_all_self_attns := all_self_attns;
             l_all_softmax_hidden_states :=
               l_all_softmax_hidden_states st1 |})%out.

(** The loop over the layers. *)
Fixpoint run_layers (step : Locals -> LigerQwen2DecoderLayer -> outcome Locals)
    (st : Locals) (ls : list LigerQwen2DecoderLayer) : outcome Locals :=
  match ls with
  | [] => Return st
  | decoder_layer :: rest =>
      (st' <- step st decoder_layer ;; run_layers step st' rest)%out
  end.

Definition is_None {A} (x : option A) : bool :=
  match x with
  | None => true
  | Some _ => false
  end.

(** The names of [forward] bound before the loop. *)
Record Prepared : Type := {
  p_output_attentions : bool;
  p_output_hidden_states : bool;
  p_use_cache : bool;
  p_past_key_values : option (FlaCache (RState E));
  p_inputs_embeds : Tensor;
  p_cache_position : Tensor;
  p_position_ids : Tensor;
  p_position_embeddings : Tensor * Tensor
}.

(** [forward] up to the position embeddings (source lines 281-318). *)
Definition prepare (self : LigerQwen2GLAModel)
    (input_ids position_ids : option Tensor)
    (past_key_values : PastKeyValues) (inputs_embeds : option Tensor)
    (use_cache output_attentions output_hidden_states : option bool)
    (cache_position : option Tensor) : outcome Prepared :=
  let output_attentions :=
    default (GLAModelConfig.output_attentions (config self))
      output_attentions in
  let output_hidden_states :=
    default (GLAModelConfig.output_hidden_states (config self))
      output_hidden_states in
  let use_cache := default (GLAModelConfig.use_cache (config self)) use_cache in
  if xorb (is_None input_ids) (negb (is_None inputs_embeds)) then
    Raise (Raised ValueError)
  else
    let use_cache :=
      if gradient_checkpointing self && training self && use_cache
      then false else use_cache in
    (past_key_values <-
       match past_key_values with
       | NoCache => Return None
       | ACache c => Return (Some c)
       | Legacy => Raise (Raised ValueError)
       end ;;
     inputs_embeds <-
       match inputs_embeds with
       | Some e => Return e
       | None =>
           match input_ids with
           | Some ids => call (embed_tokens self ids)
           | None => Raise (Raised TypeError)
           end
       end ;;
     past_key_values <-
       (if use_cache && is_None past_key_values then
          c <- call (from_legacy_cache_None T) ;; Return (Some c)
        else Return past_key_values) ;;
     cache_position <-
       match cache_position with
       | Some cp => Return cp
       | None =>
           past_seen_tokens <-
             match past_key_values with
             | Some c => call (get_seq_length T c)
             | None => Return 0
             end ;;
           n <- call (shape_at inputs_embeds 1) ;;
           Return (torch_arange past_seen_tokens (past_seen_tokens + n))
       end ;;
     let position_ids :=
       match position_ids with
       | Some p => p
       | None => unsqueeze0 cache_position
       end in
     let hidden_states := inputs_embeds in
     position_embeddings <-
       call (rotary_emb self hidden_states (Some position_ids)) ;;
     Return {| p_output_attentions := output_attentions;
               p_output_hidden_states := output_hidden_states;
               p_use_cache := use_cache;
               p_past_key_values := past_key_values;
               p_inputs_embeds := inputs_embeds;
               p_cache_position := cache_position;
               p_position_ids := position_ids;
               p_position_embeddings := position_embeddings |})%out.

(** [LigerQwen2GLAModel.forward]: the preparation, the loop over the
    layers, the final norm and the output (source lines 267-370).
    [return_dict] is accepted and not read. *)
Definition forward (self : LigerQwen2GLAModel)
    (input_ids attention_mask position_ids : option Tensor)
    (past_key_values : PastKeyValues) (inputs_embeds : option Tensor)
    (use_cache output_attentions output_hidden_states return_dict
       : option bool)
    (cache_position : option Tensor) : outcome BaseModelOutputWithPast :=
  (p <- prepare self input_ids position_ids past_key_values inputs_embeds
          use_cache output_attentions output_hidden_states cache_position ;;
   let all_hidden_states :=
     if p_output_hidden_states p then Some [] else None in
   let all_self_attns := if p_output_attentions p then Some [] else None in
   st <- run_layers
           (layer_step self attention_mask (p_position_ids p)
              (p_output_attentions p) (p_output_hidden_states p)
              (p_use_cache p) (p_cache_position p)
              (p_position_embeddings p))
           {| l_hidden_states := p_inputs_embeds p;
              l_past_key_values := p_past_key_values p;
              l_all_hidden_states := all_hidden_states;
              l_all_self_attns := all_self_attns;
              l_all_softmax_hidden_states := None |}
           (take (GLAModelConfig.num_hidden_layers (config self))
              (layers self)) ;;
   hidden_states <- call (norm self (l_hidden_states st)) ;;
   all_hidden_states <-
     (if p_output_hidden_states p then
        tuple_iadd (l_all_hidden_states st) hidden_states
      else Return (l_all_hidden_states st)) ;;
   Return {| last_hidden_state := hidden_states;
             past_key_values :=
               if p_use_cache p then l_past_key_values st else None;
             hidden_states := all_hidden_states;
             attentions := l_all_self_attns st |})%out.

End WithEnv.
End GLAModel.

(** * The stack model of the Llama variant: construction and weight
      initialisation *)

(** [LigerGSAConfig] as the decoder layer, the model and [_init_weights]
    read it. *)
Module GSAModelConfig.
Record t : Type := {
  attention : LigerGSAConfig.t;
  vocab_size : nat;
  pad_token_id : option nat;
  num_hidden_layers : nat;
  rms_norm_eps : R;
  initializer_range : R
}.
End GSAModelConfig.

(** [t.zero_()] *)
Definition zero_ (t : Tensor) : Tensor :=
  tabulate (shape t) (dtype t) (fun _ => 0%R).

(** [t[p].zero_()]: the slice at index [p] of the first axis is zeroed in
    [t]. *)
Definition zero_row_ (t : Tensor) (p : nat) : result Tensor :=
  match shape t with
  | rows :: _ =>
      if p <? rows then
        Ok (tabulate (shape t) (dtype t)
              (fun idx => match idx with
                          | i :: _ => if i =? p then 0%R else elem t idx
                          | [] => 0%R
                          end))
      else Err IndexError
  | [] => Err IndexError
  end.

(** [t.normal_(mean, std)]: the tensor keeps its shape and dtype and is
    filled with the values drawn. *)
Definition normal_ (drawn : Index -> R) (t : Tensor) : Tensor :=
  tabulate (shape t) (dtype t) drawn.

Module GSAModel.
Section WithEnv.
Context (E : Env).

Definition Config : Type := GSAModelConfig.t.

Record LigerGSADecoderLayer : Type := {
  layer_hidden_size : nat;
  self_attn : GSA.LigerGatedSlotAttention;
  mlp : Tensor -> result Tensor;
  input_layernorm : Tensor -> result Tensor;
  post_attention_layernorm : Tensor -> result Tensor
}.

(** What the decoder layer and the model inherit and import from
    transformers and torch.  [draw mean std] is the sample that one call
    of [normal_] draws. *)
Record Transformers : Type := {
  LlamaDecoderLayer__init__ : Config -> nat -> result unit;
  LlamaMLP : Config -> Tensor -> result Tensor;
  LlamaRMSNorm : nat -> R -> Tensor -> result Tensor;
  LlamaModel__init__ : Config -> result unit;
  nn_Embedding : nat -> nat -> option nat -> Tensor -> result Tensor;
  post_init : Config -> result unit;
  draw : R -> R -> Index -> R
}.

Context (T : Transformers).

(** [LigerGSADecoderLayer.__init__] *)
Definition LigerGSADecoderLayer__init__ (config : Config) (layer_idx : nat)
  : result LigerGSADecoderLayer :=
  (_ <- LlamaDecoderLayer__init__ T config layer_idx ;;
   let hidden_size :=
     LigerGSAConfig.hidden_size (GSAModelConfig.attention config) in
   self_attn <- GSA.__init__ E (GSAModelConfig.attention config)
                  (Some layer_idx) ;;
   Ok {| layer_hidden_size := hidden_size;
         self_attn := self_attn;
         mlp := LlamaMLP T config;
         input_layernorm :=
           LlamaRMSNorm T hidden_size (GSAModelConfig.rms_norm_eps config);
         post_attention_layernorm :=
           LlamaRMSNorm T hidden_size (GSAModelConfig.rms_norm_eps config)
      |})%res.

(** The modules [_init_weights] tells apart: an [nn.Linear] with its
    weight and optional bias, an [nn.Embedding] with its weight and
    optional padding index, and any other module with its parameters. *)
Inductive NNModule : Type :=
  | LinearModule (weight : Tensor) (bias : option Tensor)
  | EmbeddingModule (weight : Tensor) (padding_idx : option nat)
  | OtherModule (parameters : list Tensor).

(** [LigerGSAPreTrainedModel._init_weights] *)
Definition _init_weights (config : Config) (module : NNModule)
  : result NNModule :=
  let std := GSAModelConfig.initializer_range config in
  match module with
  | LinearModule weight bias =>
      let weight := normal_ (draw T 0 std) weight in
      Ok (LinearModule weight (zero_ <$> bias))
  | EmbeddingModule weight padding_idx =>
      let weight := normal_ (draw T 0 std) weight in
      match padding_idx with
      | Some p =>
          (weight <- zero_row_ weight p ;;
           Ok (EmbeddingModule weight padding_idx))%res
      | None => Ok (EmbeddingModule weight padding_idx)
      end
  | OtherModule _ => Ok module
  end.

Record LigerGSAModel : Type := {
  config : Config;
  padding_idx : option nat;
  model_vocab_size : nat;
  embed_tokens : Tensor -> result Tensor;
  layers : list LigerGSADecoderLayer;
  norm : Tensor -> result Tensor;
  rotary_emb : Tensor -> option Tensor -> result (Tensor * Tensor);
  gradient_checkpointing : bool;
  training : bool
}.

(** [[LigerGSADecoderLayer(config, layer_idx)
      for layer_idx in range(config.num_hidden_layers)]] *)
Fixpoint build_layers (config : Config) (first count : nat)
  : result (list LigerGSADecoderLayer) :=
  match count with
  | 0 => Ok []
  | S count' =>
      (layer <- LigerGSADecoderLayer__init__ config first ;;
       rest <- build_layers config (S first) count' ;;
       Ok (layer :: rest))%res
  end.

(** [LigerGSAModel.__init__] *)
Definition __init__ (config : Config) : result LigerGSAModel :=
  (_ <- LlamaModel__init__ T config ;;
   let padding_idx := GSAModelConfig.pad_token_id config in
   let hidden_size :=
     LigerGSAConfig.hidden_size (GSAModelConfig.attention config) in
   layers <- build_layers config 0
               (GSAModelConfig.num_hidden_layers config) ;;
   _ <- post_init T config ;;
   Ok {| config := config;
         padding_idx := padding_idx;
         model_vocab_size := GSAModelConfig.vocab_size config;
         embed_tokens :=
           nn_Embedding T (GSAModelConfig.vocab_size config) hidden_size
             padding_idx;
         layers := layers;
         norm := LlamaRMSNorm T hidden_size
                   (GSAModelConfig.rms_norm_eps config);
         rotary_emb :=
           LlamaRotaryEmbedding E (GSAModelConfig.attention config);
         gradient_checkpointing := false;
         training := true |})%res.
End WithEnv.
End GSAModel.

(** ** A concrete set of collaborators

    Small stand-ins for the imported kernels, used to run the two [forward]
    methods on concrete tensors. *)

Module Demo.
(** [nn.AdaptiveAvgPool1d(out)] over the last axis: output [i] is the mean
    of the inputs in the window starting at [floor(i * len / out)] and
    ending before [ceil((i + 1) * len / out)]. *)
Definition adaptive_avg_pool1d (out : nat) (x : Tensor) : result Tensor :=
  match rev (shape x) with
  | len :: _ :: _ =>
      Ok (tabulate (set_last (shape x) out) (dtype x)
            (fun idx =>
               let i := List.last idx 0 in
               let lo := i * len / out in
               let hi := ((i + 1) * len + out - 1) / out in
               (sum_upto (hi - lo) (fun j => elem x (set_last idx (lo + j)))
                / INR (hi - lo))%R))
  | _ => Err RuntimeError
  end.

(** A bias-free linear layer all of whose weights are [1]. *)
Definition linear (in_features out_features : nat) (bias : bool) : Linear :=
  {| weight_dtype := BFloat16;
     linear_forward := fun x =>
       match rev (shape x) with
       | len :: _ =>
           if len =? in_features then
             Ok (tabulate (set_last (shape x) out_features) (dtype x)
                   (fun idx =>
                      sum_upto in_features
                        (fun j => elem x (set_last idx j))))
           else Err RuntimeError
       | [] => Err RuntimeError
       end |}.

(** Recurrent kernels that return the values as output and the keys as
    state; a window kernel that returns the values. *)
Definition env : Env :=
  {| RState := Tensor;
     nn_Linear := linear;
     nn_AdaptiveAvgPool1d := adaptive_avg_pool1d;
     LlamaRotaryEmbedding := fun _ x _ => Ok (x, x);
     Qwen2RotaryEmbedding := fun _ x _ => Ok (x, x);
     apply_rotary_pos_emb := fun q k _ _ => Ok (q, k);
     chunk_gsa := fun q k v s g _ _ => Ok (v, k);
     fused_recurrent_gsa := fun q k v s g _ _ => Ok (v, k);
     fused_chunk_gla := fun q k v g _ _ => Ok (v, k);
     fused_recurrent_gla := fun q k v g _ _ => Ok (v, k);
     _flash_attention_forward := fun q k v _ _ _ _ _ _ => Ok v;
     is_autocast_enabled := false;
     get_autocast_gpu_dtype := BFloat16;
     is_flash_attn_greater_or_equal_2_10 := true |}.

Definition empty_cache : FlaCache Tensor :=
  {| states := ∅; seen_tokens := 0 |}.

(** hidden_size 4, two query heads, one key/value head, two slots. *)
Definition gsa_config : LigerGSAConfig.t :=
  {| LigerGSAConfig.hidden_size := 4;
     LigerGSAConfig.num_attention_heads := 2;
     LigerGSAConfig.num_key_value_heads := 1;
     LigerGSAConfig.head_dim := None;
     LigerGSAConfig.pool_size := 2;
     LigerGSAConfig.attention_dropout := 0;
     LigerGSAConfig._pre_quantization_dtype := None |}.

Definition gla_config : LigerQwen2GLAConfig.t :=
  {| LigerQwen2GLAConfig.hidden_size := 4;
     LigerQwen2GLAConfig.num_attention_heads := 2;
     LigerQwen2GLAConfig.num_key_value_heads := 1;
     LigerQwen2GLAConfig.max_position_embeddings := 128;
     LigerQwen2GLAConfig.rope_theta := 10000;
     LigerQwen2GLAConfig.attention_dropout := 0;
     LigerQwen2GLAConfig._pre_quantization_dtype := None |}.

(** hidden_size 64, four query heads of width 16, three key/value heads:
    the number of query heads is not a multiple of the number of key/value
    heads. *)
Definition gsa_config_uneven_groups : LigerGSAConfig.t :=
  {| LigerGSAConfig.hidden_size := 64;
     LigerGSAConfig.num_attention_heads := 4;
     LigerGSAConfig.num_key_value_heads := 3;
     LigerGSAConfig.head_dim := Some 16;
     LigerGSAConfig.pool_size := 2;
     LigerGSAConfig.attention_dropout := 0;
     LigerGSAConfig._pre_quantization_dtype := None |}.

Definition gla_config_uneven_groups : LigerQwen2GLAConfig.t :=
  {| LigerQwen2GLAConfig.hidden_size := 64;
     LigerQwen2GLAConfig.num_attention_heads := 4;
     LigerQwen2GLAConfig.num_key_value_heads := 3;
     LigerQwen2GLAConfig.max_position_embeddings := 128;
     LigerQwen2GLAConfig.rope_theta := 10000;
     LigerQwen2GLAConfig.attention_dropout := 0;
     LigerQwen2GLAConfig._pre_quantization_dtype := None |}.

(** A configured head width of 16 and no query heads. *)
Definition gsa_config_no_heads : LigerGSAConfig.t :=
  {| LigerGSAConfig.hidden_size := 64;
     LigerGSAConfig.num_attention_heads := 0;
     LigerGSAConfig.num_key_value_heads := 2;
     LigerGSAConfig.head_dim := Some 16;
     LigerGSAConfig.pool_size := 2;
     LigerGSAConfig.attention_dropout := 0;
     LigerGSAConfig._pre_quantization_dtype := None |}.

(** hidden_size 10 over four query heads and no key/value heads. *)
Definition gla_config_no_kv_heads : LigerQwen2GLAConfig.t :=
  {| LigerQwen2GLAConfig.hidden_size := 10;
     LigerQwen2GLAConfig.num_attention_heads := 4;
     LigerQwen2GLAConfig.num_key_value_heads := 0;
     LigerQwen2GLAConfig.max_position_embeddings := 128;
     LigerQwen2GLAConfig.rope_theta := 10000;
     LigerQwen2GLAConfig.attention_dropout := 0;
     LigerQwen2GLAConfig._pre_quantization_dtype := None |}.

(** hidden_size 10 with four query heads: 4 * (10 // 4) = 8. *)
Definition gla_config_ragged_heads : LigerQwen2GLAConfig.t :=
  {| LigerQwen2GLAConfig.hidden_size := 10;
     LigerQwen2GLAConfig.num_attention_heads := 4;
     LigerQwen2GLAConfig.num_key_value_heads := 2;
     LigerQwen2GLAConfig.max_position_embeddings := 128;
     LigerQwen2GLAConfig.rope_theta := 10000;
     LigerQwen2GLAConfig.attention_dropout := 0;
     LigerQwen2GLAConfig._pre_quantization_dtype := None |}.

(** hidden_size 10 with four query heads of configured width 16:
    4 * 16 = 64. *)
Definition gsa_config_ragged_heads : LigerGSAConfig.t :=
  {| LigerGSAConfig.hidden_size := 10;
     LigerGSAConfig.num_attention_heads := 4;
     LigerGSAConfig.num_key_value_heads := 2;
     LigerGSAConfig.head_dim := Some 16;
     LigerGSAConfig.pool_size := 2;
     LigerGSAConfig.attention_dropout := 0;
     LigerGSAConfig._pre_quantization_dtype := None |}.

(** The same without a configured head width: 4 * (10 // 4) = 8. *)
Definition gsa_config_ragged_default : LigerGSAConfig.t :=
  {| LigerGSAConfig.hidden_size := 10;
     LigerGSAConfig.num_attention_heads := 4;
     LigerGSAConfig.num_key_value_heads := 2;
     LigerGSAConfig.head_dim := None;
     LigerGSAConfig.pool_size := 2;
     LigerGSAConfig.attention_dropout := 0;
     LigerGSAConfig._pre_quantization_dtype := None |}.

(** A batch of one sequence of [n] tokens, every activation equal to [c]. *)
Definition hidden (n : nat) (c : R) : Tensor :=
  tabulate [1; n; 4] BFloat16 (fun _ => c).

(** A query projection of a batch of one sequence of three tokens, and a
    mask that marks the first position as padding. *)
Definition queries : Tensor := tabulate [1; 3; 4] BFloat16 (fun _ => 1%R).

Definition left_padded_mask : Tensor :=
  tabulate [1; 3] Int64
    (fun idx => match idx with
                | [_; 0] => 0%R
                | _ => 1%R
                end).

(** A mask of the same three positions without padding. *)
Definition ones_mask : Tensor := tabulate [1; 3] Int64 (fun _ => 1%R).

(** Grouped-query attention: hidden_size 8, four query heads over two
    key/value heads, two slots; the layer that [__init__] builds from it
    as layer 0, and projections of a batch of one sequence of three
    tokens for it. *)
Definition gsa_config_grouped : LigerGSAConfig.t :=
  {| LigerGSAConfig.hidden_size := 8;
     LigerGSAConfig.num_attention_heads := 4;
     LigerGSAConfig.num_key_value_heads := 2;
     LigerGSAConfig.head_dim := None;
     LigerGSAConfig.pool_size := 2;
     LigerGSAConfig.attention_dropout := 0;
     LigerGSAConfig._pre_quantization_dtype := None |}.

Definition gsa_layer_grouped : GSA.LigerGatedSlotAttention :=
  {| GSA.config := gsa_config_grouped;
     GSA.layer_idx := Some 0;
     GSA.attention_dropout := 0;
     GSA.hidden_size := 8;
     GSA.num_heads := 4;
     GSA.head_dim := 2;
     GSA.num_key_value_heads := 2;
     GSA.num_key_value_groups := 2;
     GSA.q_proj := linear 8 8 false;
     GSA.k_proj := linear 8 4 false;
     GSA.v_proj := linear 8 4 false;
     GSA.o_proj := linear 8 8 false;
     GSA.rotary_emb := fun x _ => Ok (x, x);
     GSA.pool_size := 2;
     GSA.pool_g := adaptive_avg_pool1d 4;
     GSA.training := true |}.

Definition hidden_grouped (n : nat) (c : R) : Tensor :=
  tabulate [1; n; 8] BFloat16 (fun _ => c).

Definition queries_grouped : Tensor :=
  tabulate [1; 3; 8] BFloat16 (fun _ => 1%R).
Definition keys_grouped : Tensor :=
  tabulate [1; 3; 4] BFloat16 (fun _ => 1%R).
Definition pooled_keys_grouped : Tensor :=
  tabulate [1; 3; 4] BFloat16 (fun _ => 1%R).
Definition values_grouped : Tensor :=
  tabulate [1; 3; 4] BFloat16 (fun _ => 1%R).
Definition values_grouped_altered : Tensor :=
  tabulate [1; 3; 4] BFloat16
    (fun idx => match idx with
                | [_; 0; _] => 7%R
                | _ => 1%R
                end).

(** hidden_size 3 in a single head, so that head_dim is 3, and the layer
    that [__init__] builds from it as layer 0. *)
Definition gla_config_three : LigerQwen2GLAConfig.t :=
  {| LigerQwen2GLAConfig.hidden_size := 3;
     LigerQwen2GLAConfig.num_attention_heads := 1;
     LigerQwen2GLAConfig.num_key_value_heads := 1;
     LigerQwen2GLAConfig.max_position_embeddings := 128;
     LigerQwen2GLAConfig.rope_theta := 10000;
     LigerQwen2GLAConfig.attention_dropout := 0;
     LigerQwen2GLAConfig._pre_quantization_dtype := None |}.

Definition gla_layer_three : GLA.LigerQwen2GatedLinearAttention :=
  {| GLA.config := gla_config_three;
     GLA.layer_idx := Some 0;
     GLA.hidden_size := 3;
     GLA.num_heads := 1;
     GLA.head_dim := 3;
     GLA.num_key_value_heads := 1;
     GLA.num_key_value_groups := 1;
     GLA.max_position_embeddings := 128;
     GLA.rope_theta := 10000;
     GLA.is_causal := true;
     GLA.attention_dropout := 0;
     GLA.q_proj := linear 3 3 true;
     GLA.k_proj := linear 3 3 true;
     GLA.v_proj := linear 3 3 true;
     GLA.o_proj := linear 3 3 false;
     GLA.rotary_emb := fun x _ => Ok (x, x);
     GLA.pool_g := adaptive_avg_pool1d 3;
     GLA.training := true |}.

(** A batch of one sequence of [n] tokens with three features, every
    activation equal to [c]. *)
Definition hidden_three (n : nat) (c : R) : Tensor :=
  tabulate [1; n; 3] BFloat16 (fun _ => c).

(** Hidden states that arrive in float32. *)
Definition hidden_float32 (n : nat) (c : R) : Tensor :=
  tabulate [1; n; 4] Float32 (fun _ => c).

(** The layers built from the two configurations, as layer 0. *)
Definition gsa_layer : GSA.LigerGatedSlotAttention :=
  {| GSA.config := gsa_config;
     GSA.layer_idx := Some 0;
     GSA.attention_dropout := 0;
     GSA.hidden_size := 4;
     GSA.num_heads := 2;
     GSA.head_dim := 2;
     GSA.num_key_value_heads := 1;
     GSA.num_key_value_groups := 2;
     GSA.q_proj := linear 4 4 false;
     GSA.k_proj := linear 4 2 false;
     GSA.v_proj := linear 4 2 false;
     GSA.o_proj := linear 4 4 false;
     GSA.rotary_emb := fun x _ => Ok (x, x);
     GSA.pool_size := 2;
     GSA.pool_g := adaptive_avg_pool1d 2;
     GSA.training := true |}.

Definition gla_layer : GLA.LigerQwen2GatedLinearAttention :=
  {| GLA.config := gla_config;
     GLA.layer_idx := Some 0;
     GLA.hidden_size := 4;
     GLA.num_heads := 2;
     GLA.head_dim := 2;
     GLA.num_key_value_heads := 1;
     GLA.num_key_value_groups := 2;
     GLA.max_position_embeddings := 128;
     GLA.rope_theta := 10000;
     GLA.is_causal := true;
     GLA.attention_dropout := 0;
     GLA.q_proj := linear 4 4 true;
     GLA.k_proj := linear 4 2 true;
     GLA.v_proj := linear 4 2 true;
     GLA.o_proj := linear 4 4 false;
     GLA.rotary_emb := fun x _ => Ok (x, x);
     GLA.pool_g := adaptive_avg_pool1d 2;
     GLA.training := true |}.
End Demo.

(** ** A concrete stack

    Stand-ins for what the two stack models inherit: a decoder layer that
    adds the output of its attention to its input, an embedding that
    spreads each token id over four features, a norm that changes nothing
    and a cache whose sequence length is its token counter. *)

Module DemoModel.
Definition decoder_layer_forward
    (self : GLAModel.LigerQwen2DecoderLayer)
  : GLAModel.LayerCall Demo.env :=
  fun hidden_states attention_mask position_ids past_key_value
      output_attentions use_cache cache_position position_embeddings =>
    (tr <- GLA.forward Demo.env (GLAModel.self_attn self)
             hidden_states attention_mask (Some position_ids) past_key_value
             (Some position_embeddings) ;;
     h <- torch_add hidden_states (GLA.output Demo.env tr) ;;
     Ok ((h, if output_attentions then [None] else []),
         GLA.cache_out Demo.env tr))%res.

Definition embedding (num_embeddings embedding_dim : nat)
    (padding_idx : option nat) (ids : Tensor) : result Tensor :=
  match shape ids with
  | [b; n] =>
      Ok (tabulate [b; n; embedding_dim] BFloat16
            (fun idx => match idx with
                        | [ib; i; _] => elem ids [ib; i]
                        | _ => 0%R
                        end))
  | _ => Err RuntimeError
  end.

Definition transformers : GLAModel.Transformers Demo.env :=
  {| GLAModel.Qwen2DecoderLayer__init__ := fun _ _ => Ok tt;
     GLAModel.Qwen2DecoderLayer_forward := decoder_layer_forward;
     GLAModel.Qwen2MLP := fun _ x => Ok x;
     GLAModel.Qwen2RMSNorm := fun _ _ x => Ok x;
     GLAModel.Qwen2Model__init__ := fun _ => Ok tt;
     GLAModel.nn_Embedding := embedding;
     GLAModel.post_init := fun _ => Ok tt;
     GLAModel.from_legacy_cache_None := Ok Demo.empty_cache;
     GLAModel.get_seq_length := fun c => Ok (seen_tokens c) |}.

(** Two layers over the attention configuration of [Demo]. *)
Definition gla_model_config : GLAModelConfig.t :=
  {| GLAModelConfig.attention := Demo.gla_config;
     GLAModelConfig.vocab_size := 8;
     GLAModelConfig.pad_token_id := Some 0;
     GLAModelConfig.num_hidden_layers := 2;
     GLAModelConfig.rms_norm_eps := 0;
     GLAModelConfig.output_attentions := false;
     GLAModelConfig.output_hidden_states := false;
     GLAModelConfig.use_cache := true |}.

(** The attention of layer [i], the layer around it and the model that
    [__init__] builds from [gla_model_config]. *)
Definition gla_attention (i : nat) : GLA.LigerQwen2GatedLinearAttention :=
  {| GLA.config := Demo.gla_config;
     GLA.layer_idx := Some i;
     GLA.hidden_size := 4;
     GLA.num_heads := 2;
     GLA.head_dim := 2;
     GLA.num_key_value_heads := 1;
     GLA.num_key_value_groups := 2;
     GLA.max_position_embeddings := 128;
     GLA.rope_theta := 10000;
     GLA.is_causal := true;
     GLA.attention_dropout := 0;
     GLA.q_proj := Demo.linear 4 4 true;
     GLA.k_proj := Demo.linear 4 2 true;
     GLA.v_proj := Demo.linear 4 2 true;
     GLA.o_proj := Demo.linear 4 4 false;
     GLA.rotary_emb := fun x _ => Ok (x, x);
     GLA.pool_g := Demo.adaptive_avg_pool1d 2;
     GLA.training := true |}.

Definition gla_decoder_layer (i : nat) : GLAModel.LigerQwen2DecoderLayer :=
  {| GLAModel.layer_hidden_size := 4;
     GLAModel.self_attn := gla_attention i;
     GLAModel.mlp := fun x => Ok x;
     GLAModel.input_layernorm := fun x => Ok x;
     GLAModel.post_attention_layernorm := fun x => Ok x |}.

(** A gradient-checkpointing function that calls the layer. *)
Definition checkpoint (f : GLAModel.LayerCall Demo.env)
  : GLAModel.LayerCall Demo.env := f.

Definition gla_model_with (gradient_checkpointing : bool)
  : GLAModel.LigerQwen2GLAModel Demo.env :=
  {| GLAModel.config := gla_model_config;
     GLAModel.padding_idx := Some 0;
     GLAModel.model_vocab_size := 8;
     GLAModel.embed_tokens := embedding 8 4 (Some 0);
     GLAModel.layers := [gla_decoder_layer 0; gla_decoder_layer 1];
     GLAModel.norm := fun x => Ok x;
     GLAModel.rotary_emb := fun x _ => Ok (x, x);
     GLAModel.gradient_checkpointing := gradient_checkpointing;
     GLAModel._gradient_checkpointing_func :=
       if gradient_checkpointing then Some checkpoint else None;
     GLAModel.training := true |}.

Definition gla_model : GLAModel.LigerQwen2GLAModel Demo.env :=
  gla_model_with false.

(** A batch of one sequence of three token ids. *)
Definition input_ids : Tensor :=
  tabulate [1; 3] Int64
    (fun idx => match idx with
                | [_; i] => INR (S i)
                | _ => 0%R
                end).

Definition gsa_transformers : GSAModel.Transformers :=
  {| GSAModel.LlamaDecoderLayer__init__ := fun _ _ => Ok tt;
     GSAModel.LlamaMLP := fun _ x => Ok x;
     GSAModel.LlamaRMSNorm := fun _ _ x => Ok x;
     GSAModel.LlamaModel__init__ := fun _ => Ok tt;
     GSAModel.nn_Embedding := embedding;
     GSAModel.post_init := fun _ => Ok tt;
     GSAModel.draw := fun mean std idx => (mean + std * INR (length idx))%R |}.

Definition gsa_model_config : GSAModelConfig.t :=
  {| GSAModelConfig.attention := Demo.gsa_config;
     GSAModelConfig.vocab_size := 8;
     GSAModelConfig.pad_token_id := Some 0;
     GSAModelConfig.num_hidden_layers := 2;
     GSAModelConfig.rms_norm_eps := 0;
     GSAModelConfig.initializer_range := 1 |}.

(** An embedding table of three rows of width two, all ones, whose row 1
    is the padding row. *)
Definition embedding_table : Tensor :=
  tabulate [3; 2] Float32 (fun _ => 1%R).
End DemoModel.

(** * Properties *)

(** ** Real-number facts about the gate nonlinearity *)

Lemma logsigmoid_neg (x : R) : (logsigmoid x < 0)%R.
Proof.
  unfold logsigmoid.
  pose proof (exp_pos (- x)) as Hpos.
  rewrite <- ln_1.
  apply ln_increasing.
  - apply Rinv_0_lt_compat; lra.
  - rewrite <- Rinv_1 at 2.
    apply Rinv_lt_contravar; lra.
Qed.

Lemma exp_lt_1 (x : R) : (x < 0)%R -> (exp x < 1)%R.
Proof.
  intros Hx. rewrite <- exp_0. now apply exp_increasing.
Qed.

Lemma gate_value_neg (x : R) : (logsigmoid x / gate_logit_normalizer < 0)%R.
Proof.
  pose proof (logsigmoid_neg x) as H.
  unfold gate_logit_normalizer. lra.
Qed.

(** ** Elements of tabulated tensors *)

Lemma elem_tabulate_in sh dt f idx :
  in_bounds sh idx = true -> elem (tabulate sh dt f) idx = f idx.
Proof. intros H. unfold tabulate; simpl. now rewrite H. Qed.

Lemma elem_tabulate_out sh dt f idx :
  in_bounds sh idx = false -> elem (tabulate sh dt f) idx = 0%R.
Proof. intros H. unfold tabulate; simpl. now rewrite H. Qed.

Lemma elem_tabulate_cases sh dt f idx :
  (in_bounds sh idx = true /\ elem (tabulate sh dt f) idx = f idx)
  \/ (in_bounds sh idx = false /\ elem (tabulate sh dt f) idx = 0%R).
Proof.
  destruct (in_bounds sh idx) eqn:Hb; [left | right]; split; trivial.
  - now apply elem_tabulate_in.
  - now apply elem_tabulate_out.
Qed.

Lemma tabulate_ext sh dt f1 f2 :
  (forall idx, in_bounds sh idx = true -> f1 idx = f2 idx) ->
  tabulate sh dt f1 = tabulate sh dt f2.
Proof.
  intros H. unfold tabulate. f_equal.
  apply functional_extensionality; intros idx.
  destruct (in_bounds sh idx) eqn:Hb; auto.
Qed.

Lemma in_bounds_length sh idx :
  in_bounds sh idx = true -> length idx = length sh.
Proof.
  revert idx; induction sh as [|d sh IH]; intros [|i idx]; simpl;
    try discriminate; auto.
  intros H. apply andb_prop in H as [_ H]. f_equal. now apply IH.
Qed.

(** ** Rounding *)

Section Rounding.
Local Open Scope R_scope.

Lemma Zfloor_spec x : IZR (Zfloor x) <= x < IZR (Zfloor x) + 1.
Proof.
  unfold Zfloor. rewrite minus_IZR.
  destruct (archimed x) as [H1 H2]. lra.
Qed.

Lemma Zfloor_unique x n : IZR n <= x < IZR n + 1 -> Zfloor x = n.
Proof.
  intros [H1 H2]. destruct (Zfloor_spec x) as [H3 H4].
  assert (Hlt1 : IZR (Zfloor x) < IZR (n + 1)) by (rewrite plus_IZR; lra).
  assert (Hlt2 : IZR n < IZR (Zfloor x + 1)) by (rewrite plus_IZR; lra).
  apply lt_IZR in Hlt1, Hlt2. lia.
Qed.

Lemma Znearest_even_unique x n :
  IZR n - 1 / 2 < x < IZR n + 1 / 2 -> Znearest_even x = n.
Proof.
  intros [H1 H2]. unfold Znearest_even.
  destruct (Zfloor_spec x) as [H3 H4].
  destruct (Rlt_dec (x - IZR (Zfloor x)) (1 / 2)) as [Hlt | Hge].
  - assert (A : IZR (Zfloor x) < IZR (n + 1)) by (rewrite plus_IZR; lra).
    assert (B : IZR (n - 1) < IZR (Zfloor x)) by (rewrite minus_IZR; lra).
    apply lt_IZR in A, B. lia.
  - destruct (Rlt_dec (1 / 2) (x - IZR (Zfloor x))) as [Hgt | Hle].
    + assert (A : IZR (Zfloor x) < IZR n) by lra.
      assert (B : IZR (n - 2) < IZR (Zfloor x)) by (rewrite minus_IZR; lra).
      apply lt_IZR in A, B. lia.
    + exfalso.
      assert (Heq : x = IZR (Zfloor x) + 1 / 2) by lra.
      assert (A : IZR (Zfloor x) < IZR n) by lra.
      assert (B : IZR (n - 1) < IZR (Zfloor x)) by (rewrite minus_IZR; lra).
      apply lt_IZR in A, B. lia.
Qed.

Lemma Znearest_even_IZR n : Znearest_even (IZR n) = n.
Proof. apply Znearest_even_unique. lra. Qed.

Lemma Znearest_even_cases x :
  Znearest_even x = Zfloor x \/ Znearest_even x = (Zfloor x + 1)%Z.
Proof.
  unfold Znearest_even.
  destruct (Rlt_dec _ _); [now left |].
  destruct (Rlt_dec _ _); [now right |].
  destruct (Z.even _); auto.
Qed.

Lemma Znearest_even_nonneg x : 0 <= x -> (0 <= Znearest_even x)%Z.
Proof.
  intros Hx. destruct (Zfloor_spec x) as [H1 H2].
  assert (A : IZR (-1) < IZR (Zfloor x)) by lra.
  apply lt_IZR in A.
  destruct (Znearest_even_cases x) as [-> | ->]; lia.
Qed.

Lemma Znearest_even_le_int x n : x <= IZR n -> (Znearest_even x <= n)%Z.
Proof.
  intros Hx. destruct (Zfloor_spec x) as [H1 H2].
  destruct (Req_dec_T x (IZR n)) as [-> | Hne].
  - rewrite Znearest_even_IZR. lia.
  - assert (A : IZR (Zfloor x) < IZR n) by lra.
    apply lt_IZR in A.
    destruct (Znearest_even_cases x) as [-> | ->]; lia.
Qed.

Lemma powerRZ_2_pos e : 0 < powerRZ 2 e.
Proof. apply powerRZ_lt. lra. Qed.

Lemma powerRZ_2_opp e : powerRZ 2 e * powerRZ 2 (- e) = 1.
Proof.
  rewrite <- powerRZ_add by lra. now replace (e + - e)%Z with 0%Z by lia.
Qed.

Lemma powerRZ_2_IZR e : (0 <= e)%Z -> powerRZ 2 e = IZR (2 ^ e).
Proof.
  intros He. rewrite <- (Z2Nat.id e He) at 1.
  rewrite <- pow_powerRZ. rewrite <- (Z2Nat.id e He) at 2.
  generalize (Z.to_nat e). clear. intros n.
  induction n as [| n IH].
  - reflexivity.
  - rewrite Nat2Z.inj_succ, Z.pow_succ_r by lia.
    rewrite mult_IZR, <- IH. simpl. lra.
Qed.

Lemma powerRZ_2_le a b : (a <= b)%Z -> powerRZ 2 a <= powerRZ 2 b.
Proof.
  intros H. replace b with (a + (b - a))%Z by lia.
  rewrite powerRZ_add by lra.
  rewrite (powerRZ_2_IZR (b - a)) by lia.
  assert (1 <= IZR (2 ^ (b - a))).
  { apply IZR_le. pose proof (Z.pow_pos_nonneg 2 (b - a)). lia. }
  pose proof (powerRZ_2_pos a). nra.
Qed.

Lemma ln_2_pos : 0 < ln 2.
Proof. rewrite <- ln_1. apply ln_increasing; lra. Qed.

Lemma ln_powerRZ_2 e : ln (powerRZ 2 e) = IZR e * ln 2.
Proof.
  rewrite powerRZ_Rpower by lra. unfold Rpower. now rewrite ln_exp.
Qed.

Lemma ilog2_unique x e :
  powerRZ 2 e <= Rabs x < powerRZ 2 (e + 1) -> ilog2 x = e.
Proof.
  intros [H1 H2]. unfold ilog2. apply Zfloor_unique.
  pose proof ln_2_pos as Hl. pose proof (powerRZ_2_pos e) as Hp.
  assert (Hx : 0 < Rabs x) by lra.
  split.
  - apply Rmult_le_reg_r with (ln 2); [exact Hl |].
    unfold Rdiv. rewrite Rmult_assoc, Rinv_l, Rmult_1_r by lra.
    rewrite <- ln_powerRZ_2.
    destruct H1 as [H1 | H1]; [left; now apply ln_increasing | right; now rewrite H1].
  - apply Rmult_lt_reg_r with (ln 2); [exact Hl |].
    unfold Rdiv. rewrite Rmult_assoc, Rinv_l, Rmult_1_r by lra.
    rewrite <- plus_IZR, <- ln_powerRZ_2.
    now apply ln_increasing.
Qed.

Lemma ilog2_le_0 x : 0 < x <= 1 -> (ilog2 x <= 0)%Z.
Proof.
  intros [H0 H1]. unfold ilog2.
  destruct (Zfloor_spec (ln (Rabs x) / ln 2)) as [A _].
  rewrite Rabs_pos_eq in * by lra.
  assert (Hl : ln x <= 0).
  { rewrite <- ln_1. destruct H1 as [H1 | ->]; [left; now apply ln_increasing | right; reflexivity]. }
  pose proof ln_2_pos as Hl2.
  assert (Hq : ln x / ln 2 <= 0).
  { unfold Rdiv. pose proof (Rinv_0_lt_compat _ Hl2). nra. }
  apply le_IZR. lra.
Qed.

Lemma round_float_0 f : round_float f 0 = 0.
Proof. unfold round_float. destruct (Req_dec_T 0 0); [reflexivity | contradiction]. Qed.

Lemma round_float_unit f x :
  (1 <= prec f)%Z -> (emin f <= 0)%Z -> 0 <= x <= 1 -> 0 <= round_float f x <= 1.
Proof.
  intros Hp He [H0 H1]. unfold round_float.
  destruct (Req_dec_T x 0) as [-> | Hne]; [lra |].
  assert (Hx : 0 < x <= 1) by lra.
  pose proof (ilog2_le_0 x Hx) as Hl.
  set (e := Z.max (ilog2 x - prec f + 1) (emin f)).
  assert (Hle : (e <= 0)%Z) by (unfold e; lia).
  pose proof (powerRZ_2_pos e) as Hpe.
  pose proof (powerRZ_2_pos (- e)) as Hpn.
  split.
  - apply Rmult_le_pos; [| lra].
    apply IZR_le, Znearest_even_nonneg. nra.
  - assert (Hn : (Znearest_even (x * powerRZ 2 (- e)) <= 2 ^ (- e))%Z).
    { apply Znearest_even_le_int. rewrite <- powerRZ_2_IZR by lia. nra. }
    apply IZR_le in Hn. rewrite <- powerRZ_2_IZR in Hn by lia.
    pose proof (powerRZ_2_opp e). nra.
Qed.

Lemma round_float_underflow f x :
  0 <= x < powerRZ 2 (emin f - 1) -> round_float f x = 0.
Proof.
  intros [H0 H1]. unfold round_float.
  destruct (Req_dec_T x 0) as [-> | Hne]; [reflexivity |].
  set (e := Z.max (ilog2 x - prec f + 1) (emin f)).
  assert (He : (emin f <= e)%Z) by (unfold e; lia).
  rewrite (Znearest_even_unique _ 0); [lra |].
  pose proof (powerRZ_2_pos (- e)) as Hpn.
  assert (Hb : x * powerRZ 2 (- e) < 1 / 2).
  { assert (A : powerRZ 2 (- e) <= powerRZ 2 (- emin f))
      by (apply powerRZ_2_le; lia).
    assert (B : powerRZ 2 (emin f - 1) * powerRZ 2 (- emin f) = 1 / 2).
    { rewrite <- powerRZ_add by lra.
      replace (emin f - 1 + - emin f)%Z with (-1)%Z by lia. simpl. lra. }
    pose proof (powerRZ_2_pos (- emin f)). nra. }
  nra.
Qed.

Lemma round_float_eval f x e n :
  powerRZ 2 e <= Rabs x < powerRZ 2 (e + 1) ->
  IZR n - 1 / 2
  < x * powerRZ 2 (- Z.max (e - prec f + 1) (emin f))
  < IZR n + 1 / 2 ->
  round_float f x = IZR n * powerRZ 2 (Z.max (e - prec f + 1) (emin f)).
Proof.
  intros Hx Hn. unfold round_float.
  destruct (Req_dec_T x 0) as [-> | Hne].
  - rewrite Rabs_R0 in Hx. pose proof (powerRZ_2_pos e). lra.
  - rewrite (ilog2_unique x e Hx).
    now rewrite (Znearest_even_unique _ n Hn).
Qed.

Lemma round_float_1 f :
  (1 <= prec f)%Z -> (emin f <= 0)%Z -> round_float f 1 = 1.
Proof.
  intros Hp He.
  set (c := Z.max (0 - prec f + 1) (emin f)).
  assert (Hc : (c <= 0)%Z) by (unfold c; lia).
  rewrite (round_float_eval f 1 0 (2 ^ (- c))).
  - fold c. rewrite <- powerRZ_2_IZR by lia.
    rewrite Rmult_comm. apply powerRZ_2_opp.
  - rewrite Rabs_R1. simpl. lra.
  - fold c. rewrite <- powerRZ_2_IZR by lia. lra.
Qed.

Lemma ln_2_lt_1 : ln 2 < 1.
Proof.
  assert (H : ln 2 < ln (exp 1)).
  { apply ln_increasing; [lra |]. pose proof (exp_ineq1 1). lra. }
  now rewrite ln_exp in H.
Qed.

(** [exp x] falls below [2^e] once [x] is at most [e] (for negative
    [e]). *)
Lemma exp_lt_powerRZ_2 x e : (e < 0)%Z -> x <= IZR e -> exp x < powerRZ 2 e.
Proof.
  intros He Hx.
  rewrite powerRZ_Rpower by lra. unfold Rpower.
  apply exp_increasing.
  pose proof ln_2_lt_1 as Hl. pose proof ln_2_pos as Hp.
  assert (IZR e < 0) by now apply IZR_lt.
  nra.
Qed.

Lemma format_of_float dt :
  is_floating dt = true ->
  exists f, format_of dt = Some f /\ (1 <= prec f)%Z /\ (emin f <= 0)%Z.
Proof.
  destruct dt; try discriminate; intros _; eexists;
    (split; [reflexivity | simpl; lia]).
Qed.

Lemma is_floating_float_scalar_dtype dt :
  is_floating (float_scalar_dtype dt) = true.
Proof. now destruct dt. Qed.

Lemma round_to_0 dt : round_to dt 0 = 0.
Proof.
  unfold round_to. destruct (format_of dt); [apply round_float_0 | reflexivity].
Qed.

Lemma round_to_1 dt : round_to dt 1 = 1.
Proof.
  destruct dt; try reflexivity; unfold round_to; simpl;
    apply round_float_1; simpl; lia.
Qed.

Lemma round_to_unit dt x : 0 <= x <= 1 -> 0 <= round_to dt x <= 1.
Proof.
  intros Hx. destruct dt; try exact Hx; unfold round_to; simpl;
    apply round_float_unit; simpl; try lia; exact Hx.
Qed.

Lemma round_to_underflow dt f x :
  format_of dt = Some f ->
  0 <= x < powerRZ 2 (emin f - 1) -> round_to dt x = 0.
Proof.
  intros Hf Hx. unfold round_to. rewrite Hf. now apply round_float_underflow.
Qed.
End Rounding.

(** ** The gate and the decay *)

Lemma gate_inv g0 g :
  gate g0 = Ok g ->
  is_floating (dtype g0) = true
  /\ g = div_scalar (pointwise (dtype g0) logsigmoid g0) gate_logit_normalizer.
Proof.
  unfold gate, F_logsigmoid.
  destruct (is_floating (dtype g0)); simpl; [| discriminate].
  intros [= <-]. auto.
Qed.

Lemma gate_elem_in g0 g idx :
  gate g0 = Ok g -> in_bounds (shape g) idx = true ->
  elem g idx = (logsigmoid (elem g0 idx) / gate_logit_normalizer)%R.
Proof.
  intros Hg Hb. apply gate_inv in Hg as [_ ->].
  unfold div_scalar, pointwise in *. simpl in *. now rewrite Hb.
Qed.

Lemma gate_elem_nonpos g0 g idx :
  gate g0 = Ok g -> (elem g idx <= 0)%R.
Proof.
  intros Hg. apply gate_inv in Hg as [_ ->].
  unfold div_scalar, pointwise. simpl.
  destruct (in_bounds (shape g0) idx); [| lra].
  left. apply gate_value_neg.
Qed.

Lemma gate_shape g0 g : gate g0 = Ok g -> shape g = shape g0.
Proof. intros Hg. apply gate_inv in Hg as [_ ->]. reflexivity. Qed.

Lemma gate_floating g0 g : gate g0 = Ok g -> is_floating (dtype g) = true.
Proof.
  intros Hg. apply gate_inv in Hg as [Hf ->].
  unfold div_scalar, pointwise, float_scalar_dtype; simpl. now rewrite !Hf.
Qed.

Lemma gate_dtype g0 g : gate g0 = Ok g -> dtype g = dtype g0.
Proof.
  intros Hg. apply gate_inv in Hg as [Hf ->].
  unfold div_scalar, pointwise, float_scalar_dtype; simpl. now rewrite Hf.
Qed.

Lemma decay_dtype g :
  dtype (GSA.decay g) = float_scalar_dtype (dtype g).
Proof.
  unfold GSA.decay, rsub_scalar, torch_exp, pointwise. cbn [dtype tabulate].
  destruct (decide (float_scalar_dtype (dtype g) = TBool)) as [Hb |];
    [| reflexivity].
  pose proof (is_floating_float_scalar_dtype (dtype g)) as Hf.
  rewrite Hb in Hf. discriminate Hf.
Qed.

Lemma decay_shape g : shape (GSA.decay g) = shape g.
Proof. reflexivity. Qed.

(** The decay of an in-range element: the exponential and the difference
    are rounded one after the other. *)
Lemma decay_elem_in g idx :
  in_bounds (shape g) idx = true ->
  elem (GSA.decay g) idx
  = round_to (dtype (GSA.decay g))
      (1 - round_to (dtype (GSA.decay g)) (exp (elem g idx)))%R.
Proof.
  intros Hb. rewrite decay_dtype.
  unfold GSA.decay, rsub_scalar, torch_exp, pointwise.
  cbn [dtype shape elem tabulate]. rewrite Hb.
  destruct (decide (float_scalar_dtype (dtype g) = TBool)) as [Hd |];
    [| reflexivity].
  pose proof (is_floating_float_scalar_dtype (dtype g)) as Hf.
  rewrite Hd in Hf. discriminate Hf.
Qed.

Lemma decay_elem_range g idx :
  (forall i, elem g i <= 0)%R ->
  (0 <= elem (GSA.decay g) idx <= 1)%R.
Proof.
  intros Hg.
  destruct (in_bounds (shape g) idx) eqn:Hb.
  - rewrite decay_elem_in by exact Hb.
    apply round_to_unit.
    assert (He : (0 <= exp (elem g idx) <= 1)%R).
    { pose proof (exp_pos (elem g idx)) as Hpos.
      destruct (Hg idx) as [Hlt | Heq].
      - pose proof (exp_lt_1 _ Hlt). lra.
      - rewrite Heq, exp_0. lra. }
    pose proof (round_to_unit (dtype (GSA.decay g)) _ He). lra.
  - unfold GSA.decay, rsub_scalar, torch_exp, pointwise.
    cbn [elem shape tabulate]. rewrite Hb. lra.
Qed.

(** Where the exponential underflows the decay is exactly 1. *)
Lemma decay_elem_one g idx f :
  in_bounds (shape g) idx = true ->
  format_of (dtype (GSA.decay g)) = Some f ->
  (exp (elem g idx) < powerRZ 2 (emin f - 1))%R ->
  elem (GSA.decay g) idx = 1%R.
Proof.
  intros Hb Hf He. rewrite decay_elem_in by exact Hb.
  rewrite (round_to_underflow _ f (exp (elem g idx)) Hf).
  - rewrite Rminus_0_r. apply round_to_1.
  - pose proof (exp_pos (elem g idx)). lra.
Qed.

(** ** Stepping through a successful call *)

Arguments gate : simpl never.
Arguments select_mode : simpl never.
Arguments update_cache : simpl never.
Arguments window_attention : simpl never.
Arguments blend : simpl never.
Arguments pre_projection : simpl never.
Arguments get_last_state : simpl never.
Arguments cast_back : simpl never.
Arguments target_dtype : simpl never.
Arguments repeat_kv : simpl never.
Arguments rearrange_split_heads : simpl never.
Arguments F_softmax_last : simpl never.
Arguments GLA.split_heads : simpl never.
Arguments GLA.recurrent_kernel : simpl never.
Arguments GLA.keep_padding_mask : simpl never.
Arguments GSA.recurrent_kernel : simpl never.
Arguments GSA.decay : simpl never.
Arguments shape_at : simpl never.
Arguments shape_at_neg : simpl never.
Arguments masked : simpl never.
Arguments with_mask : simpl never.
Arguments to_dtype : simpl never.

(** Split the first stage whose outcome decides a successful run [H]. *)
Ltac step_ok H :=
  match type of H with
  | context [match ?X with Ok _ => _ | Err _ => _ end] =>
      lazymatch X with
      | context [match _ with Ok _ => _ | Err _ => _ end] => fail
      | _ =>
          let Hx := fresh "Hstage" in
          destruct X eqn:Hx; [ | try (simpl in H; discriminate H) ]
      end
  | context [match ?p with pair _ _ => _ end] =>
      tryif is_var p then destruct p
      else
        lazymatch p with
        | context [match _ with Ok _ => _ | Err _ => _ end] => fail
        | _ => let Hp := fresh "Hpair" in destruct p eqn:Hp
        end
  end.

Ltac run_ok H :=
  simpl in H; repeat (step_ok H; simpl in H); try discriminate H.

(** ** The stages of a successful call *)

Section GSA_stages.
Context (E : Env).

Lemma gsa_attend_inv self last hs q0 k0 v0 g0 mask pos pkv pe tr :
  run (GSA.attend E self last hs q0 k0 v0 g0 mask pos pkv pe) = Ok tr ->
  exists q4 k4 k4r v4 v4r g4 g4r sm vm q_len cos sin rq rk,
    rearrange_split_heads (GSA.num_heads self) q0 = Ok q4
    /\ rearrange_split_heads (GSA.num_key_value_heads self) k0 = Ok k4
    /\ repeat_kv k4 (GSA.num_key_value_groups self) = Ok k4r
    /\ rearrange_split_heads (GSA.num_key_value_heads self) v0 = Ok v4
    /\ repeat_kv v4 (GSA.num_key_value_groups self) = Ok v4r
    /\ rearrange_split_heads (GSA.num_key_value_heads self) g0 = Ok g4
    /\ repeat_kv g4 (GSA.num_key_value_groups self) = Ok g4r
    /\ gate g4r = Ok (GSA.gate_tensor E tr)
    /\ GSA.decay_tensor E tr = GSA.decay (GSA.gate_tensor E tr)
    /\ with_mask mask (GSA.decay_tensor E tr) = Ok sm
    /\ with_mask mask v4r = Ok vm
    /\ GSA.rec_q E tr = to_dtype Float32 q4
    /\ GSA.rec_k E tr = to_dtype Float32 k4r
    /\ GSA.rec_v E tr = to_dtype Float32 vm
    /\ GSA.rec_s E tr = to_dtype Float32 sm
    /\ GSA.rec_g E tr = to_dtype Float32 (GSA.gate_tensor E tr)
    /\ select_mode (GSA.training self) (GSA.rec_q E tr)
       = Ok (GSA.mode E tr)
    /\ GSA.recurrent_kernel E (GSA.mode E tr) (GSA.rec_q E tr)
         (GSA.rec_k E tr) (GSA.rec_v E tr) (GSA.rec_s E tr)
         (GSA.rec_g E tr) 1 last
       = Ok (GSA.rec_out E tr, GSA.new_state E tr)
    /\ update_cache pkv (GSA.new_state E tr) (GSA.layer_idx self)
         (GSA.rec_q E tr)
       = Ok (GSA.cache_out E tr)
    /\ shape_at_neg hs 2 = Ok q_len
    /\ match pe with
       | Some pe => Ok pe
       | None => GSA.rotary_emb self vm pos
       end = Ok (cos, sin)
    /\ apply_rotary_pos_emb E q4 k4r cos sin = Ok (rq, rk)
    /\ (GSA.win_q E tr, GSA.win_k E tr, GSA.win_v E tr)
       = cast_back
           (target_dtype E
              (LigerGSAConfig._pre_quantization_dtype (GSA.config self))
              (weight_dtype (GSA.q_proj self)))
           rq rk vm
    /\ window_attention E (GSA.win_q E tr) (GSA.win_k E tr)
         (GSA.win_v E tr) mask q_len pos
         (negb (is_flash_attn_greater_or_equal_2_10 E))
       = Ok (GSA.win_out E tr)
    /\ blend (GSA.win_out E tr) (GSA.rec_out E tr) = Ok (GSA.blended E tr)
    /\ pre_projection (GSA.blended E tr) = Ok (GSA.o_proj_input E tr)
    /\ linear_forward (GSA.o_proj self) (GSA.o_proj_input E tr)
       = Ok (GSA.output E tr).
Proof.
  intros H.
  unfold run, GSA.attend, pbind, lift, new, read, write, pret,
    mask_mul_, mask_mul_view_ in H.
  do 8 (step_ok H; simpl in H).
  destruct mask as [m|], pe as [[cos sin]|];
    unfold pbind, lift, read, write, with_mask, masked, rbind in *;
    simpl in H;
    try (destruct (repeat_kv_shares_memory _ _) eqn:Hshare;
         [run_ok H |]);
    run_ok H;
    match goal with
    | Hc : cast_back _ _ _ _ = _ |- _ => symmetry in Hc
    end;
    injection H as <-; simpl;
    repeat eexists; eauto; try congruence;
    unfold masked, rbind;
    repeat match goal with
           | Hs : ?X = Ok _
             |- context [match ?X with Ok _ => _ | Err _ => _ end] =>
               rewrite Hs
           end;
    assumption.
Qed.


Lemma gsa_forward_inv self hs mask pos pkv pe tr :
  GSA.forward E self hs mask pos pkv pe = Ok tr ->
  exists last q0 k0 v0 g0,
    get_last_state (GSA.layer_idx self) pkv = Ok last
    /\ linear_forward (GSA.q_proj self) hs = Ok q0
    /\ linear_forward (GSA.k_proj self) hs = Ok k0
    /\ linear_forward (GSA.v_proj self) hs = Ok v0
    /\ GSA.pool_g self k0 = Ok g0
    /\ run (GSA.attend E self last hs q0 k0 v0 g0 mask pos pkv pe) = Ok tr.
Proof.
  intros H. unfold GSA.forward, rbind in H.
  do 5 (step_ok H).
  repeat eexists; eauto.
Qed.
End GSA_stages.

Section GLA_stages.
Context (E : Env).

Lemma gla_attend_inv self last bsz q_len q0 k0 v0 g0 mask pos pkv pe tr :
  GLA.attend E self last bsz q_len q0 k0 v0 g0 mask pos pkv pe = Ok tr ->
  exists k4 v4 g4 g4r q' k' rq rk,
    GLA.split_heads bsz q_len (GLA.head_dim self) q0 = Ok (GLA.raw_q E tr)
    /\ GLA.split_heads bsz q_len (GLA.head_dim self) k0 = Ok k4
    /\ repeat_kv k4 (GLA.num_key_value_groups self) = Ok (GLA.raw_k E tr)
    /\ GLA.split_heads bsz q_len (GLA.head_dim self) v0 = Ok v4
    /\ repeat_kv v4 (GLA.num_key_value_groups self) = Ok (GLA.raw_v E tr)
    /\ GLA.split_heads bsz q_len (GLA.head_dim self) g0 = Ok g4
    /\ repeat_kv g4 (GLA.num_key_value_groups self) = Ok g4r
    /\ F_softmax_last (GLA.raw_q E tr) = Ok q'
    /\ F_softmax_last (GLA.raw_k E tr) = Ok k'
    /\ gate g4r = Ok (GLA.gate_tensor E tr)
    /\ GLA.rec_q E tr = to_dtype Float32 q'
    /\ GLA.rec_k E tr = to_dtype Float32 k'
    /\ GLA.rec_v E tr = to_dtype Float32 (GLA.raw_v E tr)
    /\ GLA.rec_g E tr = to_dtype Float32 (GLA.gate_tensor E tr)
    /\ select_mode (GLA.training self) (GLA.rec_q E tr)
       = Ok (GLA.mode E tr)
    /\ GLA.recurrent_kernel E (GLA.mode E tr) (GLA.rec_q E tr)
         (GLA.rec_k E tr) (GLA.rec_v E tr) (GLA.rec_g E tr) 1 last
       = Ok (GLA.rec_out E tr, GLA.new_state E tr)
    /\ update_cache pkv (GLA.new_state E tr) (GLA.layer_idx self)
         (GLA.rec_q E tr)
       = Ok (GLA.cache_out E tr)
    /\ match pe with
       | Some pe => Ok pe
       | None => GLA.rotary_emb self (GLA.raw_v E tr) pos
       end = Ok (GLA.cos_sin E tr)
    /\ apply_rotary_pos_emb E (GLA.raw_q E tr) (GLA.raw_k E tr)
         (fst (GLA.cos_sin E tr)) (snd (GLA.cos_sin E tr))
       = Ok (rq, rk)
    /\ (GLA.win_q E tr, GLA.win_k E tr, GLA.win_v E tr)
       = cast_back
           (target_dtype E
              (LigerQwen2GLAConfig._pre_quantization_dtype
                 (GLA.config self))
              (weight_dtype (GLA.q_proj self)))
           rq rk (GLA.raw_v E tr)
    /\ window_attention E (GLA.win_q E tr) (GLA.win_k E tr)
         (GLA.win_v E tr) (GLA.keep_padding_mask mask) q_len pos false
       = Ok (GLA.win_out E tr)
    /\ blend (GLA.win_out E tr) (GLA.rec_out E tr) = Ok (GLA.blended E tr)
    /\ pre_projection (GLA.blended E tr) = Ok (GLA.o_proj_input E tr)
    /\ linear_forward (GLA.o_proj self) (GLA.o_proj_input E tr)
       = Ok (GLA.output E tr).
Proof.
  intros H. unfold GLA.attend, rbind in H.
  destruct pe as [[cos sin]|];
    run_ok H;
    match goal with
    | Hc : cast_back _ _ _ _ = _ |- _ => symmetry in Hc
    end;
    injection H as <-; simpl;
    repeat eexists; eauto.
Qed.

Lemma gla_forward_inv self hs mask pos pkv pe tr :
  GLA.forward E self hs mask pos pkv pe = Ok tr ->
  exists last bsz q_len f q0 k0 v0 g0,
    get_last_state (GLA.layer_idx self) pkv = Ok last
    /\ shape hs = [bsz; q_len; f]
    /\ linear_forward (GLA.q_proj self) hs = Ok q0
    /\ linear_forward (GLA.k_proj self) hs = Ok k0
    /\ linear_forward (GLA.v_proj self) hs = Ok v0
    /\ GLA.pool_g self k0 = Ok g0
    /\ GLA.attend E self last bsz q_len q0 k0 v0 g0 mask pos pkv pe
       = Ok tr.
Proof.
  intros H. unfold GLA.forward, rbind in H.
  step_ok H.
  destruct (shape hs) as [|bsz [|q_len [|f [|? ?]]]] eqn:Hshape;
    try discriminate H.
  do 4 (step_ok H).
  repeat eexists; eauto.
Qed.
End GLA_stages.

(** ** Shapes along the pipeline *)

Lemma rearrange_split_heads_inv h t t' :
  rearrange_split_heads h t = Ok t' ->
  exists b n f,
    shape t = [b; n; f] /\ h <> 0 /\ f mod h = 0
    /\ shape t' = [b; h; n; f / h] /\ dtype t' = dtype t
    /\ forall ib ih i id,
         in_bounds [b; h; n; f / h] [ib; ih; i; id] = true ->
         elem t' [ib; ih; i; id] = elem t [ib; i; ih * (f / h) + id].
Proof.
  unfold rearrange_split_heads.
  destruct (shape t) as [|b [|n [|f [|? ?]]]] eqn:Hs; try discriminate.
  destruct (h =? 0) eqn:Hh; simpl; [discriminate |].
  destruct (f mod h =? 0) eqn:Hm; simpl; [| discriminate].
  intros [= <-].
  apply Nat.eqb_neq in Hh. apply Nat.eqb_eq in Hm.
  exists b, n, f. repeat split; auto.
  intros ib ih i id Hb. now rewrite elem_tabulate_in by exact Hb.
Qed.

Lemma repeat_kv_inv t n_rep t' :
  repeat_kv t n_rep = Ok t' ->
  exists b kvh s d,
    shape t = [b; kvh; s; d]
    /\ shape t' = [b; kvh * n_rep; s; d] /\ dtype t' = dtype t
    /\ forall ib ih i id,
         in_bounds [b; kvh * n_rep; s; d] [ib; ih; i; id] = true ->
         elem t' [ib; ih; i; id] = elem t [ib; ih / n_rep; i; id].
Proof.
  unfold repeat_kv.
  destruct (shape t) as [|b [|kvh [|s [|d [|? ?]]]]] eqn:Hs; try discriminate.
  destruct (n_rep =? 1) eqn:Hn.
  - apply Nat.eqb_eq in Hn. subst n_rep. intros [= <-].
    exists b, kvh, s, d. rewrite Nat.mul_1_r. repeat split; auto.
    intros. now rewrite Nat.div_1_r.
  - intros [= <-]. exists b, kvh, s, d. repeat split; auto.
    intros ib ih i id Hb. now rewrite elem_tabulate_in by exact Hb.
Qed.

Lemma shape_at_neg_4d t a b c d :
  shape t = [a; b; c; d] -> shape_at_neg t 2 = Ok c.
Proof. intros H. unfold shape_at_neg. now rewrite H. Qed.

Lemma shape_at_1_4d t a b c d :
  shape t = [a; b; c; d] -> shape_at t 1 = Ok b.
Proof. intros H. unfold shape_at. now rewrite H. Qed.

Lemma view_heads_inv bsz q_len hd t t' :
  view_heads bsz q_len hd t = Ok t' ->
  bsz * q_len * hd <> 0
  /\ shape t' = [bsz; q_len; numel t / (bsz * q_len * hd); hd]
  /\ dtype t' = dtype t.
Proof.
  unfold view_heads.
  destruct (bsz * q_len * hd =? 0) eqn:Hk; simpl; [discriminate |].
  destruct (numel t mod (bsz * q_len * hd) =? 0); simpl; [| discriminate].
  intros [= <-]. apply Nat.eqb_neq in Hk. auto.
Qed.

Lemma split_heads_inv bsz q_len hd t t' :
  GLA.split_heads bsz q_len hd t = Ok t' ->
  bsz <> 0 /\ q_len <> 0 /\ hd <> 0
  /\ shape t' = [bsz; numel t / (bsz * q_len * hd); q_len; hd]
  /\ dtype t' = dtype t.
Proof.
  unfold GLA.split_heads, rbind.
  destruct (view_heads bsz q_len hd t) as [v|] eqn:Hv; [| discriminate].
  apply view_heads_inv in Hv as (Hk & Hs & Hd).
  unfold transpose12. rewrite Hs. intros [= <-]. simpl.
  repeat split; auto; intros ->; lia.
Qed.

Lemma F_softmax_last_inv t t' :
  F_softmax_last t = Ok t' ->
  is_floating (dtype t) = true /\ shape t' = shape t /\ dtype t' = dtype t.
Proof.
  unfold F_softmax_last.
  destruct (is_floating (dtype t)); [| discriminate].
  destruct (rev (shape t)); intros [= <-]; auto.
Qed.

(** ** Mode selection *)

Lemma select_mode_spec training q m n :
  select_mode training q = Ok m ->
  shape_at_neg q 2 = Ok n ->
  (m = Chunked <-> training = true \/ 1 < n)
  /\ (m = FusedRecurrent <-> training = false /\ n <= 1).
Proof.
  unfold select_mode, rbind. intros Hm Hn.
  destruct training.
  - injection Hm as <-. split; split; try tauto; try discriminate.
    intros [? _]; discriminate.
  - rewrite Hn in Hm. injection Hm as <-.
    destruct (1 <? n) eqn:Hlt.
    + apply Nat.ltb_lt in Hlt.
      split; split; try tauto; try discriminate. intros [_ ?]; lia.
    + apply Nat.ltb_ge in Hlt.
      split; split; try tauto; try discriminate.
      intros [? | ?]; [discriminate | lia].
Qed.

(** ** The cache write *)

Lemma update_cache_some {S} (c : FlaCache S) st layer_idx q c' :
  update_cache (Some c) st layer_idx q = Ok c' ->
  exists l offset,
    layer_idx = Some l /\ shape_at q 1 = Ok offset
    /\ c' = Some (cache_update c st l offset).
Proof.
  unfold update_cache, rbind.
  destruct (shape_at q 1) as [offset|]; [| discriminate].
  destruct layer_idx as [l|]; [| discriminate].
  intros [= <-]. eauto.
Qed.

Lemma cache_update_lookup {S} (c : FlaCache S) st l offset :
  states (cache_update c st l offset) !! l = Some st.
Proof. unfold cache_update; simpl. apply lookup_insert_eq. Qed.

Lemma cache_update_other {S} (c : FlaCache S) st l l' offset :
  l <> l' -> states (cache_update c st l offset) !! l' = states c !! l'.
Proof. intros Hne. unfold cache_update; simpl. now apply lookup_insert_ne. Qed.

Lemma cache_update_seen {S} (c : FlaCache S) st l offset :
  seen_tokens (cache_update c st l offset) = seen_tokens c + offset.
Proof. reflexivity. Qed.

(** ** Running the demonstration layers *)

Lemma demo_gsa_init :
  GSA.__init__ Demo.env Demo.gsa_config (Some 0) = Ok Demo.gsa_layer.
Proof. reflexivity. Qed.

Lemma demo_gla_init :
  GLA.__init__ Demo.env Demo.gla_config (Some 0) = Ok Demo.gla_layer.
Proof. reflexivity. Qed.

Lemma is_ok_inv {A} (r : result A) : is_ok r = true -> exists a, r = Ok a.
Proof. destruct r as [a|e]; [eauto | discriminate]. Qed.

(** Three tokens in training mode, with an empty cache. *)
Lemma demo_gsa_prefill :
  is_ok (GSA.forward Demo.env Demo.gsa_layer (Demo.hidden 3 1) None None
           (Some Demo.empty_cache) None) = true.
Proof. reflexivity. Qed.

Lemma demo_gla_prefill :
  is_ok (GLA.forward Demo.env Demo.gla_layer (Demo.hidden 3 1) None None
           (Some Demo.empty_cache) None) = true.
Proof. reflexivity. Qed.

(** One token in evaluation mode, with an empty cache. *)
Lemma demo_gsa_decode :
  is_ok (GSA.forward Demo.env (GSA.eval Demo.gsa_layer) (Demo.hidden 1 1)
           None None (Some Demo.empty_cache) None) = true.
Proof. reflexivity. Qed.

Lemma demo_gla_decode :
  is_ok (GLA.forward Demo.env (GLA.eval Demo.gla_layer) (Demo.hidden 1 1)
           None None (Some Demo.empty_cache) None) = true.
Proof. reflexivity. Qed.

(** ** The gate (claims C5 and C6) *)

Lemma gsa_gate_stage (E : Env) self hs mask pos pkv pe tr :
  GSA.forward E self hs mask pos pkv pe = Ok tr ->
  exists pooled,
    gate pooled = Ok (GSA.gate_tensor E tr)
    /\ GSA.decay_tensor E tr = GSA.decay (GSA.gate_tensor E tr).
Proof.
  intros H.
  apply gsa_forward_inv in H as (last & q0 & k0 & v0 & g0 & _ & _ & _ & _ & _ & H).
  apply gsa_attend_inv in H
    as (q4 & k4 & k4r & v4 & v4r & g4 & g4r & sm & vm & q_len & cos & sin
        & rq & rk & _ & _ & _ & _ & _ & _ & _ & Hgate & Hdec & _).
  eauto.
Qed.

(** C5.  In every successful forward call of either attention class the
    gate tensor [g] is obtained from the pooled key projection (split into
    heads and repeated over the query-head groups) by [logsigmoid(x) / 16],
    and every element of it, and of its float32 copy handed to the recurrent
    kernel, is at most 0. *)
Theorem gate_values_nonpositive (E : Env) :
  (forall self hs mask pos pkv pe tr,
      GSA.forward E self hs mask pos pkv pe = Ok tr ->
      (exists k0 g0 g4 pooled,
          linear_forward (GSA.k_proj self) hs = Ok k0
          /\ GSA.pool_g self k0 = Ok g0
          /\ rearrange_split_heads (GSA.num_key_value_heads self) g0 = Ok g4
          /\ repeat_kv g4 (GSA.num_key_value_groups self) = Ok pooled
          /\ gate pooled = Ok (GSA.gate_tensor E tr)
          /\ forall idx,
               in_bounds (shape (GSA.gate_tensor E tr)) idx = true ->
               elem (GSA.gate_tensor E tr) idx
               = (logsigmoid (elem pooled idx) / 16)%R)
      /\ GSA.rec_g E tr = to_dtype Float32 (GSA.gate_tensor E tr)
      /\ forall idx,
           (elem (GSA.gate_tensor E tr) idx <= 0)%R
           /\ (elem (GSA.rec_g E tr) idx <= 0)%R)
  /\ (forall self hs mask pos pkv pe tr,
      GLA.forward E self hs mask pos pkv pe = Ok tr ->
      (exists bsz q_len f k0 g0 g4 pooled,
          shape hs = [bsz; q_len; f]
          /\ linear_forward (GLA.k_proj self) hs = Ok k0
          /\ GLA.pool_g self k0 = Ok g0
          /\ GLA.split_heads bsz q_len (GLA.head_dim self) g0 = Ok g4
          /\ repeat_kv g4 (GLA.num_key_value_groups self) = Ok pooled
          /\ gate pooled = Ok (GLA.gate_tensor E tr)
          /\ forall idx,
               in_bounds (shape (GLA.gate_tensor E tr)) idx = true ->
               elem (GLA.gate_tensor E tr) idx
               = (logsigmoid (elem pooled idx) / 16)%R)
      /\ GLA.rec_g E tr = to_dtype Float32 (GLA.gate_tensor E tr)
      /\ forall idx,
           (elem (GLA.gate_tensor E tr) idx <= 0)%R
           /\ (elem (GLA.rec_g E tr) idx <= 0)%R).
Proof.
  split; intros self hs mask pos pkv pe tr H.
  - apply gsa_forward_inv in H
      as (last & q0 & k0 & v0 & g0 & _ & _ & Hk & _ & Hg & H).
    apply gsa_attend_inv in H
      as (q4 & k4 & k4r & v4 & v4r & g4 & g4r & sm & vm & q_len & cos & sin
          & rq & rk & _ & _ & _ & _ & _ & Hg4 & Hg4r & Hgate & _ & _ & _
          & _ & _ & _ & _ & Hrg & _).
    split; [| split]; trivial.
    + exists k0, g0, g4, g4r. repeat split; trivial.
      intros idx Hb. now apply gate_elem_in.
    + intros idx. rewrite Hrg. simpl.
      split; eapply gate_elem_nonpos; eassumption.
  - apply gla_forward_inv in H
      as (last & bsz & q_len & f & q0 & k0 & v0 & g0 & _ & Hs & _ & Hk & _
          & Hg & H).
    apply gla_attend_inv in H
      as (k4 & v4 & g4 & g4r & q' & k' & rq & rk & _ & _ & _ & _ & _ & Hg4
          & Hg4r & _ & _ & Hgate & _ & _ & _ & Hrg & _).
    split; [| split]; trivial.
    + exists bsz, q_len, f, k0, g0, g4, g4r. repeat split; trivial.
      intros idx Hb. now apply gate_elem_in.
    + intros idx. rewrite Hrg. simpl.
      split; eapply gate_elem_nonpos; eassumption.
Qed.

Lemma logsigmoid_le (x : R) : (logsigmoid x <= x)%R.
Proof.
  unfold logsigmoid.
  pose proof (exp_pos (- x)) as Hpos.
  rewrite <- (ln_exp x) at 2. left.
  apply ln_increasing; [apply Rinv_0_lt_compat; lra |].
  replace (exp x) with (/ exp (- x))%R
    by (rewrite exp_Ropp, Rinv_inv; reflexivity).
  apply Rinv_lt_contravar; [| lra].
  apply Rmult_lt_0_compat; lra.
Qed.

(** The gate of the demonstration layer on hidden states that all equal
    [c]: the key projection sums the four features. *)
Lemma demo_gsa_gate c mask pos pkv pe tr :
  GSA.forward Demo.env Demo.gsa_layer (Demo.hidden 3 c) mask pos pkv pe
  = Ok tr ->
  shape (GSA.gate_tensor Demo.env tr) = [1; 2; 3; 2]
  /\ dtype (GSA.gate_tensor Demo.env tr) = BFloat16
  /\ elem (GSA.gate_tensor Demo.env tr) [0; 0; 0; 0]
     = (logsigmoid (c + (c + (c + (c + 0)))) / 16)%R.
Proof.
  intros H.
  apply gsa_forward_inv in H
    as (last & q0 & k0 & v0 & g0 & _ & _ & Hk & _ & Hg & H).
  apply gsa_attend_inv in H
    as (q4 & k4 & k4r & v4 & v4r & g4 & g4r & sm & vm & q_len & cos & sin
        & rq & rk & _ & _ & _ & _ & _ & Hg4 & Hg4r & Hgate & _).
  cbn in Hk. injection Hk as <-.
  cbn in Hg. injection Hg as <-.
  apply rearrange_split_heads_inv in Hg4
    as (b & n & f & Hs & _ & _ & Hsh4 & Hd4 & He4).
  cbn in Hs. injection Hs as <- <- <-.
  apply repeat_kv_inv in Hg4r
    as (b2 & kvh & s2 & d2 & Hq & Hshr & Hdr & Her).
  rewrite Hsh4 in Hq. injection Hq as <- <- <- <-.
  split; [rewrite (gate_shape _ _ Hgate); exact Hshr |].
  split; [rewrite (gate_dtype _ _ Hgate), Hdr, Hd4; reflexivity |].
  rewrite (gate_elem_in _ _ _ Hgate)
    by (rewrite (gate_shape _ _ Hgate), Hshr; reflexivity).
  rewrite Her by reflexivity. rewrite He4 by reflexivity.
  cbn. unfold gate_logit_normalizer. do 2 f_equal. lra.
Qed.

Lemma demo_gsa_underflow :
  is_ok (GSA.forward Demo.env Demo.gsa_layer (Demo.hidden 3 (-800)) None
           None None None) = true.
Proof. reflexivity. Qed.

(** C6, as the claim states it, fails: on hidden states that all equal
    [-800] the pooled key projection is [-3200], the gate is below [-200],
    its exponential underflows to [0] in bfloat16, and the decay is exactly
    [1]. *)
Lemma slot_decay_reaches_one :
  exists tr,
    GSA.forward Demo.env Demo.gsa_layer (Demo.hidden 3 (-800)) None None
      None None = Ok tr
    /\ in_bounds (shape (GSA.decay_tensor Demo.env tr)) [0; 0; 0; 0] = true
    /\ elem (GSA.decay_tensor Demo.env tr) [0; 0; 0; 0] = 1%R.
Proof.
  destruct (is_ok_inv _ demo_gsa_underflow) as [tr H].
  exists tr. split; [exact H |].
  destruct (demo_gsa_gate _ _ _ _ _ _ H) as (Hsh & Hdt & Hel).
  apply gsa_gate_stage in H as (pooled & _ & Hdec).
  rewrite Hdec, decay_shape, Hsh. split; [reflexivity |].
  apply (decay_elem_one _ _ {| prec := 8; emin := -133 |}).
  - now rewrite Hsh.
  - now rewrite decay_dtype, Hdt.
  - rewrite Hel. apply exp_lt_powerRZ_2; [reflexivity |].
    pose proof (logsigmoid_le (-800 + (-800 + (-800 + (-800 + 0))))) as Hl.
    cbn [emin]. change (IZR (-133 - 1)) with (IZR (-134)). lra.
Qed.

(** C6 (amended).  In every successful forward call of the slot-attention
    class the decay tensor is [s = 1 - exp(g)] of the gate tensor, the
    exponential and the difference each rounded to the dtype of [g], and
    every element of it lies in the closed interval [0, 1]. *)
Theorem slot_decay_in_unit_interval (E : Env) self hs mask pos pkv pe tr :
  GSA.forward E self hs mask pos pkv pe = Ok tr ->
  GSA.decay_tensor E tr = GSA.decay (GSA.gate_tensor E tr)
  /\ dtype (GSA.decay_tensor E tr) = dtype (GSA.gate_tensor E tr)
  /\ (forall idx,
        in_bounds (shape (GSA.gate_tensor E tr)) idx = true ->
        elem (GSA.decay_tensor E tr) idx
        = round_to (dtype (GSA.gate_tensor E tr))
            (1 - round_to (dtype (GSA.gate_tensor E tr))
                   (exp (elem (GSA.gate_tensor E tr) idx)))%R)
  /\ forall idx, (0 <= elem (GSA.decay_tensor E tr) idx <= 1)%R.
Proof.
  intros H.
  apply gsa_gate_stage in H as (pooled & Hgate & Hdec).
  assert (Hdt : dtype (GSA.decay_tensor E tr)
                = dtype (GSA.gate_tensor E tr)).
  { rewrite Hdec, decay_dtype.
    pose proof (gate_floating _ _ Hgate) as Hf.
    unfold float_scalar_dtype. now rewrite Hf. }
  split; [exact Hdec |]. split; [exact Hdt |]. split.
  - intros idx Hb. rewrite <- Hdt, Hdec. now apply decay_elem_in.
  - intros idx. rewrite Hdec. apply decay_elem_range.
    intros i. eapply gate_elem_nonpos; eassumption.
Qed.

Lemma gate_values_nonpositive_witness :
  exists tr_gsa tr_gla,
    GSA.forward Demo.env Demo.gsa_layer (Demo.hidden 3 1) None None
      (Some Demo.empty_cache) None = Ok tr_gsa
    /\ GLA.forward Demo.env Demo.gla_layer (Demo.hidden 3 1) None None
         (Some Demo.empty_cache) None = Ok tr_gla
    /\ (elem (GSA.gate_tensor Demo.env tr_gsa) [0; 1; 2; 1]%nat <= 0)%R
    /\ (elem (GLA.gate_tensor Demo.env tr_gla) [0; 1; 2; 1]%nat <= 0)%R.
Proof.
  destruct (is_ok_inv _ demo_gsa_prefill) as [tr_gsa Hgsa].
  destruct (is_ok_inv _ demo_gla_prefill) as [tr_gla Hgla].
  exists tr_gsa, tr_gla.
  split; [exact Hgsa |]. split; [exact Hgla |].
  split.
  - apply (proj1 (gate_values_nonpositive Demo.env) _ _ _ _ _ _ _ Hgsa).
  - apply (proj2 (gate_values_nonpositive Demo.env) _ _ _ _ _ _ _ Hgla).
Defined.

Lemma slot_decay_in_unit_interval_witness :
  exists tr,
    GSA.forward Demo.env Demo.gsa_layer (Demo.hidden 3 1) None None
      (Some Demo.empty_cache) None = Ok tr
    /\ (0 <= elem (GSA.decay_tensor Demo.env tr) [0; 1; 2; 1]%nat <= 1)%R.
Proof.
  destruct (is_ok_inv _ demo_gsa_prefill) as [tr H].
  exists tr. split; [exact H |].
  apply (slot_decay_in_unit_interval Demo.env _ _ _ _ _ _ _ H).
Defined.

(** ** Broadcasting *)

Lemma in_bounds_Forall2 sh idx :
  in_bounds sh idx = true <-> Forall2 lt idx sh.
Proof.
  revert idx. induction sh as [|d sh IH]; intros [|i idx]; simpl.
  - split; auto.
  - split; [discriminate | inversion 1].
  - split; [discriminate | inversion 1].
  - rewrite andb_true_iff, Nat.ltb_lt, IH. split.
    + intros [? ?]. now constructor.
    + inversion 1; subst. auto.
Qed.

Lemma Forall2_lt_rev (l k : list nat) :
  Forall2 lt l k -> Forall2 lt (rev l) (rev k).
Proof.
  induction 1 as [|x y l k Hxy _ IH]; simpl; [constructor |].
  apply Forall2_app; [exact IH | repeat constructor; exact Hxy].
Qed.

Lemma in_bounds_rev sh idx :
  in_bounds (rev sh) (rev idx) = in_bounds sh idx.
Proof.
  apply eq_true_iff_eq. rewrite !in_bounds_Forall2. split; intros H.
  - apply Forall2_lt_rev in H. now rewrite !rev_involutive in H.
  - now apply Forall2_lt_rev.
Qed.

Lemma broadcast_rev_nil_r s : broadcast_rev s [] = Some s.
Proof. now destruct s. Qed.

Lemma broadcast_dim_lt a b d i :
  broadcast_dim a b = Some d -> i < d ->
  bcast_axis a i < a /\ bcast_axis b i < b.
Proof.
  unfold broadcast_dim, bcast_axis.
  destruct (a =? b) eqn:Hab.
  - apply Nat.eqb_eq in Hab. subst b. intros [= <-] Hi.
    destruct (a =? 1) eqn:Ha; [apply Nat.eqb_eq in Ha |]; lia.
  - destruct (a =? 1) eqn:Ha.
    + apply Nat.eqb_eq in Ha. intros [= <-] Hi.
      destruct (b =? 1) eqn:Hb; [apply Nat.eqb_eq in Hb |]; lia.
    + destruct (b =? 1) eqn:Hb; [| discriminate].
      apply Nat.eqb_eq in Hb. intros [= <-] Hi. lia.
Qed.

Lemma broadcast_rev_in_bounds r1 r2 r ridx :
  broadcast_rev r1 r2 = Some r -> Forall2 lt ridx r ->
  Forall2 lt (zip_with bcast_axis r1 ridx) r1
  /\ Forall2 lt (zip_with bcast_axis r2 ridx) r2.
Proof.
  revert r2 r ridx.
  assert (Hone : forall s ridx, Forall2 lt ridx s ->
                   Forall2 lt (zip_with bcast_axis s ridx) s).
  { intros s ridx H. induction H as [|i d ridx s Hid _ IH]; simpl.
    - constructor.
    - constructor; [| exact IH].
      unfold bcast_axis. destruct (d =? 1) eqn:Hd; [| exact Hid].
      apply Nat.eqb_eq in Hd. lia. }
  induction r1 as [|a r1 IH]; intros r2 r ridx Hbr Hidx.
  - simpl in Hbr. injection Hbr as <-. split; [constructor | now apply Hone].
  - destruct r2 as [|b r2].
    + simpl in Hbr. injection Hbr as <-.
      split; [now apply Hone | constructor].
    + simpl in Hbr.
      destruct (broadcast_dim a b) as [d|] eqn:Hd; [| discriminate].
      destruct (broadcast_rev r1 r2) as [r'|] eqn:Hr'; [| discriminate].
      injection Hbr as <-.
      inversion Hidx as [|i d' ridx' r'' Hid Hrest]; subst.
      destruct (broadcast_dim_lt _ _ _ _ Hd Hid) as [Ha Hb].
      destruct (IH _ _ _ Hr' Hrest) as [H1 H2].
      split; simpl; constructor; assumption.
Qed.

(** An in-range index of a broadcast result is read in range in both
    operands. *)
Lemma bcast_index_in_bounds s1 s2 s idx :
  broadcast_shapes s1 s2 = Some s -> in_bounds s idx = true ->
  in_bounds s1 (bcast_index s1 idx) = true
  /\ in_bounds s2 (bcast_index s2 idx) = true.
Proof.
  unfold broadcast_shapes, bcast_index.
  destruct (broadcast_rev (rev s1) (rev s2)) as [r|] eqn:Hr; [| discriminate].
  intros [= <-] Hidx.
  rewrite <- in_bounds_rev, rev_involutive in Hidx.
  apply in_bounds_Forall2 in Hidx.
  destruct (broadcast_rev_in_bounds _ _ _ _ Hr Hidx) as [H1 H2].
  split.
  - rewrite <- (rev_involutive s1) at 1. rewrite in_bounds_rev.
    now apply in_bounds_Forall2.
  - rewrite <- (rev_involutive s2) at 1. rewrite in_bounds_rev.
    now apply in_bounds_Forall2.
Qed.

Lemma broadcast_rev_same s : broadcast_rev s s = Some s.
Proof.
  induction s as [|a s IH]; simpl; [reflexivity |].
  unfold broadcast_dim. now rewrite Nat.eqb_refl, IH.
Qed.

Lemma broadcast_shapes_same s : broadcast_shapes s s = Some s.
Proof.
  unfold broadcast_shapes. now rewrite broadcast_rev_same, rev_involutive.
Qed.

(** Within one shape an in-range index is read where it is. *)
Lemma bcast_index_same sh idx :
  in_bounds sh idx = true -> bcast_index sh idx = idx.
Proof.
  intros H. unfold bcast_index.
  rewrite <- in_bounds_rev in H. apply in_bounds_Forall2 in H.
  rewrite <- (rev_involutive idx) at 2. f_equal.
  induction H as [|i d ridx r Hid _ IH]; simpl; [reflexivity |].
  f_equal; [| exact IH].
  unfold bcast_axis. destruct (d =? 1) eqn:Hd; [| reflexivity].
  apply Nat.eqb_eq in Hd. lia.
Qed.

(** ** The blend *)

Lemma blend_inv y o_ b :
  blend y o_ = Ok b ->
  broadcast_shapes (shape y) (shape o_) = Some (shape b)
  /\ forall idx,
       in_bounds (shape b) idx = true ->
       elem b idx
       = (0.5 * elem y (bcast_index (shape y) idx)
          + 0.5 * elem o_ (bcast_index (shape o_) idx))%R.
Proof.
  unfold blend, torch_add. cbn [shape mul_scalar pointwise tabulate].
  destruct (broadcast_shapes (shape y) (shape o_)) as [sh|] eqn:Hsh;
    [| discriminate].
  intros [= <-]. split; [reflexivity |].
  intros idx Hb. cbn [shape tabulate] in Hb.
  destruct (bcast_index_in_bounds _ _ _ _ Hsh Hb) as [Hy Ho].
  cbn [elem tabulate mul_scalar pointwise shape].
  now rewrite Hb, Hy, Ho.
Qed.

Lemma blend_same_shape y o_ b :
  blend y o_ = Ok b -> shape y = shape o_ ->
  shape b = shape y
  /\ forall idx,
       in_bounds (shape y) idx = true ->
       elem b idx = (0.5 * elem y idx + 0.5 * elem o_ idx)%R.
Proof.
  intros Hb Hs. apply blend_inv in Hb as [Hsh Hel].
  rewrite <- Hs, broadcast_shapes_same in Hsh. injection Hsh as Hsh.
  split; [now symmetry |].
  intros idx Hin. rewrite Hel by now rewrite <- Hsh.
  rewrite <- Hs. now rewrite bcast_index_same.
Qed.

Lemma pre_projection_dtype o_ o :
  pre_projection o_ = Ok o -> dtype o = BFloat16.
Proof.
  unfold pre_projection, rearrange_merge_heads, to_dtype. cbn [shape dtype].
  destruct (shape o_) as [|b [|h [|n [|d [|? ?]]]]]; try discriminate.
  now intros [= <-].
Qed.

(** ** The two paths of a successful call *)

Lemma gsa_paths (E : Env) self hs mask pos pkv pe tr :
  GSA.forward E self hs mask pos pkv pe = Ok tr ->
  exists last q_len,
    select_mode (GSA.training self) (GSA.rec_q E tr) = Ok (GSA.mode E tr)
    /\ GSA.recurrent_kernel E (GSA.mode E tr) (GSA.rec_q E tr)
         (GSA.rec_k E tr) (GSA.rec_v E tr) (GSA.rec_s E tr)
         (GSA.rec_g E tr) 1 last
       = Ok (GSA.rec_out E tr, GSA.new_state E tr)
    /\ update_cache pkv (GSA.new_state E tr) (GSA.layer_idx self)
         (GSA.rec_q E tr)
       = Ok (GSA.cache_out E tr)
    /\ window_attention E (GSA.win_q E tr) (GSA.win_k E tr)
         (GSA.win_v E tr) mask q_len pos
         (negb (is_flash_attn_greater_or_equal_2_10 E))
       = Ok (GSA.win_out E tr)
    /\ blend (GSA.win_out E tr) (GSA.rec_out E tr) = Ok (GSA.blended E tr)
    /\ pre_projection (GSA.blended E tr) = Ok (GSA.o_proj_input E tr)
    /\ linear_forward (GSA.o_proj self) (GSA.o_proj_input E tr)
       = Ok (GSA.output E tr).
Proof.
  intros H.
  apply gsa_forward_inv in H
    as (last & q0 & k0 & v0 & g0 & _ & _ & _ & _ & _ & H).
  apply gsa_attend_inv in H
    as (q4 & k4 & k4r & v4 & v4r & g4 & g4r & sm & vm & q_len & cos & sin
        & rq & rk & _ & _ & _ & _ & _ & _ & _ & _ & _ & _ & _ & _ & _ & _
        & _ & _ & Hmode & Hrec & Hupd & _ & _ & _ & _ & Hwin & Hbl & Hpre
        & Hout).
  exists last, q_len. auto 10.
Qed.

Lemma gla_paths (E : Env) self hs mask pos pkv pe tr :
  GLA.forward E self hs mask pos pkv pe = Ok tr ->
  exists last bsz q_len f,
    shape hs = [bsz; q_len; f]
    /\ select_mode (GLA.training self) (GLA.rec_q E tr) = Ok (GLA.mode E tr)
    /\ GLA.recurrent_kernel E (GLA.mode E tr) (GLA.rec_q E tr)
         (GLA.rec_k E tr) (GLA.rec_v E tr) (GLA.rec_g E tr) 1 last
       = Ok (GLA.rec_out E tr, GLA.new_state E tr)
    /\ update_cache pkv (GLA.new_state E tr) (GLA.layer_idx self)
         (GLA.rec_q E tr)
       = Ok (GLA.cache_out E tr)
    /\ window_attention E (GLA.win_q E tr) (GLA.win_k E tr)
         (GLA.win_v E tr) (GLA.keep_padding_mask mask) q_len pos false
       = Ok (GLA.win_out E tr)
    /\ blend (GLA.win_out E tr) (GLA.rec_out E tr) = Ok (GLA.blended E tr)
    /\ pre_projection (GLA.blended E tr) = Ok (GLA.o_proj_input E tr)
    /\ linear_forward (GLA.o_proj self) (GLA.o_proj_input E tr)
       = Ok (GLA.output E tr).
Proof.
  intros H.
  apply gla_forward_inv in H
    as (last & bsz & q_len & f & q0 & k0 & v0 & g0 & _ & Hs & _ & _ & _ & _
        & H).
  apply gla_attend_inv in H
    as (k4 & v4 & g4 & g4r & q' & k' & rq & rk & _ & _ & _ & _ & _ & _ & _
        & _ & _ & _ & _ & _ & _ & _ & Hmode & Hrec & Hupd & _ & _ & _ & Hwin
        & Hbl & Hpre & Hout).
  exists last, bsz, q_len, f. auto 10.
Qed.

(** The layout of the query tensor handed to the recurrent kernel. *)
Lemma gsa_rec_q_shape (E : Env) self hs mask pos pkv pe tr :
  GSA.forward E self hs mask pos pkv pe = Ok tr ->
  exists q0 b n f,
    linear_forward (GSA.q_proj self) hs = Ok q0
    /\ shape q0 = [b; n; f]
    /\ shape (GSA.rec_q E tr)
       = [b; GSA.num_heads self; n; f / GSA.num_heads self].
Proof.
  intros H.
  apply gsa_forward_inv in H
    as (last & q0 & k0 & v0 & g0 & _ & Hq & _ & _ & _ & H).
  apply gsa_attend_inv in H
    as (q4 & k4 & k4r & v4 & v4r & g4 & g4r & sm & vm & q_len & cos & sin
        & rq & rk & Hq4 & _ & _ & _ & _ & _ & _ & _ & _ & _ & _ & Hrq & _).
  apply rearrange_split_heads_inv in Hq4
    as (b & n & f & Hs & _ & _ & Hs4 & _).
  exists q0, b, n, f. rewrite Hrq. auto.
Qed.

Lemma gla_rec_q_shape (E : Env) self hs mask pos pkv pe tr :
  GLA.forward E self hs mask pos pkv pe = Ok tr ->
  exists q0 bsz q_len f,
    linear_forward (GLA.q_proj self) hs = Ok q0
    /\ shape hs = [bsz; q_len; f]
    /\ q_len <> 0
    /\ shape (GLA.rec_q E tr)
       = [bsz; numel q0 / (bsz * q_len * GLA.head_dim self); q_len;
          GLA.head_dim self].
Proof.
  intros H.
  apply gla_forward_inv in H
    as (last & bsz & q_len & f & q0 & k0 & v0 & g0 & _ & Hs & Hq & _ & _ & _
        & H).
  apply gla_attend_inv in H
    as (k4 & v4 & g4 & g4r & q' & k' & rq & rk & Hq4 & _ & _ & _ & _ & _ & _
        & Hsm & _ & _ & Hrq & _).
  apply split_heads_inv in Hq4 as (_ & Hn & _ & Hs4 & _).
  apply F_softmax_last_inv in Hsm as (_ & Hs' & _).
  exists q0, bsz, q_len, f. rewrite Hrq. unfold to_dtype; simpl.
  rewrite Hs', Hs4. auto.
Qed.

(** ** The blend and the output projection (claims C1 and C10) *)

(** C1.  In every successful forward call of either attention class, the
    tensor [o_] that is cast and handed to the output projection is
    [0.5 * y + 0.5 * o_], where [y] is the output of the windowed
    flash-attention path and the second [o_] is the output of the recurrent
    kernel: elementwise on the common shape, and under torch broadcasting
    otherwise.  The two weights are the literal 0.5 for every module state
    [self]. *)
Theorem blend_law (E : Env) :
  (forall self hs mask pos pkv pe tr,
      GSA.forward E self hs mask pos pkv pe = Ok tr ->
      (exists last q_len,
          GSA.recurrent_kernel E (GSA.mode E tr) (GSA.rec_q E tr)
            (GSA.rec_k E tr) (GSA.rec_v E tr) (GSA.rec_s E tr)
            (GSA.rec_g E tr) 1 last
          = Ok (GSA.rec_out E tr, GSA.new_state E tr)
          /\ window_attention E (GSA.win_q E tr) (GSA.win_k E tr)
               (GSA.win_v E tr) mask q_len pos
               (negb (is_flash_attn_greater_or_equal_2_10 E))
             = Ok (GSA.win_out E tr))
      /\ pre_projection (GSA.blended E tr) = Ok (GSA.o_proj_input E tr)
      /\ (forall idx,
            in_bounds (shape (GSA.blended E tr)) idx = true ->
            elem (GSA.blended E tr) idx
            = (0.5 * elem (GSA.win_out E tr)
                       (bcast_index (shape (GSA.win_out E tr)) idx)
               + 0.5 * elem (GSA.rec_out E tr)
                         (bcast_index (shape (GSA.rec_out E tr)) idx))%R)
      /\ (shape (GSA.win_out E tr) = shape (GSA.rec_out E tr) ->
          shape (GSA.blended E tr) = shape (GSA.win_out E tr)
          /\ forall idx,
               in_bounds (shape (GSA.win_out E tr)) idx = true ->
               elem (GSA.blended E tr) idx
               = (0.5 * elem (GSA.win_out E tr) idx
                  + 0.5 * elem (GSA.rec_out E tr) idx)%R))
  /\ (forall self hs mask pos pkv pe tr,
      GLA.forward E self hs mask pos pkv pe = Ok tr ->
      (exists last q_len,
          GLA.recurrent_kernel E (GLA.mode E tr) (GLA.rec_q E tr)
            (GLA.rec_k E tr) (GLA.rec_v E tr) (GLA.rec_g E tr) 1 last
          = Ok (GLA.rec_out E tr, GLA.new_state E tr)
          /\ window_attention E (GLA.win_q E tr) (GLA.win_k E tr)
               (GLA.win_v E tr) (GLA.keep_padding_mask mask) q_len pos false
             = Ok (GLA.win_out E tr))
      /\ pre_projection (GLA.blended E tr) = Ok (GLA.o_proj_input E tr)
      /\ (forall idx,
            in_bounds (shape (GLA.blended E tr)) idx = true ->
            elem (GLA.blended E tr) idx
            = (0.5 * elem (GLA.win_out E tr)
                       (bcast_index (shape (GLA.win_out E tr)) idx)
               + 0.5 * elem (GLA.rec_out E tr)
                         (bcast_index (shape (GLA.rec_out E tr)) idx))%R)
      /\ (shape (GLA.win_out E tr) = shape (GLA.rec_out E tr) ->
          shape (GLA.blended E tr) = shape (GLA.win_out E tr)
          /\ forall idx,
               in_bounds (shape (GLA.win_out E tr)) idx = true ->
               elem (GLA.blended E tr) idx
               = (0.5 * elem (GLA.win_out E tr) idx
                  + 0.5 * elem (GLA.rec_out E tr) idx)%R)).
Proof.
  split; intros self hs mask pos pkv pe tr H.
  - apply gsa_paths in H
      as (last & q_len & _ & Hrec & _ & Hwin & Hbl & Hpre & _).
    split; [eauto |]. split; [exact Hpre |]. split.
    + now apply blend_inv in Hbl as [_ Hel].
    + intros Hs. now apply blend_same_shape.
  - apply gla_paths in H
      as (last & bsz & q_len & f & _ & _ & Hrec & _ & Hwin & Hbl & Hpre & _).
    split; [eauto |]. split; [exact Hpre |]. split.
    + now apply blend_inv in Hbl as [_ Hel].
    + intros Hs. now apply blend_same_shape.
Qed.

Lemma blend_law_witness :
  exists tr_gsa tr_gla,
    GSA.forward Demo.env Demo.gsa_layer (Demo.hidden 3 1) None None
      (Some Demo.empty_cache) None = Ok tr_gsa
    /\ GLA.forward Demo.env Demo.gla_layer (Demo.hidden 3 1) None None
         (Some Demo.empty_cache) None = Ok tr_gla
    /\ pre_projection (GSA.blended Demo.env tr_gsa)
       = Ok (GSA.o_proj_input Demo.env tr_gsa)
    /\ pre_projection (GLA.blended Demo.env tr_gla)
       = Ok (GLA.o_proj_input Demo.env tr_gla).
Proof.
  destruct (is_ok_inv _ demo_gsa_prefill) as [tr_gsa Hgsa].
  destruct (is_ok_inv _ demo_gla_prefill) as [tr_gla Hgla].
  exists tr_gsa, tr_gla.
  split; [exact Hgsa |]. split; [exact Hgla |].
  split.
  - apply (proj1 (blend_law Demo.env) _ _ _ _ _ _ _ Hgsa).
  - apply (proj2 (blend_law Demo.env) _ _ _ _ _ _ _ Hgla).
Defined.

(** C10.  In every successful forward call of either attention class the
    argument of the output projection is the blended tensor cast to
    bfloat16 (and regrouped to [b n (h d)]): its dtype is bfloat16 whatever
    the dtype of the hidden states and of the two blended outputs. *)
Theorem output_projection_input_is_bfloat16 (E : Env) :
  (forall self hs mask pos pkv pe tr,
      GSA.forward E self hs mask pos pkv pe = Ok tr ->
      rearrange_merge_heads (to_dtype BFloat16 (GSA.blended E tr))
      = Ok (GSA.o_proj_input E tr)
      /\ dtype (GSA.o_proj_input E tr) = BFloat16
      /\ linear_forward (GSA.o_proj self) (GSA.o_proj_input E tr)
         = Ok (GSA.output E tr))
  /\ (forall self hs mask pos pkv pe tr,
      GLA.forward E self hs mask pos pkv pe = Ok tr ->
      rearrange_merge_heads (to_dtype BFloat16 (GLA.blended E tr))
      = Ok (GLA.o_proj_input E tr)
      /\ dtype (GLA.o_proj_input E tr) = BFloat16
      /\ linear_forward (GLA.o_proj self) (GLA.o_proj_input E tr)
         = Ok (GLA.output E tr)).
Proof.
  split; intros self hs mask pos pkv pe tr H.
  - apply gsa_paths in H as (last & q_len & _ & _ & _ & _ & _ & Hpre & Hout).
    split; [exact Hpre |]. split; [| exact Hout].
    eapply pre_projection_dtype; eassumption.
  - apply gla_paths in H
      as (last & bsz & q_len & f & _ & _ & _ & _ & _ & _ & Hpre & Hout).
    split; [exact Hpre |]. split; [| exact Hout].
    eapply pre_projection_dtype; eassumption.
Qed.

Lemma output_projection_input_is_bfloat16_witness :
  exists tr_gsa tr_gla,
    GSA.forward Demo.env Demo.gsa_layer (Demo.hidden 3 1) None None
      (Some Demo.empty_cache) None = Ok tr_gsa
    /\ GLA.forward Demo.env Demo.gla_layer (Demo.hidden 3 1) None None
         (Some Demo.empty_cache) None = Ok tr_gla
    /\ dtype (GSA.o_proj_input Demo.env tr_gsa) = BFloat16
    /\ dtype (GLA.o_proj_input Demo.env tr_gla) = BFloat16.
Proof.
  destruct (is_ok_inv _ demo_gsa_prefill) as [tr_gsa Hgsa].
  destruct (is_ok_inv _ demo_gla_prefill) as [tr_gla Hgla].
  exists tr_gsa, tr_gla.
  split; [exact Hgsa |]. split; [exact Hgla |].
  split.
  - apply (proj1 (output_projection_input_is_bfloat16 Demo.env)
             _ _ _ _ _ _ _ Hgsa).
  - apply (proj2 (output_projection_input_is_bfloat16 Demo.env)
             _ _ _ _ _ _ _ Hgla).
Defined.

(** ** Mode selection (claim C2) *)

(** C2.  In every successful forward call of either attention class, with
    [n] the number of positions on the sequence axis of the projected
    queries (for the linear-attention class, [q_len] of the hidden states):
    in training mode or for [n > 1] the chunked kernel is the one that is
    run, and for [n = 1] outside training mode the fused single-step kernel
    is the one that is run; the kernel run is always one of these two, and
    its result is the recurrent output and state of the call. *)
Theorem recurrent_mode_selection (E : Env) :
  (forall self hs mask pos pkv pe tr,
      GSA.forward E self hs mask pos pkv pe = Ok tr ->
      exists q0 b n f last,
        linear_forward (GSA.q_proj self) hs = Ok q0
        /\ shape q0 = [b; n; f]
        /\ shape_at_neg (GSA.rec_q E tr) 2 = Ok n
        /\ (GSA.training self = true \/ 1 < n -> GSA.mode E tr = Chunked)
        /\ (GSA.training self = false /\ n = 1 ->
            GSA.mode E tr = FusedRecurrent)
        /\ (GSA.mode E tr = Chunked ->
            (GSA.training self = true \/ 1 < n)
            /\ chunk_gsa E (GSA.rec_q E tr) (GSA.rec_k E tr)
                 (GSA.rec_v E tr) (GSA.rec_s E tr) (GSA.rec_g E tr) 1 last
               = Ok (GSA.rec_out E tr, GSA.new_state E tr))
        /\ (GSA.mode E tr = FusedRecurrent ->
            (GSA.training self = false /\ n <= 1)
            /\ fused_recurrent_gsa E (GSA.rec_q E tr) (GSA.rec_k E tr)
                 (GSA.rec_v E tr) (GSA.rec_s E tr) (GSA.rec_g E tr) 1 last
               = Ok (GSA.rec_out E tr, GSA.new_state E tr)))
  /\ (forall self hs mask pos pkv pe tr,
      GLA.forward E self hs mask pos pkv pe = Ok tr ->
      exists bsz q_len f last,
        shape hs = [bsz; q_len; f]
        /\ shape_at_neg (GLA.rec_q E tr) 2 = Ok q_len
        /\ (GLA.training self = true \/ 1 < q_len ->
            GLA.mode E tr = Chunked)
        /\ (GLA.training self = false /\ q_len = 1 ->
            GLA.mode E tr = FusedRecurrent)
        /\ (GLA.mode E tr = Chunked ->
            (GLA.training self = true \/ 1 < q_len)
            /\ fused_chunk_gla E (GLA.rec_q E tr) (GLA.rec_k E tr)
                 (GLA.rec_v E tr) (GLA.rec_g E tr) 1 last
               = Ok (GLA.rec_out E tr, GLA.new_state E tr))
        /\ (GLA.mode E tr = FusedRecurrent ->
            (GLA.training self = false /\ q_len = 1)
            /\ fused_recurrent_gla E (GLA.rec_q E tr) (GLA.rec_k E tr)
                 (GLA.rec_v E tr) (GLA.rec_g E tr) 1 last
               = Ok (GLA.rec_out E tr, GLA.new_state E tr))).
Proof.
  split; intros self hs mask pos pkv pe tr H.
  - destruct (gsa_rec_q_shape E _ _ _ _ _ _ _ H)
      as (q0 & b & n & f & Hq & Hs & Hrs).
    apply gsa_paths in H as (last & q_len & Hmode & Hrec & _).
    pose proof (shape_at_neg_4d _ _ _ _ _ Hrs) as Hn.
    destruct (select_mode_spec _ _ _ _ Hmode Hn) as [Hc Hf].
    exists q0, b, n, f, last.
    split; [exact Hq |]. split; [exact Hs |]. split; [exact Hn |].
    split; [apply Hc |]. split; [intros [? ->]; apply Hf; auto |].
    split; intros Hm; rewrite Hm in Hrec; (split; [| exact Hrec]).
    + now apply Hc.
    + now apply Hf.
  - destruct (gla_rec_q_shape E _ _ _ _ _ _ _ H)
      as (q0 & bsz & q_len & f & Hq & Hs & Hne & Hrs).
    apply gla_paths in H
      as (last & bsz' & q_len' & f' & _ & Hmode & Hrec & _).
    pose proof (shape_at_neg_4d _ _ _ _ _ Hrs) as Hn.
    destruct (select_mode_spec _ _ _ _ Hmode Hn) as [Hc Hf].
    exists bsz, q_len, f, last.
    split; [exact Hs |]. split; [exact Hn |].
    split; [apply Hc |]. split; [intros [? ->]; apply Hf; auto |].
    split; intros Hm; rewrite Hm in Hrec; (split; [| exact Hrec]).
    + now apply Hc.
    + apply Hf in Hm as [? ?]. split; [assumption | lia].
Qed.

Lemma recurrent_mode_selection_witness :
  exists tr_prefill tr_decode tr_gla_prefill tr_gla_decode,
    GSA.forward Demo.env Demo.gsa_layer (Demo.hidden 3 1) None None
      (Some Demo.empty_cache) None = Ok tr_prefill
    /\ GSA.forward Demo.env (GSA.eval Demo.gsa_layer) (Demo.hidden 1 1)
         None None (Some Demo.empty_cache) None = Ok tr_decode
    /\ GLA.forward Demo.env Demo.gla_layer (Demo.hidden 3 1) None None
         (Some Demo.empty_cache) None = Ok tr_gla_prefill
    /\ GLA.forward Demo.env (GLA.eval Demo.gla_layer) (Demo.hidden 1 1)
         None None (Some Demo.empty_cache) None = Ok tr_gla_decode
    /\ GSA.mode Demo.env tr_prefill = Chunked
    /\ GSA.mode Demo.env tr_decode = FusedRecurrent
    /\ GLA.mode Demo.env tr_gla_prefill = Chunked
    /\ GLA.mode Demo.env tr_gla_decode = FusedRecurrent.
Proof.
  destruct (is_ok_inv _ demo_gsa_prefill) as [tr1 H1].
  destruct (is_ok_inv _ demo_gsa_decode) as [tr2 H2].
  destruct (is_ok_inv _ demo_gla_prefill) as [tr3 H3].
  destruct (is_ok_inv _ demo_gla_decode) as [tr4 H4].
  exists tr1, tr2, tr3, tr4.
  do 4 (split; [assumption |]).
  repeat split.
  - destruct (proj1 (recurrent_mode_selection Demo.env) _ _ _ _ _ _ _ H1)
      as (q0 & b & n & f & last & _ & _ & _ & Hc & _).
    apply Hc. left. reflexivity.
  - destruct (proj1 (recurrent_mode_selection Demo.env) _ _ _ _ _ _ _ H2)
      as (q0 & b & n & f & last & Hq & Hs & _ & _ & Hf & _).
    apply Hf. split; [reflexivity |].
    injection Hq as <-. simpl in Hs. now injection Hs as _ <- _.
  - destruct (proj2 (recurrent_mode_selection Demo.env) _ _ _ _ _ _ _ H3)
      as (bsz & q_len & f & last & _ & _ & Hc & _).
    apply Hc. left. reflexivity.
  - destruct (proj2 (recurrent_mode_selection Demo.env) _ _ _ _ _ _ _ H4)
      as (bsz & q_len & f & last & Hs & _ & _ & Hf & _).
    apply Hf. split; [reflexivity |].
    simpl in Hs. now injection Hs as _ <- _.
Defined.

(** ** The cache write (claim C3) *)

(** C3, as the code has it.  In every successful forward call of either
    attention class with a cache, the new recurrent state is stored under
    the layer's index and the other entries are kept, but the offset handed
    to the cache is [q.shape[1]] of a query tensor laid out as
    [b h n d]: the token counter advances by the number of query heads,
    not by the number [n] of tokens of the call. *)
Theorem cache_offset_is_head_count (E : Env) :
  (forall self hs mask pos c pe tr,
      GSA.forward E self hs mask pos (Some c) pe = Ok tr ->
      exists l c' q0 b n f,
        GSA.layer_idx self = Some l
        /\ GSA.cache_out E tr = Some c'
        /\ states c' !! l = Some (GSA.new_state E tr)
        /\ (forall l', l <> l' -> states c' !! l' = states c !! l')
        /\ linear_forward (GSA.q_proj self) hs = Ok q0
        /\ shape q0 = [b; n; f]
        /\ shape (GSA.rec_q E tr)
           = [b; GSA.num_heads self; n; f / GSA.num_heads self]
        /\ seen_tokens c' = seen_tokens c + GSA.num_heads self)
  /\ (forall self hs mask pos c pe tr,
      GLA.forward E self hs mask pos (Some c) pe = Ok tr ->
      exists l c' bsz q_len f heads,
        GLA.layer_idx self = Some l
        /\ GLA.cache_out E tr = Some c'
        /\ states c' !! l = Some (GLA.new_state E tr)
        /\ (forall l', l <> l' -> states c' !! l' = states c !! l')
        /\ shape hs = [bsz; q_len; f]
        /\ shape (GLA.rec_q E tr) = [bsz; heads; q_len; GLA.head_dim self]
        /\ seen_tokens c' = seen_tokens c + heads).
Proof.
  split; intros self hs mask pos c pe tr H.
  - destruct (gsa_rec_q_shape E _ _ _ _ _ _ _ H)
      as (q0 & b & n & f & Hq & Hs & Hrs).
    apply gsa_paths in H as (last & q_len & _ & _ & Hupd & _).
    apply update_cache_some in Hupd as (l & offset & Hl & Hoff & Hc').
    rewrite (shape_at_1_4d _ _ _ _ _ Hrs) in Hoff. injection Hoff as <-.
    exists l, (cache_update c (GSA.new_state E tr) l (GSA.num_heads self)),
      q0, b, n, f.
    split; [exact Hl |]. split; [now symmetry |].
    split; [apply cache_update_lookup |].
    split; [intros l' Hne; now apply cache_update_other |].
    auto.
  - destruct (gla_rec_q_shape E _ _ _ _ _ _ _ H)
      as (q0 & bsz & q_len & f & Hq & Hs & Hne & Hrs).
    apply gla_paths in H
      as (last & bsz' & q_len' & f' & _ & _ & _ & Hupd & _).
    apply update_cache_some in Hupd as (l & offset & Hl & Hoff & Hc').
    rewrite (shape_at_1_4d _ _ _ _ _ Hrs) in Hoff. injection Hoff as <-.
    exists l,
      (cache_update c (GLA.new_state E tr) l
         (numel q0 / (bsz * q_len * GLA.head_dim self))),
      bsz, q_len, f, (numel q0 / (bsz * q_len * GLA.head_dim self)).
    split; [exact Hl |]. split; [now symmetry |].
    split; [apply cache_update_lookup |].
    split; [intros l' Hne'; now apply cache_update_other |].
    auto.
Qed.

(** Three new tokens through the two-head demonstration layers: the token
    counter of a fresh cache ends at 2. *)
Lemma cache_offset_is_head_count_witness :
  exists tr_gsa c_gsa tr_gla c_gla,
    GSA.forward Demo.env Demo.gsa_layer (Demo.hidden 3 1) None None
      (Some Demo.empty_cache) None = Ok tr_gsa
    /\ shape_at (Demo.hidden 3 1) 1 = Ok 3
    /\ GSA.cache_out Demo.env tr_gsa = Some c_gsa
    /\ seen_tokens c_gsa = 2
    /\ GLA.forward Demo.env Demo.gla_layer (Demo.hidden 3 1) None None
         (Some Demo.empty_cache) None = Ok tr_gla
    /\ GLA.cache_out Demo.env tr_gla = Some c_gla
    /\ seen_tokens c_gla = 2.
Proof.
  destruct (is_ok_inv _ demo_gsa_prefill) as [tr_gsa Hgsa].
  destruct (is_ok_inv _ demo_gla_prefill) as [tr_gla Hgla].
  destruct (proj1 (cache_offset_is_head_count Demo.env) _ _ _ _ _ _ _ Hgsa)
    as (l & c_gsa & q0 & b & n & f & _ & Hc1 & _ & _ & _ & _ & _ & Hseen1).
  destruct (proj2 (cache_offset_is_head_count Demo.env) _ _ _ _ _ _ _ Hgla)
    as (l' & c_gla & bsz & q_len & f' & heads & _ & Hc2 & _ & _ & Hs & Hrs
        & Hseen2).
  exists tr_gsa, c_gsa, tr_gla, c_gla.
  split; [exact Hgsa |]. split; [reflexivity |].
  split; [exact Hc1 |]. split; [exact Hseen1 |].
  split; [exact Hgla |]. split; [exact Hc2 |].
  rewrite Hseen2. simpl.
  destruct (gla_rec_q_shape Demo.env _ _ _ _ _ _ _ Hgla)
    as (q0' & bsz' & q_len' & f'' & Hq' & Hs' & _ & Hrs').
  rewrite Hrs in Hrs'. injection Hrs' as _ -> _.
  injection Hq' as <-. simpl in Hs'. injection Hs' as <- <- _.
  reflexivity.
Defined.

(** ** Construction (claim C4) *)

Lemma floordiv_ok a b : b <> 0 -> floordiv a b = Ok (a / b).
Proof.
  intros Hb. unfold floordiv.
  destruct (b =? 0) eqn:E0; [apply Nat.eqb_eq in E0; contradiction |].
  reflexivity.
Qed.

Lemma mul_div_exact_iff a b : b <> 0 -> (a / b * b = a <-> a mod b = 0).
Proof.
  intros Hb. pose proof (Nat.div_mod a b Hb) as Hdm. lia.
Qed.

(** C4, as stated, fails on both of its conditions.  Four query heads over
    three key/value heads are accepted by both constructors, with one group
    per key/value head; and the slot-attention constructor accepts
    [hidden_size = 10] with four query heads, of configured width 16
    (4 * 16 = 64) as well as of the derived width 10 // 4 = 2 (4 * 2 = 8). *)
Lemma violating_configurations_accepted :
  LigerQwen2GLAConfig.num_attention_heads Demo.gla_config_uneven_groups
    mod LigerQwen2GLAConfig.num_key_value_heads Demo.gla_config_uneven_groups
  <> 0
  /\ (exists m,
        GLA.__init__ Demo.env Demo.gla_config_uneven_groups (Some 0) = Ok m
        /\ GLA.num_heads m * GLA.head_dim m = GLA.hidden_size m
        /\ GLA.num_key_value_groups m = 1)
  /\ LigerGSAConfig.num_attention_heads Demo.gsa_config_uneven_groups
       mod LigerGSAConfig.num_key_value_heads Demo.gsa_config_uneven_groups
     <> 0
  /\ (exists m,
        GSA.__init__ Demo.env Demo.gsa_config_uneven_groups (Some 0) = Ok m
        /\ GSA.num_heads m * GSA.head_dim m = GSA.hidden_size m
        /\ GSA.num_key_value_groups m = 1)
  /\ (exists m,
        GSA.__init__ Demo.env Demo.gsa_config_ragged_heads (Some 0) = Ok m
        /\ GSA.num_heads m * GSA.head_dim m = 64
        /\ GSA.hidden_size m = 10)
  /\ (exists m,
        GSA.__init__ Demo.env Demo.gsa_config_ragged_default (Some 0) = Ok m
        /\ GSA.num_heads m * GSA.head_dim m = 8
        /\ GSA.hidden_size m = 10).
Proof.
  split; [simpl; lia |].
  split; [eexists; split; [reflexivity | split; reflexivity] |].
  split; [simpl; lia |].
  split; [eexists; split; [reflexivity | split; reflexivity] |].
  split; eexists; (split; [reflexivity | split; reflexivity]).
Qed.

(** C4, amended.  With nonzero head counts, the constructor of the
    linear-attention class raises [ValueError] exactly when
    [head_dim * num_heads != hidden_size] for the derived
    [head_dim = hidden_size // num_heads], that is when [hidden_size] is
    not a multiple of [num_heads], and succeeds otherwise; the constructor
    of the slot-attention class has no check and succeeds on every
    configuration, with [head_dim] the configured width or, without one,
    [hidden_size // num_heads].  Neither constructor looks at
    [num_heads % num_key_value_heads]: the number of groups is the floor
    quotient. *)
Theorem construction_checks (E : Env) :
  (forall cfg idx,
      let H := LigerQwen2GLAConfig.hidden_size cfg in
      let N := LigerQwen2GLAConfig.num_attention_heads cfg in
      let K := LigerQwen2GLAConfig.num_key_value_heads cfg in
      N <> 0 -> K <> 0 ->
      (H / N * N <> H -> GLA.__init__ E cfg idx = Err ValueError)
      /\ (H / N * N <> H <-> H mod N <> 0)
      /\ (H / N * N = H ->
          exists m,
            GLA.__init__ E cfg idx = Ok m
            /\ GLA.hidden_size m = H
            /\ GLA.num_heads m = N
            /\ GLA.head_dim m = H / N
            /\ GLA.num_key_value_heads m = K
            /\ GLA.num_key_value_groups m = N / K))
  /\ (forall cfg idx,
      let H := LigerGSAConfig.hidden_size cfg in
      let N := LigerGSAConfig.num_attention_heads cfg in
      let K := LigerGSAConfig.num_key_value_heads cfg in
      let D := default (H / N) (LigerGSAConfig.head_dim cfg) in
      N <> 0 -> K <> 0 ->
      exists m,
        GSA.__init__ E cfg idx = Ok m
        /\ GSA.hidden_size m = H
        /\ GSA.num_heads m = N
        /\ GSA.head_dim m = D
        /\ GSA.num_key_value_heads m = K
        /\ GSA.num_key_value_groups m = N / K).
Proof.
  split.
  - intros cfg idx H N K HN HK.
    split; [| split].
    + intros Hne. unfold GLA.__init__, rbind.
      fold H N K. rewrite (floordiv_ok _ _ HN), (floordiv_ok _ _ HK).
      destruct (H / N * N =? H) eqn:Heq; [| reflexivity].
      apply Nat.eqb_eq in Heq. contradiction.
    + now rewrite mul_div_exact_iff.
    + intros Heq. unfold GLA.__init__, rbind.
      fold H N K. rewrite (floordiv_ok _ _ HN), (floordiv_ok _ _ HK).
      apply Nat.eqb_eq in Heq. rewrite Heq. simpl.
      eexists. split; [reflexivity |]. repeat split.
  - intros cfg idx H N K D HN HK.
    unfold GSA.__init__, rbind.
    fold H N K. rewrite (floordiv_ok _ _ HN), (floordiv_ok _ _ HK).
    eexists. split; [reflexivity |]. repeat split.
Qed.

(** Ten hidden units over four heads: the linear-attention constructor
    raises, the slot-attention constructor builds a module whose heads span
    64 units. *)
Lemma construction_checks_witness :
  GLA.__init__ Demo.env Demo.gla_config_ragged_heads (Some 0)
  = Err ValueError
  /\ (exists m,
        GLA.__init__ Demo.env Demo.gla_config_uneven_groups (Some 0) = Ok m
        /\ GLA.num_key_value_groups m = 4 / 3)
  /\ (exists m,
        GSA.__init__ Demo.env Demo.gsa_config_ragged_heads (Some 0) = Ok m
        /\ GSA.hidden_size m = 10
        /\ GSA.num_heads m = 4
        /\ GSA.head_dim m = 16).
Proof.
  split; [| split].
  - apply (proj1 (construction_checks Demo.env)
             Demo.gla_config_ragged_heads (Some 0)); simpl; lia.
  - destruct (proj1 (construction_checks Demo.env)
                Demo.gla_config_uneven_groups (Some 0))
      as (_ & _ & Hok); [simpl; lia | simpl; lia |].
    destruct Hok as (m & Hm & _ & _ & _ & _ & Hg); [reflexivity |].
    exists m. split; [exact Hm | exact Hg].
  - destruct (proj2 (construction_checks Demo.env)
                Demo.gsa_config_ragged_heads (Some 0))
      as (m & Hm & Hh & Hn & Hd & _); [simpl; lia | simpl; lia |].
    exists m. split; [exact Hm |]. split; [exact Hh |].
    split; [exact Hn | exact Hd].
Defined.

(** ** Softmax over the feature axis *)

Lemma sum_upto_ext n f g :
  (forall j, j < n -> f j = g j) -> sum_upto n f = sum_upto n g.
Proof.
  unfold sum_upto. intros H.
  assert (Hin : forall j, In j (seq 0 n) -> f j = g j).
  { intros j Hj. apply in_seq in Hj. apply H. lia. }
  induction (seq 0 n) as [|a l IH]; simpl; [reflexivity |].
  rewrite Hin by now left. rewrite IH; [reflexivity |].
  intros j Hj. apply Hin. now right.
Qed.

Lemma sum_upto_div n f c :
  sum_upto n (fun j => (f j / c)%R) = (sum_upto n f / c)%R.
Proof.
  unfold sum_upto. induction (seq 0 n) as [|a l IH]; simpl.
  - unfold Rdiv. now rewrite Rmult_0_l.
  - rewrite IH. unfold Rdiv. now rewrite Rmult_plus_distr_r.
Qed.

Lemma sum_upto_exp_pos n f : 0 < n -> (0 < sum_upto n (fun j => exp (f j)))%R.
Proof.
  unfold sum_upto. intros Hn.
  assert (Hnn : forall l : list nat,
             (0 <= foldr (fun j acc => (exp (f j) + acc)%R) 0%R l)%R).
  { induction l as [|a l IH]; simpl; [lra |].
    pose proof (exp_pos (f a)). lra. }
  destruct n as [|n]; [lia |].
  change (seq 0 (S n)) with (0 :: seq 1 n). simpl.
  pose proof (exp_pos (f 0)). specialize (Hnn (seq 1 n)). lra.
Qed.

Lemma rev_set_last idx j : rev (set_last idx j) = j :: rev (removelast idx).
Proof. unfold set_last. now rewrite rev_app_distr. Qed.

Lemma rev_last_removelast (idx : Index) :
  idx <> [] -> rev idx = List.last idx 0 :: rev (removelast idx).
Proof.
  intros Hne.
  rewrite (app_removelast_last 0 Hne) at 1.
  now rewrite rev_app_distr.
Qed.

Lemma in_bounds_set_last sh idx d rest j :
  rev sh = d :: rest -> in_bounds sh idx = true -> j < d ->
  in_bounds sh (set_last idx j) = true.
Proof.
  intros Hsh Hb Hj.
  rewrite <- in_bounds_rev in *. rewrite rev_set_last.
  assert (Hne : idx <> []).
  { intros ->. rewrite Hsh in Hb. discriminate. }
  rewrite (rev_last_removelast _ Hne), Hsh in Hb.
  rewrite Hsh. simpl in *.
  apply andb_prop in Hb as [_ Hb]. rewrite Hb.
  apply Nat.ltb_lt in Hj. now rewrite Hj.
Qed.

Lemma in_bounds_last_lt sh idx d rest :
  rev sh = d :: rest -> in_bounds sh idx = true -> 0 < d.
Proof.
  intros Hsh Hb. rewrite <- in_bounds_rev, Hsh in Hb.
  destruct (rev idx) as [|i ridx]; [discriminate |].
  simpl in Hb. apply andb_prop in Hb as [Hi _].
  apply Nat.ltb_lt in Hi. lia.
Qed.

Lemma set_last_set_last idx j j' :
  set_last (set_last idx j) j' = set_last idx j'.
Proof. unfold set_last. now rewrite removelast_last. Qed.

Lemma sum_upto_term_le n f i :
  (forall j, j < n -> (0 <= f j)%R) -> i < n -> (f i <= sum_upto n f)%R.
Proof.
  unfold sum_upto. intros Hf Hi.
  assert (Hin : In i (seq 0 n)) by (apply in_seq; lia).
  assert (Hall : forall j, In j (seq 0 n) -> (0 <= f j)%R).
  { intros j Hj. apply in_seq in Hj. apply Hf. lia. }
  induction (seq 0 n) as [|a l IH]; [contradiction |].
  assert (Hl : (0 <= foldr (fun j acc => (f j + acc)%R) 0%R l)%R).
  { clear -Hall. induction l as [|x l IH]; simpl; [lra |].
    assert (0 <= f x)%R by (apply Hall; right; now left).
    assert (0 <= foldr (fun j acc => (f j + acc)%R) 0%R l)%R.
    { apply IH. intros j [-> | Hj]; apply Hall; [now left | right; now right]. }
    lra. }
  simpl. destruct Hin as [-> | Hin]; [lra |].
  assert (0 <= f a)%R by (apply Hall; now left).
  assert (f i <= foldr (fun j acc => (f j + acc)%R) 0%R l)%R.
  { apply IH; [exact Hin |]. intros j Hj. apply Hall. now right. }
  lra.
Qed.

Lemma set_last_last (idx : Index) : idx <> [] ->
  set_last idx (List.last idx 0) = idx.
Proof.
  intros Hne. unfold set_last. symmetry. now apply app_removelast_last.
Qed.

Lemma in_bounds_last_index sh idx d rest :
  rev sh = d :: rest -> in_bounds sh idx = true ->
  idx <> [] /\ List.last idx 0 < d.
Proof.
  intros Hsh Hb.
  assert (Hne : idx <> []).
  { intros ->. rewrite <- in_bounds_rev, Hsh in Hb. discriminate. }
  split; [exact Hne |].
  rewrite <- in_bounds_rev, (rev_last_removelast _ Hne), Hsh in Hb.
  simpl in Hb. apply andb_prop in Hb as [Hi _]. now apply Nat.ltb_lt in Hi.
Qed.

(** The softmax quotients of a row: positive, at most 1, and summing
    to 1. *)
Lemma softmax_quotient_row t d rest idx :
  rev (shape t) = d :: rest -> in_bounds (shape t) idx = true ->
  (0 < softmax_quotient t d idx <= 1)%R
  /\ sum_upto d (fun j => softmax_quotient t d (set_last idx j)) = 1%R.
Proof.
  intros Hsh Hb. unfold softmax_quotient.
  pose proof (in_bounds_last_lt _ _ _ _ Hsh Hb) as Hd.
  pose proof (sum_upto_exp_pos d (fun j => elem t (set_last idx j)) Hd)
    as Hpos.
  destruct (in_bounds_last_index _ _ _ _ Hsh Hb) as [Hne Hlast].
  split; [split |].
  - apply Rdiv_lt_0_compat; [apply exp_pos | exact Hpos].
  - apply Rmult_le_reg_r
      with (sum_upto d (fun j => exp (elem t (set_last idx j))));
      [exact Hpos |].
    unfold Rdiv. rewrite Rmult_assoc, Rinv_l by lra.
    rewrite Rmult_1_r, Rmult_1_l.
    rewrite <- (set_last_last idx Hne) at 1.
    apply (sum_upto_term_le d
             (fun j => exp (elem t (set_last idx j)))); [| exact Hlast].
    intros j _. left. apply exp_pos.
  - rewrite (sum_upto_ext d _
               (fun j => (exp (elem t (set_last idx j))
                          / sum_upto d
                              (fun j' => exp (elem t (set_last idx j'))))%R)).
    + rewrite sum_upto_div. apply Rdiv_diag. now apply Rgt_not_eq.
    + intros j Hj. f_equal. apply sum_upto_ext. intros j' _.
      now rewrite set_last_set_last.
Qed.

(** The values of a softmax over the last axis: each is its quotient
    rounded to the dtype of the tensor, and lies in [0, 1]. *)
Lemma F_softmax_last_values t t' d rest :
  F_softmax_last t = Ok t' -> rev (shape t) = d :: rest ->
  forall idx,
    in_bounds (shape t) idx = true ->
    elem t' idx = round_to (dtype t) (softmax_quotient t d idx)
    /\ (0 <= elem t' idx <= 1)%R.
Proof.
  unfold F_softmax_last. intros Hsm Hsh.
  destruct (is_floating (dtype t)); [| discriminate].
  rewrite Hsh in Hsm. injection Hsm as <-.
  intros idx Hb.
  rewrite elem_tabulate_in by exact Hb.
  split; [reflexivity |].
  apply round_to_unit.
  destruct (softmax_quotient_row t d rest idx Hsh Hb) as [Hq _]. lra.
Qed.

(** ** Normalised queries and keys of the linear-attention class (claim C9) *)

(** The rounding of one third to bfloat16. *)
Lemma round_bfloat16_third : round_to BFloat16 (1 / 3) = (171 / 512)%R.
Proof.
  unfold round_to. cbn [format_of].
  rewrite (round_float_eval _ _ (-2) 171); cbn [prec emin].
  - change (Z.max (-2 - 8 + 1) (-133)) with (-9)%Z. simpl. lra.
  - rewrite Rabs_pos_eq by lra. simpl. lra.
  - change (Z.max (-2 - 8 + 1) (-133)) with (-9)%Z. simpl. lra.
Qed.

(** The query tensor of the three-wide demonstration layer before the
    softmax: every feature is the sum of the three hidden features. *)
Lemma demo_gla_three_raw_q c mask pos pkv pe tr :
  GLA.forward Demo.env Demo.gla_layer_three (Demo.hidden_three 2 c) mask pos
    pkv pe = Ok tr ->
  shape (GLA.raw_q Demo.env tr) = [1; 1; 2; 3]
  /\ dtype (GLA.raw_q Demo.env tr) = BFloat16
  /\ forall j, j < 3 ->
       elem (GLA.raw_q Demo.env tr) [0; 0; 0; j] = (c + (c + (c + 0)))%R.
Proof.
  intros H.
  apply gla_forward_inv in H
    as (last & bsz & q_len & f & q0 & k0 & v0 & g0 & _ & Hs & Hq & _ & _
        & _ & H).
  apply gla_attend_inv in H
    as (k4 & v4 & g4 & g4r & q' & k' & rq & rk & Hq4 & _).
  cbn in Hs. injection Hs as <- <- <-.
  cbn in Hq. injection Hq as <-.
  unfold GLA.split_heads, view_heads, transpose12, rbind in Hq4.
  cbn in Hq4. injection Hq4 as Hq4. rewrite <- Hq4.
  split; [reflexivity |]. split; [reflexivity |].
  intros [|[|[|j]]] Hj; try lia; cbn; lra.
Qed.

Lemma demo_gla_three_prefill :
  is_ok (GLA.forward Demo.env Demo.gla_layer_three (Demo.hidden_three 2 1)
           None None None None) = true.
Proof. reflexivity. Qed.

(** C9, as the claim states it, fails: in bfloat16 a query row of three
    equal features is normalised to three times [171/512], the rounding of
    one third, and the row handed to the recurrent kernel sums to
    [513/512 = 1.001953125]. *)
Lemma normalised_row_sum_exceeds_one :
  exists tr,
    GLA.forward Demo.env Demo.gla_layer_three (Demo.hidden_three 2 1) None
      None None None = Ok tr
    /\ in_bounds (shape (GLA.rec_q Demo.env tr)) [0; 0; 0; 0] = true
    /\ sum_upto (GLA.head_dim Demo.gla_layer_three)
         (fun j => elem (GLA.rec_q Demo.env tr) (set_last [0; 0; 0; 0] j))
       = (513 / 512)%R
    /\ sum_upto (GLA.head_dim Demo.gla_layer_three)
         (fun j => elem (GLA.rec_q Demo.env tr) (set_last [0; 0; 0; 0] j))
       <> 1%R.
Proof.
  destruct (is_ok_inv _ demo_gla_three_prefill) as [tr H].
  exists tr. split; [exact H |].
  destruct (demo_gla_three_raw_q _ _ _ _ _ _ H) as (Hsh & Hdt & Hel).
  apply gla_forward_inv in H
    as (last & bsz & q_len & f & q0 & k0 & v0 & g0 & _ & _ & _ & _ & _
        & _ & H).
  apply gla_attend_inv in H
    as (k4 & v4 & g4 & g4r & q' & k' & rq & rk & _ & _ & _ & _ & _ & _ & _
        & Hsq & _ & _ & Hrq & _).
  pose proof (F_softmax_last_inv _ _ Hsq) as (_ & Hsh' & _).
  rewrite Hrq. unfold to_dtype; cbn [shape elem].
  rewrite Hsh', Hsh. split; [reflexivity |].
  assert (Hrow : forall j, j < 3 ->
             elem q' [0; 0; 0; j] = (171 / 512)%R).
  { intros j Hj.
    assert (Hb : in_bounds (shape (GLA.raw_q Demo.env tr)) [0; 0; 0; j] = true).
    { rewrite Hsh. destruct j as [|[|[|j]]]; try lia; reflexivity. }
    destruct (F_softmax_last_values _ _ 3 [2; 1; 1] Hsq
                ltac:(now rewrite Hsh) _ Hb) as [-> _].
    rewrite Hdt, <- round_bfloat16_third. f_equal.
    unfold softmax_quotient, sum_upto. cbn [seq foldr set_last removelast app].
    rewrite !Hel by lia.
    pose proof (exp_pos (1 + (1 + (1 + 0)))) as Hp.
    field. lra. }
  unfold sum_upto. cbn [GLA.head_dim Demo.gla_layer_three seq foldr set_last
                          removelast app].
  rewrite !Hrow by lia. split; lra.
Qed.

(** C9 (amended).  In every successful forward call of the linear-attention
    class, the query and key tensors handed to the recurrent kernel are the
    float32 copies of softmaxes over the last (head-dim) axis, taken in the
    dtype of the projections: every element is its softmax quotient
    [exp(x_i) / sum_j exp(x_j)] rounded to that dtype and lies in [0, 1],
    and the quotients of a per-position vector sum to 1 (the rounded
    elements need not).  The windowed path receives the rotary embedding of
    [raw_q] and [raw_k], the head-split (and, for the keys, group-repeated)
    projections bound to [sq], [sk] before the softmax is taken. *)
Theorem recurrent_inputs_normalised (E : Env) self hs mask pos pkv pe tr :
  GLA.forward E self hs mask pos pkv pe = Ok tr ->
  (exists q' k',
      F_softmax_last (GLA.raw_q E tr) = Ok q'
      /\ GLA.rec_q E tr = to_dtype Float32 q'
      /\ F_softmax_last (GLA.raw_k E tr) = Ok k'
      /\ GLA.rec_k E tr = to_dtype Float32 k')
  /\ (forall idx,
        in_bounds (shape (GLA.rec_q E tr)) idx = true ->
        elem (GLA.rec_q E tr) idx
        = round_to (dtype (GLA.raw_q E tr))
            (softmax_quotient (GLA.raw_q E tr) (GLA.head_dim self) idx)
        /\ (0 <= elem (GLA.rec_q E tr) idx <= 1)%R
        /\ sum_upto (GLA.head_dim self)
             (fun j => softmax_quotient (GLA.raw_q E tr) (GLA.head_dim self)
                         (set_last idx j)) = 1%R)
  /\ (forall idx,
        in_bounds (shape (GLA.rec_k E tr)) idx = true ->
        elem (GLA.rec_k E tr) idx
        = round_to (dtype (GLA.raw_k E tr))
            (softmax_quotient (GLA.raw_k E tr) (GLA.head_dim self) idx)
        /\ (0 <= elem (GLA.rec_k E tr) idx <= 1)%R
        /\ sum_upto (GLA.head_dim self)
             (fun j => softmax_quotient (GLA.raw_k E tr) (GLA.head_dim self)
                         (set_last idx j)) = 1%R)
  /\ (exists bsz q_len f q0 k0 k4,
        shape hs = [bsz; q_len; f]
        /\ linear_forward (GLA.q_proj self) hs = Ok q0
        /\ linear_forward (GLA.k_proj self) hs = Ok k0
        /\ GLA.split_heads bsz q_len (GLA.head_dim self) q0
           = Ok (GLA.raw_q E tr)
        /\ GLA.split_heads bsz q_len (GLA.head_dim self) k0 = Ok k4
        /\ repeat_kv k4 (GLA.num_key_value_groups self)
           = Ok (GLA.raw_k E tr))
  /\ (exists rq rk,
        apply_rotary_pos_emb E (GLA.raw_q E tr) (GLA.raw_k E tr)
          (fst (GLA.cos_sin E tr)) (snd (GLA.cos_sin E tr))
        = Ok (rq, rk)
        /\ (GLA.win_q E tr, GLA.win_k E tr, GLA.win_v E tr)
           = cast_back
               (target_dtype E
                  (LigerQwen2GLAConfig._pre_quantization_dtype
                     (GLA.config self))
                  (weight_dtype (GLA.q_proj self)))
               rq rk (GLA.raw_v E tr)).
Proof.
  intros H.
  apply gla_forward_inv in H
    as (last & bsz & q_len & f & q0 & k0 & v0 & g0 & _ & Hs & Hq & Hk & _
        & _ & H).
  apply gla_attend_inv in H
    as (k4 & v4 & g4 & g4r & q' & k' & rq & rk & Hq4 & Hk4 & Hk4r & _ & _
        & _ & _ & Hsq & Hsk & _ & Hrq & Hrk & _ & _ & _ & _ & _ & _ & Hrot
        & Hcast & _).
  pose proof (split_heads_inv _ _ _ _ _ Hq4) as (_ & _ & _ & Hshq & _).
  pose proof (split_heads_inv _ _ _ _ _ Hk4) as (_ & _ & _ & Hshk4 & _).
  pose proof (repeat_kv_inv _ _ _ Hk4r)
    as (b & kvh & s & d & Hshk4' & Hshk & _).
  rewrite Hshk4 in Hshk4'. injection Hshk4' as <- <- <- <-.
  pose proof (F_softmax_last_inv _ _ Hsq) as (_ & Hshq' & _).
  pose proof (F_softmax_last_inv _ _ Hsk) as (_ & Hshk' & _).
  split; [exists q', k'; auto |].
  split; [| split; [| split]].
  - intros idx Hb. rewrite Hrq in *. unfold to_dtype in *; simpl in *.
    rewrite Hshq' in Hb.
    assert (Hrev : rev (shape (GLA.raw_q E tr))
                   = GLA.head_dim self
                     :: [q_len;
                         numel q0 / (bsz * q_len * GLA.head_dim self); bsz])
      by now rewrite Hshq.
    destruct (F_softmax_last_values _ _ _ _ Hsq Hrev idx Hb) as [Hel Hr].
    split; [exact Hel |]. split; [exact Hr |].
    apply (softmax_quotient_row _ _ _ _ Hrev Hb).
  - intros idx Hb. rewrite Hrk in *. unfold to_dtype in *; simpl in *.
    rewrite Hshk' in Hb.
    assert (Hrev : rev (shape (GLA.raw_k E tr))
                   = GLA.head_dim self
                     :: [q_len;
                         numel k0 / (bsz * q_len * GLA.head_dim self)
                         * GLA.num_key_value_groups self; bsz])
      by now rewrite Hshk.
    destruct (F_softmax_last_values _ _ _ _ Hsk Hrev idx Hb) as [Hel Hr].
    split; [exact Hel |]. split; [exact Hr |].
    apply (softmax_quotient_row _ _ _ _ Hrev Hb).
  - exists bsz, q_len, f, q0, k0, k4. auto 10.
  - exists rq, rk. auto.
Qed.

Lemma recurrent_inputs_normalised_witness :
  exists tr,
    GLA.forward Demo.env Demo.gla_layer (Demo.hidden 3 1) None None
      (Some Demo.empty_cache) None = Ok tr
    /\ (exists q' k',
          F_softmax_last (GLA.raw_q Demo.env tr) = Ok q'
          /\ GLA.rec_q Demo.env tr = to_dtype Float32 q'
          /\ F_softmax_last (GLA.raw_k Demo.env tr) = Ok k'
          /\ GLA.rec_k Demo.env tr = to_dtype Float32 k').
Proof.
  destruct (is_ok_inv _ demo_gla_prefill) as [tr H].
  exists tr. split; [exact H |].
  apply (recurrent_inputs_normalised Demo.env _ _ _ _ _ _ _ H).
Defined.

(** ** Left-padding (claim C7) *)

(** The masked product, for a mask that covers at least the [n] positions
    of the tensor: position [i] of batch row [ib] is multiplied by the mask
    entry [len - n + i] of that row. *)
Lemma masked_eq m t t' b h n d len :
  masked m t = Ok t' ->
  shape t = [b; h; n; d] -> shape m = [b; len] -> n <= len ->
  t' = tabulate [b; h; n; d] (dtype t)
         (fun idx =>
            match idx with
            | [ib; ih; i; id] =>
                (elem t [ib; ih; i; id] * elem m [ib; (len - n + i)%nat])%R
            | _ => 0%R
            end).
Proof.
  unfold masked, rbind, shape_at, mask_last, mul_.
  intros Hm Hst Hsm Hle. rewrite Hst in Hm. simpl in Hm. rewrite Hsm in Hm.
  cbn [shape dtype tabulate] in Hm.
  destruct (broadcast_shapes _ _) as [sh|]; [| discriminate].
  destruct (decide (sh = [b; h; n; d])); [| discriminate].
  destruct (category (dtype m) <=? category (dtype t)); [| discriminate].
  injection Hm as <-.
  apply tabulate_ext. intros idx Hb.
  destruct idx as [|ib [|ih [|i [|id [|? ?]]]]]; simpl in Hb;
    try discriminate Hb;
    try (rewrite !andb_false_r in Hb; discriminate Hb).
  f_equal.
  apply andb_prop in Hb as [Hib Hb]. apply andb_prop in Hb as [_ Hb].
  apply andb_prop in Hb as [Hi _].
  apply Nat.ltb_lt in Hib. apply Nat.ltb_lt in Hi.
  assert (Hn0 : (n =? 0) = false) by (apply Nat.eqb_neq; lia).
  rewrite Hn0.
  replace (len - (len - n)) with n by lia.
  unfold bcast_index. cbn [rev app zip_with].
  assert (Hab : bcast_axis b ib = ib).
  { unfold bcast_axis. destruct (b =? 1) eqn:Hb1; [| reflexivity].
    apply Nat.eqb_eq in Hb1. lia. }
  assert (Han : bcast_axis n i = i).
  { unfold bcast_axis. destruct (n =? 1) eqn:Hn1; [| reflexivity].
    apply Nat.eqb_eq in Hn1. lia. }
  rewrite Hab, Han. cbn [bcast_axis Nat.eqb].
  apply Nat.ltb_lt in Hib. apply Nat.ltb_lt in Hi.
  rewrite Hib, Hi. reflexivity.
Qed.

(** Whether [masked] succeeds depends on the layout and dtype only. *)
Lemma masked_status m t1 t2 :
  shape t1 = shape t2 -> dtype t1 = dtype t2 ->
  match masked m t1, masked m t2 with
  | Ok _, Ok _ => True
  | Err e1, Err e2 => e1 = e2
  | _, _ => False
  end.
Proof.
  intros Hs Hd. unfold masked, rbind, shape_at, mul_.
  rewrite Hs, Hd.
  destruct (shape t2 !! 2) as [n|]; [| reflexivity].
  destruct (mask_last n m) as [m4|]; [| reflexivity].
  destruct (broadcast_shapes _ _) as [sh|]; [| reflexivity].
  destruct (decide (sh = shape t2)); [| reflexivity].
  destruct (category (dtype m4) <=? category (dtype t2)); [exact I | reflexivity].
Qed.

(** Two tensors of one layout that agree wherever the mask is nonzero have
    the same masked product. *)
Lemma masked_agree m t1 t2 b h n d len :
  shape t1 = [b; h; n; d] -> shape t2 = [b; h; n; d] ->
  dtype t1 = dtype t2 ->
  shape m = [b; len] -> n <= len ->
  (forall ib ih i id,
      in_bounds [b; h; n; d] [ib; ih; i; id] = true ->
      elem m [ib; (len - n + i)%nat] <> 0%R ->
      elem t1 [ib; ih; i; id] = elem t2 [ib; ih; i; id]) ->
  masked m t1 = masked m t2.
Proof.
  intros Hs1 Hs2 Hd Hsm Hle Hagree.
  pose proof (masked_status m t1 t2 ltac:(congruence) Hd) as Hst.
  destruct (masked m t1) as [t1'|e1] eqn:H1,
           (masked m t2) as [t2'|e2] eqn:H2; try contradiction.
  - rewrite (masked_eq _ _ _ _ _ _ _ _ H1 Hs1 Hsm Hle).
    rewrite (masked_eq _ _ _ _ _ _ _ _ H2 Hs2 Hsm Hle).
    rewrite Hd. f_equal. apply tabulate_ext. intros idx Hb.
    destruct idx as [|ib [|ih [|i [|id [|? ?]]]]]; try reflexivity.
    destruct (Req_dec_T (elem m [ib; (len - n + i)%nat]) 0%R) as [Hz | Hnz].
    + rewrite Hz. now rewrite !Rmult_0_r.
    + f_equal. now apply Hagree.
  - now subst.
Qed.

Lemma rearrange_split_heads_status h t1 t2 :
  shape t1 = shape t2 ->
  match rearrange_split_heads h t1, rearrange_split_heads h t2 with
  | Ok _, Ok _ => True
  | Err e1, Err e2 => e1 = e2
  | _, _ => False
  end.
Proof.
  intros Hs. unfold rearrange_split_heads. rewrite Hs.
  destruct (shape t2) as [|b [|n [|f [|? ?]]]]; try reflexivity.
  destruct ((h =? 0) || negb (f mod h =? 0)); [reflexivity | exact I].
Qed.

Lemma repeat_kv_status t1 t2 n_rep :
  shape t1 = shape t2 ->
  match repeat_kv t1 n_rep, repeat_kv t2 n_rep with
  | Ok _, Ok _ => True
  | Err e1, Err e2 => e1 = e2
  | _, _ => False
  end.
Proof.
  intros Hs. unfold repeat_kv. rewrite Hs.
  destruct (shape t2) as [|b [|kvh [|s [|d [|? ?]]]]]; try reflexivity.
  destruct (n_rep =? 1); exact I.
Qed.

(** Head splitting and group repetition move position [i] of batch row [ib]
    to position [i] of batch row [ib]: agreement off the mask is kept. *)
Lemma value_heads_agree m v1 v2 b n f len kvh groups v1' v2' v1r v2r :
  shape v1 = [b; n; f] -> shape v2 = [b; n; f] -> dtype v1 = dtype v2 ->
  (forall ib i j,
      ib < b -> i < n -> j < f ->
      elem m [ib; len - n + i] <> 0%R ->
      elem v1 [ib; i; j] = elem v2 [ib; i; j]) ->
  rearrange_split_heads kvh v1 = Ok v1' ->
  rearrange_split_heads kvh v2 = Ok v2' ->
  repeat_kv v1' groups = Ok v1r ->
  repeat_kv v2' groups = Ok v2r ->
  shape v1r = [b; kvh * groups; n; f / kvh]
  /\ shape v2r = [b; kvh * groups; n; f / kvh]
  /\ dtype v1r = dtype v2r
  /\ forall ib ih i id,
       in_bounds [b; kvh * groups; n; f / kvh] [ib; ih; i; id] = true ->
       elem m [ib; len - n + i] <> 0%R ->
       elem v1r [ib; ih; i; id] = elem v2r [ib; ih; i; id].
Proof.
  intros Hs1 Hs2 Hd Hagree Hr1 Hr2 Hk1 Hk2.
  apply rearrange_split_heads_inv in Hr1
    as (b1 & n1 & f1 & Hs1' & Hh & Hmod & Hsh1 & Hd1 & He1).
  rewrite Hs1 in Hs1'. injection Hs1' as <- <- <-.
  apply rearrange_split_heads_inv in Hr2
    as (b2 & n2 & f2 & Hs2' & _ & _ & Hsh2 & Hd2 & He2).
  rewrite Hs2 in Hs2'. injection Hs2' as <- <- <-.
  apply repeat_kv_inv in Hk1 as (b1 & k1 & s1 & d1 & Hq1 & Hshr1 & Hdr1 & Her1).
  rewrite Hsh1 in Hq1. injection Hq1 as <- <- <- <-.
  apply repeat_kv_inv in Hk2 as (b2 & k2 & s2 & d2 & Hq2 & Hshr2 & Hdr2 & Her2).
  rewrite Hsh2 in Hq2. injection Hq2 as <- <- <- <-.
  split; [exact Hshr1 |]. split; [exact Hshr2 |].
  split; [congruence |].
  intros ib ih i id Hb Hnz.
  rewrite Her1, Her2 by exact Hb.
  simpl in Hb.
  apply andb_prop in Hb as [Hib Hb]. apply andb_prop in Hb as [Hih Hb].
  apply andb_prop in Hb as [Hi Hb]. apply andb_prop in Hb as [Hid _].
  apply Nat.ltb_lt in Hib, Hih, Hi, Hid.
  assert (Hg : groups <> 0) by (intros ->; lia).
  assert (Hq : ih / groups < kvh).
  { apply Nat.Div0.div_lt_upper_bound. lia. }
  assert (Hb' : in_bounds [b; kvh; n; f / kvh] [ib; ih / groups; i; id] = true).
  { simpl. apply Nat.ltb_lt in Hib, Hq, Hi, Hid.
    now rewrite Hib, Hq, Hi, Hid. }
  rewrite He1, He2 by exact Hb'.
  apply Hagree; trivial.
  assert (Hf : f = kvh * (f / kvh)).
  { pose proof (Nat.div_mod f kvh Hh). lia. }
  assert (ih / groups * (f / kvh) + id < kvh * (f / kvh)) by nia.
  lia.
Qed.

Lemma gsa_attend_mask_agree (E : Env) self last hs q k v1 v2 g m pos pkv pe
    b n f len :
  shape v1 = [b; n; f] -> shape v2 = [b; n; f] -> dtype v1 = dtype v2 ->
  shape m = [b; len] -> n <= len ->
  (forall ib i j,
      ib < b -> i < n -> j < f ->
      elem m [ib; len - n + i] <> 0%R ->
      elem v1 [ib; i; j] = elem v2 [ib; i; j]) ->
  run (GSA.attend E self last hs q k v1 g (Some m) pos pkv pe)
  = run (GSA.attend E self last hs q k v2 g (Some m) pos pkv pe).
Proof.
  intros Hs1 Hs2 Hd Hsm Hle Hagree.
  unfold run, GSA.attend, mask_mul_, mask_mul_view_.
  unfold pbind, lift, new, read, write, pret.
  destruct (rearrange_split_heads (GSA.num_heads self) q) as [q4|];
    [| reflexivity].
  destruct (rearrange_split_heads (GSA.num_key_value_heads self) k) as [k4|];
    [| reflexivity].
  pose proof (rearrange_split_heads_status (GSA.num_key_value_heads self)
                v1 v2 ltac:(congruence)) as Hst.
  destruct (rearrange_split_heads (GSA.num_key_value_heads self) v1)
    as [v1'|e1] eqn:Hr1,
    (rearrange_split_heads (GSA.num_key_value_heads self) v2)
    as [v2'|e2] eqn:Hr2; try contradiction; [| now subst].
  destruct (rearrange_split_heads (GSA.num_key_value_heads self) g) as [g4|];
    [| reflexivity].
  destruct (repeat_kv k4 (GSA.num_key_value_groups self)) as [k4r|];
    [| reflexivity].
  assert (Hsh' : shape v1' = shape v2').
  { apply rearrange_split_heads_inv in Hr1
      as (? & ? & ? & A1 & _ & _ & B1 & _).
    apply rearrange_split_heads_inv in Hr2
      as (? & ? & ? & A2 & _ & _ & B2 & _).
    congruence. }
  pose proof (repeat_kv_status v1' v2' (GSA.num_key_value_groups self) Hsh')
    as Hst'.
  assert (Hflag : repeat_kv_shares_memory v1' (GSA.num_key_value_groups self)
                  = repeat_kv_shares_memory v2'
                      (GSA.num_key_value_groups self)).
  { unfold repeat_kv_shares_memory. now rewrite Hsh'. }
  rewrite Hflag.
  destruct (repeat_kv v1' (GSA.num_key_value_groups self))
    as [v1r|e1] eqn:Hk1,
    (repeat_kv v2' (GSA.num_key_value_groups self))
    as [v2r|e2] eqn:Hk2; try contradiction; [| now subst].
  destruct (repeat_kv g4 (GSA.num_key_value_groups self)) as [g4r|];
    [| reflexivity].
  simpl.
  destruct (gate g4r) as [gt|]; [| reflexivity].
  simpl.
  destruct (masked m (GSA.decay gt)) as [sm|]; [| reflexivity].
  simpl.
  destruct (value_heads_agree m v1 v2 b n f len _ _ _ _ _ _
              Hs1 Hs2 Hd Hagree Hr1 Hr2 Hk1 Hk2)
    as (Hsr1 & Hsr2 & Hdr & Hel).
  destruct (repeat_kv_shares_memory v2' (GSA.num_key_value_groups self)).
  - unfold shape_at, rbind. rewrite Hsr1, Hsr2. simpl.
    destruct (mask_last n m); reflexivity.
  - fold (masked m v1r). fold (masked m v2r).
    rewrite (masked_agree m v1r v2r _ _ _ _ len Hsr1 Hsr2 Hdr Hsm Hle Hel).
    destruct (masked m v2r) as [vm|]; reflexivity.
Qed.

Lemma cast_back_value_elem target sq sk sv wq wk wv :
  (wq, wk, wv) = cast_back target sq sk sv -> elem wv = elem sv.
Proof.
  unfold cast_back. destruct (decide (dtype sq = Float32)); now intros [= -> -> ->].
Qed.

(** In a successful masked call the value tensor of both paths is zero
    wherever the mask entry is zero, and so is the decay tensor when the
    pooled key projection has the batch and sequence sizes of the mask. *)
Lemma gsa_attend_masked_zero (E : Env) self last hs q k v g m pos pkv pe
    b n f len tr :
  shape v = [b; n; f] -> shape m = [b; len] -> n <= len ->
  run (GSA.attend E self last hs q k v g (Some m) pos pkv pe) = Ok tr ->
  (forall ib ih i id,
      in_bounds (shape (GSA.rec_v E tr)) [ib; ih; i; id] = true ->
      elem m [ib; len - n + i] = 0%R ->
      elem (GSA.rec_v E tr) [ib; ih; i; id] = 0%R
      /\ elem (GSA.win_v E tr) [ib; ih; i; id] = 0%R)
  /\ (forall fg,
        shape g = [b; n; fg] ->
        forall ib ih i id,
          in_bounds (shape (GSA.rec_s E tr)) [ib; ih; i; id] = true ->
          elem m [ib; len - n + i] = 0%R ->
          elem (GSA.rec_s E tr) [ib; ih; i; id] = 0%R).
Proof.
  intros Hs1 Hsm Hle Htr.
  apply gsa_attend_inv in Htr
    as (q4 & k4 & k4r & v4 & v4r & g4 & g4r & sm & vm & q_len & cos & sin
        & rq & rk & _ & _ & _ & Hv4 & Hv4r & Hg4 & Hg4r & Hgate & Hdec & Hsm'
        & Hvm & _ & _ & Hrv & Hrs & _ & _ & _ & _ & _ & _ & _ & Hcast & _).
  unfold with_mask in *.
  split.
  - apply rearrange_split_heads_inv in Hv4
      as (b1 & n1 & f1 & Hsv & _ & _ & Hsh4 & _).
    rewrite Hs1 in Hsv. injection Hsv as <- <- <-.
    apply repeat_kv_inv in Hv4r as (b2 & k2 & s2 & d2 & Hq & Hshr & _).
    rewrite Hsh4 in Hq. injection Hq as <- <- <- <-.
    pose proof (masked_eq _ _ _ _ _ _ _ _ Hvm Hshr Hsm Hle) as Hvm_eq.
    rewrite (cast_back_value_elem _ _ _ _ _ _ _ Hcast), Hrv.
    unfold to_dtype; cbn [shape elem]. rewrite Hvm_eq. cbn [shape].
    intros ib ih i id Hb Hz.
    rewrite elem_tabulate_in by exact Hb.
    rewrite Hz, Rmult_0_r. auto.
  - intros fg Hsg.
    apply rearrange_split_heads_inv in Hg4
      as (b1 & n1 & f1 & Hsg' & _ & _ & Hsh4 & _).
    rewrite Hsg in Hsg'. injection Hsg' as <- <- <-.
    apply repeat_kv_inv in Hg4r as (b2 & k2 & s2 & d2 & Hq & Hshr & _).
    rewrite Hsh4 in Hq. injection Hq as <- <- <- <-.
    pose proof (gate_shape _ _ Hgate) as Hgs. rewrite Hshr in Hgs.
    assert (Hds : shape (GSA.decay_tensor E tr)
                  = [b; GSA.num_key_value_heads self
                        * GSA.num_key_value_groups self; n;
                     fg / GSA.num_key_value_heads self]).
    { rewrite Hdec. unfold GSA.decay, rsub_scalar, torch_exp, pointwise.
      cbn [shape tabulate]. exact Hgs. }
    pose proof (masked_eq _ _ _ _ _ _ _ _ Hsm' Hds Hsm Hle) as Hsm_eq.
    rewrite Hrs. unfold to_dtype; cbn [shape elem]. rewrite Hsm_eq.
    cbn [shape].
    intros ib ih i id Hb Hz.
    rewrite elem_tabulate_in by exact Hb.
    rewrite Hz, Rmult_0_r. auto.
Qed.


(** Replacing the value projection changes nothing else in the call. *)
Lemma gsa_attend_set_v_proj (E : Env) self layer last hs q k v g mask pos pkv
    pe :
  GSA.attend E (GSA.set_v_proj self layer) last hs q k v g mask pos pkv pe
  = GSA.attend E self last hs q k v g mask pos pkv pe.
Proof. reflexivity. Qed.




(** ** Finite content at padded positions *)

(** Take two calls of the slot-attention [forward] on [n] tokens per
    batch row, with a mask of [len >= n] positions per row whose last [n]
    positions belong to those tokens, that differ only in the value tensor,
    and there only at positions that the mask zeroes (in particular: only at
    left-padded positions).  Tensor elements are real numbers, that is,
    finite values.  The two calls give the same result, both for
    the body of [forward] taken after its projections and for [forward]
    itself with two value-projection layers.  In a successful call the value
    tensor of both paths is zero at every position whose mask entry is zero,
    and so is the decay tensor. *)
Theorem left_padding_noninterference (E : Env) :
  (forall self last hs q k v1 v2 g m pos pkv pe b n f len,
      shape v1 = [b; n; f] -> shape v2 = [b; n; f] -> dtype v1 = dtype v2 ->
      shape m = [b; len] -> n <= len ->
      (forall ib i j,
          ib < b -> i < n -> j < f ->
          elem m [ib; len - n + i] <> 0%R ->
          elem v1 [ib; i; j] = elem v2 [ib; i; j]) ->
      run (GSA.attend E self last hs q k v1 g (Some m) pos pkv pe)
      = run (GSA.attend E self last hs q k v2 g (Some m) pos pkv pe))
  /\ (forall self layer1 layer2 hs v1 v2 m pos pkv pe b n f len,
      linear_forward layer1 hs = Ok v1 ->
      linear_forward layer2 hs = Ok v2 ->
      shape v1 = [b; n; f] -> shape v2 = [b; n; f] -> dtype v1 = dtype v2 ->
      shape m = [b; len] -> n <= len ->
      (forall ib i j,
          ib < b -> i < n -> j < f ->
          elem m [ib; len - n + i] <> 0%R ->
          elem v1 [ib; i; j] = elem v2 [ib; i; j]) ->
      GSA.forward E (GSA.set_v_proj self layer1) hs (Some m) pos pkv pe
      = GSA.forward E (GSA.set_v_proj self layer2) hs (Some m) pos pkv pe)
  /\ (forall self last hs q k v g m pos pkv pe b n f fg len tr,
      shape v = [b; n; f] -> shape g = [b; n; fg] ->
      shape m = [b; len] -> n <= len ->
      run (GSA.attend E self last hs q k v g (Some m) pos pkv pe) = Ok tr ->
      forall ib ih i id,
        elem m [ib; len - n + i] = 0%R ->
        (in_bounds (shape (GSA.rec_v E tr)) [ib; ih; i; id] = true ->
         elem (GSA.rec_v E tr) [ib; ih; i; id] = 0%R
         /\ elem (GSA.win_v E tr) [ib; ih; i; id] = 0%R)
        /\ (in_bounds (shape (GSA.rec_s E tr)) [ib; ih; i; id] = true ->
            elem (GSA.rec_s E tr) [ib; ih; i; id] = 0%R)).
Proof.
  split; [| split].
  - intros. now apply (gsa_attend_mask_agree E) with (b := b) (n := n)
                                                    (f := f) (len := len).
  - intros self layer1 layer2 hs v1 v2 m pos pkv pe b n f len
      Hl1 Hl2 Hs1 Hs2 Hd Hsm Hle Hagree.
    unfold GSA.forward, rbind. cbn [GSA.set_v_proj GSA.layer_idx GSA.q_proj
                                      GSA.k_proj GSA.v_proj GSA.pool_g].
    destruct (get_last_state (GSA.layer_idx self) pkv) as [last|];
      [| reflexivity].
    destruct (linear_forward (GSA.q_proj self) hs) as [q|]; [| reflexivity].
    destruct (linear_forward (GSA.k_proj self) hs) as [k|]; [| reflexivity].
    rewrite Hl1, Hl2.
    destruct (GSA.pool_g self k) as [g|]; [| reflexivity].
    rewrite !gsa_attend_set_v_proj.
    now apply (gsa_attend_mask_agree E) with (b := b) (n := n) (f := f)
                                             (len := len).
  - intros self last hs q k v g m pos pkv pe b n f fg len tr
      Hsv Hsg Hsm Hle Htr ib ih i id Hz.
    destruct (gsa_attend_masked_zero E _ _ _ _ _ _ _ _ _ _ _ _ _ _ _ _
                Hsv Hsm Hle Htr) as [Hv Hs].
    split.
    + intros Hb. now apply Hv.
    + intros Hb. now apply (Hs fg Hsg).
Qed.

Lemma demo_gsa_grouped_init :
  GSA.__init__ Demo.env Demo.gsa_config_grouped (Some 0)
  = Ok Demo.gsa_layer_grouped.
Proof. reflexivity. Qed.

(** Three tokens, the first one padding, in the grouped-query layer:
    changing the value projection at the padded position from 1 to 7 leaves
    the result unchanged. *)
Lemma left_padding_noninterference_witness :
  elem Demo.values_grouped [0; 0; 0]
  <> elem Demo.values_grouped_altered [0; 0; 0]
  /\ is_ok (run (GSA.attend Demo.env Demo.gsa_layer_grouped None
                   (Demo.hidden_grouped 3 1) Demo.queries_grouped
                   Demo.keys_grouped Demo.values_grouped
                   Demo.pooled_keys_grouped (Some Demo.left_padded_mask)
                   None None None)) = true
  /\ run (GSA.attend Demo.env Demo.gsa_layer_grouped None
            (Demo.hidden_grouped 3 1) Demo.queries_grouped
            Demo.keys_grouped Demo.values_grouped Demo.pooled_keys_grouped
            (Some Demo.left_padded_mask) None None None)
     = run (GSA.attend Demo.env Demo.gsa_layer_grouped None
              (Demo.hidden_grouped 3 1) Demo.queries_grouped
              Demo.keys_grouped Demo.values_grouped_altered
              Demo.pooled_keys_grouped (Some Demo.left_padded_mask)
              None None None).
Proof.
  split; [simpl; lra |]. split; [reflexivity |].
  apply (proj1 (left_padding_noninterference Demo.env)
           Demo.gsa_layer_grouped None (Demo.hidden_grouped 3 1)
           Demo.queries_grouped Demo.keys_grouped Demo.values_grouped
           Demo.values_grouped_altered Demo.pooled_keys_grouped
           Demo.left_padded_mask None None None 1 3 4 3);
    try reflexivity; try lia.
  intros ib i j Hib Hi Hj.
  destruct ib as [|ib]; [| lia].
  destruct i as [|[|[|i]]]; try lia; simpl; intros Hnz;
    destruct j as [|[|[|[|j]]]]; try lia; simpl; try reflexivity;
    contradiction Hnz; reflexivity.
Defined.

(** * Further properties of the two attention classes *)

(** ** The cache protocol *)

Lemma gsa_recurrent_call (E : Env) self hs mask pos pkv pe tr :
  GSA.forward E self hs mask pos pkv pe = Ok tr ->
  exists last,
    get_last_state (GSA.layer_idx self) pkv = Ok last
    /\ GSA.recurrent_kernel E (GSA.mode E tr) (GSA.rec_q E tr)
         (GSA.rec_k E tr) (GSA.rec_v E tr) (GSA.rec_s E tr)
         (GSA.rec_g E tr) 1 last
       = Ok (GSA.rec_out E tr, GSA.new_state E tr)
    /\ update_cache pkv (GSA.new_state E tr) (GSA.layer_idx self)
         (GSA.rec_q E tr)
       = Ok (GSA.cache_out E tr).
Proof.
  intros H.
  apply gsa_forward_inv in H
    as (last & q0 & k0 & v0 & g0 & Hlast & _ & _ & _ & _ & H).
  apply gsa_attend_inv in H
    as (q4 & k4 & k4r & v4 & v4r & g4 & g4r & sm & vm & q_len & cos & sin
        & rq & rk & _ & _ & _ & _ & _ & _ & _ & _ & _ & _ & _ & _ & _ & _
        & _ & _ & _ & Hrec & Hupd & _).
  exists last. auto.
Qed.

Lemma gla_recurrent_call (E : Env) self hs mask pos pkv pe tr :
  GLA.forward E self hs mask pos pkv pe = Ok tr ->
  exists last,
    get_last_state (GLA.layer_idx self) pkv = Ok last
    /\ GLA.recurrent_kernel E (GLA.mode E tr) (GLA.rec_q E tr)
         (GLA.rec_k E tr) (GLA.rec_v E tr) (GLA.rec_g E tr) 1 last
       = Ok (GLA.rec_out E tr, GLA.new_state E tr)
    /\ update_cache pkv (GLA.new_state E tr) (GLA.layer_idx self)
         (GLA.rec_q E tr)
       = Ok (GLA.cache_out E tr).
Proof.
  intros H.
  apply gla_forward_inv in H
    as (last & bsz & q_len & f & q0 & k0 & v0 & g0 & Hlast & _ & _ & _ & _
        & _ & H).
  apply gla_attend_inv in H
    as (k4 & v4 & g4 & g4r & q' & k' & rq & rk & _ & _ & _ & _ & _ & _ & _
        & _ & _ & _ & _ & _ & _ & _ & _ & Hrec & Hupd & _).
  exists last. auto.
Qed.

(** The state read back from a cache into which a layer has just written. *)
Lemma get_last_state_after_update {S} (c : FlaCache S) st l offset :
  l < cache_len (cache_update c st l offset) ->
  get_last_state (Some l) (Some (cache_update c st l offset)) = Ok (Some st).
Proof.
  intros Hlen. unfold get_last_state.
  apply Nat.ltb_lt in Hlen. rewrite Hlen.
  unfold cache_getitem. now rewrite cache_update_lookup.
Qed.

Lemma cache_len_after_update_pos {S} (c : FlaCache S) st l offset :
  0 < cache_len (cache_update c st l offset).
Proof.
  unfold cache_len, cache_update. cbn [states].
  destruct (decide (size (<[l:=st]> (states c)) = 0)) as [Hz|]; [| lia].
  apply map_size_empty_inv in Hz.
  pose proof (lookup_insert_eq (states c) l st) as Hl.
  rewrite Hz, lookup_empty in Hl. discriminate.
Qed.

(** A layer constructed without [layer_idx] cannot be called with a cache:
    the comparison [len(past_key_value) > self.layer_idx] raises before any
    projection is computed.  Without a cache the missing index is never
    looked at. *)
Theorem missing_layer_idx_fails_with_cache (E : Env) :
  (forall cfg self hs mask pos c pe,
      GSA.__init__ E cfg None = Ok self ->
      GSA.forward E self hs mask pos (Some c) pe = Err TypeError
      /\ get_last_state (GSA.layer_idx self) (None : option (FlaCache (RState E)))
         = Ok None)
  /\ (forall cfg self hs mask pos c pe,
      GLA.__init__ E cfg None = Ok self ->
      GLA.forward E self hs mask pos (Some c) pe = Err TypeError
      /\ get_last_state (GLA.layer_idx self) (None : option (FlaCache (RState E)))
         = Ok None).
Proof.
  split; intros cfg self hs mask pos c pe Hinit.
  - assert (Hl : GSA.layer_idx self = None).
    { unfold GSA.__init__, rbind in Hinit.
      destruct (floordiv _ _); [| discriminate].
      destruct (floordiv _ _); [| discriminate].
      now injection Hinit as <-. }
    unfold GSA.forward, get_last_state. now rewrite Hl.
  - assert (Hl : GLA.layer_idx self = None).
    { unfold GLA.__init__, rbind in Hinit.
      destruct (floordiv _ _); [| discriminate].
      destruct (floordiv _ _); [| discriminate].
      destruct (negb _); [discriminate |].
      now injection Hinit as <-. }
    unfold GLA.forward, get_last_state. now rewrite Hl.
Qed.

Lemma missing_layer_idx_fails_with_cache_witness :
  exists gsa gla,
    GSA.__init__ Demo.env Demo.gsa_config None = Ok gsa
    /\ GLA.__init__ Demo.env Demo.gla_config None = Ok gla
    /\ GSA.forward Demo.env gsa (Demo.hidden 3 1) None None
         (Some Demo.empty_cache) None = Err TypeError
    /\ GLA.forward Demo.env gla (Demo.hidden 3 1) None None
         (Some Demo.empty_cache) None = Err TypeError.
Proof.
  eexists. eexists.
  split; [reflexivity |]. split; [reflexivity |].
  split.
  - apply (proj1 (missing_layer_idx_fails_with_cache Demo.env)
             Demo.gsa_config _ _ _ _ _ _ eq_refl).
  - apply (proj2 (missing_layer_idx_fails_with_cache Demo.env)
             Demo.gla_config _ _ _ _ _ _ eq_refl).
Defined.

(** Without a cache, or with a cache that has no more entries than the
    layer's index, the recurrent kernel starts from no state
    ([initial_state=None]); without a cache nothing is stored either. *)
Theorem first_call_starts_from_no_state (E : Env) :
  (forall self hs mask pos pkv pe tr,
      GSA.forward E self hs mask pos pkv pe = Ok tr ->
      (pkv = None
       \/ exists c l, pkv = Some c /\ GSA.layer_idx self = Some l
                      /\ cache_len c <= l) ->
      GSA.recurrent_kernel E (GSA.mode E tr) (GSA.rec_q E tr)
        (GSA.rec_k E tr) (GSA.rec_v E tr) (GSA.rec_s E tr)
        (GSA.rec_g E tr) 1 None
      = Ok (GSA.rec_out E tr, GSA.new_state E tr)
      /\ (pkv = None -> GSA.cache_out E tr = None))
  /\ (forall self hs mask pos pkv pe tr,
      GLA.forward E self hs mask pos pkv pe = Ok tr ->
      (pkv = None
       \/ exists c l, pkv = Some c /\ GLA.layer_idx self = Some l
                      /\ cache_len c <= l) ->
      GLA.recurrent_kernel E (GLA.mode E tr) (GLA.rec_q E tr)
        (GLA.rec_k E tr) (GLA.rec_v E tr) (GLA.rec_g E tr) 1 None
      = Ok (GLA.rec_out E tr, GLA.new_state E tr)
      /\ (pkv = None -> GLA.cache_out E tr = None)).
Proof.
  split; intros self hs mask pos pkv pe tr H Hcase.
  - apply gsa_recurrent_call in H as (last & Hlast & Hrec & Hupd).
    assert (Hn : last = None).
    { destruct Hcase as [-> | (c & l & -> & Hl & Hlen)].
      - now injection Hlast as <-.
      - unfold get_last_state in Hlast. rewrite Hl in Hlast.
        apply Nat.ltb_ge in Hlen. rewrite Hlen in Hlast.
        now injection Hlast as <-. }
    subst last. split; [exact Hrec |].
    intros ->. now injection Hupd as <-.
  - apply gla_recurrent_call in H as (last & Hlast & Hrec & Hupd).
    assert (Hn : last = None).
    { destruct Hcase as [-> | (c & l & -> & Hl & Hlen)].
      - now injection Hlast as <-.
      - unfold get_last_state in Hlast. rewrite Hl in Hlast.
        apply Nat.ltb_ge in Hlen. rewrite Hlen in Hlast.
        now injection Hlast as <-. }
    subst last. split; [exact Hrec |].
    intros ->. now injection Hupd as <-.
Qed.

Lemma first_call_starts_from_no_state_witness :
  exists tr_gsa tr_gla,
    GSA.forward Demo.env Demo.gsa_layer (Demo.hidden 3 1) None None
      (Some Demo.empty_cache) None = Ok tr_gsa
    /\ GLA.forward Demo.env Demo.gla_layer (Demo.hidden 3 1) None None
         (Some Demo.empty_cache) None = Ok tr_gla
    /\ GSA.recurrent_kernel Demo.env (GSA.mode Demo.env tr_gsa)
         (GSA.rec_q Demo.env tr_gsa) (GSA.rec_k Demo.env tr_gsa)
         (GSA.rec_v Demo.env tr_gsa) (GSA.rec_s Demo.env tr_gsa)
         (GSA.rec_g Demo.env tr_gsa) 1 None
       = Ok (GSA.rec_out Demo.env tr_gsa, GSA.new_state Demo.env tr_gsa)
    /\ GLA.recurrent_kernel Demo.env (GLA.mode Demo.env tr_gla)
         (GLA.rec_q Demo.env tr_gla) (GLA.rec_k Demo.env tr_gla)
         (GLA.rec_v Demo.env tr_gla) (GLA.rec_g Demo.env tr_gla) 1 None
       = Ok (GLA.rec_out Demo.env tr_gla, GLA.new_state Demo.env tr_gla).
Proof.
  destruct (is_ok_inv _ demo_gsa_prefill) as [tr_gsa Hgsa].
  destruct (is_ok_inv _ demo_gla_prefill) as [tr_gla Hgla].
  exists tr_gsa, tr_gla.
  split; [exact Hgsa |]. split; [exact Hgla |].
  split.
  - apply (proj1 (first_call_starts_from_no_state Demo.env)
             _ _ _ _ _ _ _ Hgsa).
    right. exists Demo.empty_cache, 0. repeat split. reflexivity.
  - apply (proj2 (first_call_starts_from_no_state Demo.env)
             _ _ _ _ _ _ _ Hgla).
    right. exists Demo.empty_cache, 0. repeat split. reflexivity.
Defined.

(** A successful call on a cache leaves a cache. *)
Lemma cache_offset_carrier (E : Env) :
  (forall self hs mask pos c pe tr,
      GSA.forward E self hs mask pos (Some c) pe = Ok tr ->
      exists c', GSA.cache_out E tr = Some c')
  /\ (forall self hs mask pos c pe tr,
      GLA.forward E self hs mask pos (Some c) pe = Ok tr ->
      exists c', GLA.cache_out E tr = Some c').
Proof.
  split; intros self hs mask pos c pe tr H.
  - apply gsa_recurrent_call in H as (last & _ & _ & Hupd).
    apply update_cache_some in Hupd as (l & offset & _ & _ & ->). eauto.
  - apply gla_recurrent_call in H as (last & _ & _ & Hupd).
    apply update_cache_some in Hupd as (l & offset & _ & _ & ->). eauto.
Qed.

(** Two calls of one layer through the same cache (the module may change
    between them, as by [eval()], as long as it keeps its index): the state
    stored by the first call is the initial state of the recurrent kernel in
    the second, provided the cache then has more entries than the layer's
    index, which is always so for layer 0. *)
Theorem recurrent_state_is_carried_over (E : Env) :
  (forall self1 self2 l hs1 mask1 pos1 c pe1 tr1 c1 hs2 mask2 pos2 pe2 tr2,
      GSA.layer_idx self1 = Some l -> GSA.layer_idx self2 = Some l ->
      GSA.forward E self1 hs1 mask1 pos1 (Some c) pe1 = Ok tr1 ->
      GSA.cache_out E tr1 = Some c1 ->
      (l = 0 \/ l < cache_len c1) ->
      GSA.forward E self2 hs2 mask2 pos2 (Some c1) pe2 = Ok tr2 ->
      GSA.recurrent_kernel E (GSA.mode E tr2) (GSA.rec_q E tr2)
        (GSA.rec_k E tr2) (GSA.rec_v E tr2) (GSA.rec_s E tr2)
        (GSA.rec_g E tr2) 1 (Some (GSA.new_state E tr1))
      = Ok (GSA.rec_out E tr2, GSA.new_state E tr2))
  /\ (forall self1 self2 l hs1 mask1 pos1 c pe1 tr1 c1 hs2 mask2 pos2 pe2 tr2,
      GLA.layer_idx self1 = Some l -> GLA.layer_idx self2 = Some l ->
      GLA.forward E self1 hs1 mask1 pos1 (Some c) pe1 = Ok tr1 ->
      GLA.cache_out E tr1 = Some c1 ->
      (l = 0 \/ l < cache_len c1) ->
      GLA.forward E self2 hs2 mask2 pos2 (Some c1) pe2 = Ok tr2 ->
      GLA.recurrent_kernel E (GLA.mode E tr2) (GLA.rec_q E tr2)
        (GLA.rec_k E tr2) (GLA.rec_v E tr2) (GLA.rec_g E tr2) 1
        (Some (GLA.new_state E tr1))
      = Ok (GLA.rec_out E tr2, GLA.new_state E tr2)).
Proof.
  split;
    intros self1 self2 l hs1 mask1 pos1 c pe1 tr1 c1 hs2 mask2 pos2 pe2 tr2
      Hl Hl2 H1 Hc1 Hlen H2.
  - apply gsa_recurrent_call in H1 as (last1 & _ & _ & Hupd1).
    apply gsa_recurrent_call in H2 as (last2 & Hlast2 & Hrec2 & _).
    apply update_cache_some in Hupd1 as (l' & offset & Hl' & _ & Hc').
    rewrite Hl in Hl'. injection Hl' as <-.
    rewrite Hc1 in Hc'. injection Hc' as ->.
    rewrite Hl2, get_last_state_after_update in Hlast2.
    + now injection Hlast2 as <-.
    + destruct Hlen as [-> | Hlen]; [apply cache_len_after_update_pos | exact Hlen].
  - apply gla_recurrent_call in H1 as (last1 & _ & _ & Hupd1).
    apply gla_recurrent_call in H2 as (last2 & Hlast2 & Hrec2 & _).
    apply update_cache_some in Hupd1 as (l' & offset & Hl' & _ & Hc').
    rewrite Hl in Hl'. injection Hl' as <-.
    rewrite Hc1 in Hc'. injection Hc' as ->.
    rewrite Hl2, get_last_state_after_update in Hlast2.
    + now injection Hlast2 as <-.
    + destruct Hlen as [-> | Hlen]; [apply cache_len_after_update_pos | exact Hlen].
Qed.

Lemma demo_gsa_two_calls :
  is_ok (tr1 <- GSA.forward Demo.env Demo.gsa_layer (Demo.hidden 3 1) None
                  None (Some Demo.empty_cache) None ;;
         GSA.forward Demo.env (GSA.eval Demo.gsa_layer) (Demo.hidden 1 1)
           None None (GSA.cache_out Demo.env tr1) None)%res = true.
Proof. reflexivity. Qed.

Lemma demo_gla_two_calls :
  is_ok (tr1 <- GLA.forward Demo.env Demo.gla_layer (Demo.hidden 3 1) None
                  None (Some Demo.empty_cache) None ;;
         GLA.forward Demo.env (GLA.eval Demo.gla_layer) (Demo.hidden 1 1)
           None None (GLA.cache_out Demo.env tr1) None)%res = true.
Proof. reflexivity. Qed.

(** Prefill of three tokens in training mode, then one token in evaluation
    mode through the cache the prefill left. *)
Lemma recurrent_state_is_carried_over_witness :
  exists tr1 c1 tr2,
    GSA.forward Demo.env Demo.gsa_layer (Demo.hidden 3 1) None None
      (Some Demo.empty_cache) None = Ok tr1
    /\ GSA.cache_out Demo.env tr1 = Some c1
    /\ GSA.forward Demo.env (GSA.eval Demo.gsa_layer) (Demo.hidden 1 1)
         None None (Some c1) None = Ok tr2
    /\ GSA.recurrent_kernel Demo.env (GSA.mode Demo.env tr2)
         (GSA.rec_q Demo.env tr2) (GSA.rec_k Demo.env tr2)
         (GSA.rec_v Demo.env tr2) (GSA.rec_s Demo.env tr2)
         (GSA.rec_g Demo.env tr2) 1 (Some (GSA.new_state Demo.env tr1))
       = Ok (GSA.rec_out Demo.env tr2, GSA.new_state Demo.env tr2).
Proof.
  pose proof demo_gsa_two_calls as H. unfold rbind in H.
  destruct (GSA.forward Demo.env Demo.gsa_layer (Demo.hidden 3 1) None None
              (Some Demo.empty_cache) None) as [tr1|] eqn:H1;
    [| discriminate H].
  destruct (is_ok_inv _ H) as [tr2 H2].
  destruct (proj1 (cache_offset_carrier Demo.env) _ _ _ _ _ _ _ H1)
    as (c1 & Hc1).
  exists tr1, c1, tr2.
  split; [reflexivity |]. split; [exact Hc1 |].
  rewrite Hc1 in H2. split; [exact H2 |].
  apply (proj1 (recurrent_state_is_carried_over Demo.env)
           Demo.gsa_layer (GSA.eval Demo.gsa_layer) 0
           _ _ _ _ _ _ _ _ _ _ _ _ eq_refl eq_refl H1 Hc1
           (or_introl eq_refl) H2).
Defined.

(** ** The attention mask in the linear-attention class *)

Lemma indices_in_bounds sh idx :
  In idx (indices sh) <-> in_bounds sh idx = true.
Proof.
  revert idx. induction sh as [|d sh IH]; intros idx; simpl.
  - destruct idx as [|i idx'].
    + split; [reflexivity | now left].
    + split; [intros [H | []]; discriminate | discriminate].
  - rewrite <- list_elem_of_In, list_elem_of_bind. split.
    + intros (i & Hidx & Hi).
      apply list_elem_of_fmap in Hidx as (idx' & -> & Hidx').
      apply elem_of_seq in Hi. apply list_elem_of_In, IH in Hidx'.
      rewrite Hidx'. destruct (i <? d) eqn:Hlt; [reflexivity |].
      apply Nat.ltb_ge in Hlt. lia.
    + destruct idx as [|i idx']; [discriminate |].
      intros H. apply andb_prop in H as [Hi Hidx'].
      apply Nat.ltb_lt in Hi. exists i. split.
      * apply list_elem_of_fmap. exists idx'. split; [reflexivity |].
        now apply list_elem_of_In, IH.
      * apply elem_of_seq. lia.
Qed.

Lemma tensor_contains_false c t :
  (forall idx, in_bounds (shape t) idx = true -> elem t idx <> c) ->
  tensor_contains c t = false.
Proof.
  intros H. unfold tensor_contains.
  destruct (existsb _ _) eqn:Hex; [| reflexivity].
  apply existsb_exists in Hex as (idx & Hin & Hdec).
  apply indices_in_bounds in Hin.
  destruct (Req_dec_T (elem t idx) c) as [Heq |]; [| discriminate].
  now apply H in Heq.
Qed.

Lemma tensor_contains_true c t idx :
  in_bounds (shape t) idx = true -> elem t idx = c ->
  tensor_contains c t = true.
Proof.
  intros Hb Heq. unfold tensor_contains.
  apply existsb_exists. exists idx. split; [now apply indices_in_bounds |].
  destruct (Req_dec_T (elem t idx) c); [reflexivity | contradiction].
Qed.

(** In the linear-attention class an attention mask none of whose entries is
    [0.0] is replaced by [None]: the call is the call without a mask. *)
Theorem mask_without_padding_is_dropped (E : Env) self hs m pos pkv pe :
  (forall idx, in_bounds (shape m) idx = true -> elem m idx <> 0%R) ->
  GLA.forward E self hs (Some m) pos pkv pe
  = GLA.forward E self hs None pos pkv pe.
Proof.
  intros H. apply (tensor_contains_false 0%R) in H.
  unfold GLA.forward, GLA.attend, GLA.keep_padding_mask.
  now rewrite H.
Qed.

(** The recurrent path of the linear-attention class never looks at the
    attention mask: two successful calls that differ in the mask only run
    the same kernel on the same tensors, get the same recurrent output and
    leave the same cache.  The mask reaches the windowed path only. *)
Theorem gla_recurrent_path_ignores_mask (E : Env) self hs mask1 mask2 pos pkv
    pe tr1 tr2 :
  GLA.forward E self hs mask1 pos pkv pe = Ok tr1 ->
  GLA.forward E self hs mask2 pos pkv pe = Ok tr2 ->
  GLA.rec_q E tr1 = GLA.rec_q E tr2
  /\ GLA.rec_k E tr1 = GLA.rec_k E tr2
  /\ GLA.rec_v E tr1 = GLA.rec_v E tr2
  /\ GLA.rec_g E tr1 = GLA.rec_g E tr2
  /\ GLA.mode E tr1 = GLA.mode E tr2
  /\ GLA.rec_out E tr1 = GLA.rec_out E tr2
  /\ GLA.new_state E tr1 = GLA.new_state E tr2
  /\ GLA.cache_out E tr1 = GLA.cache_out E tr2
  /\ GLA.win_q E tr1 = GLA.win_q E tr2
  /\ GLA.win_k E tr1 = GLA.win_k E tr2
  /\ GLA.win_v E tr1 = GLA.win_v E tr2.
Proof.
  intros H1 H2.
  apply gla_forward_inv in H1
    as (last & bsz & q_len & f & q0 & k0 & v0 & g0 & Hlast & Hs & Hq & Hk
        & Hv & Hg & H1).
  apply gla_forward_inv in H2
    as (last' & bsz' & q_len' & f' & q0' & k0' & v0' & g0' & Hlast' & Hs'
        & Hq' & Hk' & Hv' & Hg' & H2).
  rewrite Hlast in Hlast'. injection Hlast' as <-.
  rewrite Hs in Hs'. injection Hs' as <- <- <-.
  rewrite Hq in Hq'. injection Hq' as <-.
  rewrite Hk in Hk'. injection Hk' as <-.
  rewrite Hv in Hv'. injection Hv' as <-.
  rewrite Hg in Hg'. injection Hg' as <-.
  apply gla_attend_inv in H1
    as (k4 & v4 & g4 & g4r & q' & k' & rq & rk & A1 & A2 & A3 & A4 & A5 & A6
        & A7 & A8 & A9 & A10 & A11 & A12 & A13 & A14 & A15 & A16 & A17 & A18
        & A19 & A20 & _).
  apply gla_attend_inv in H2
    as (k4' & v4' & g4' & g4r' & q'' & k'' & rq' & rk' & B1 & B2 & B3 & B4
        & B5 & B6 & B7 & B8 & B9 & B10 & B11 & B12 & B13 & B14 & B15 & B16
        & B17 & B18 & B19 & B20 & _).
  assert (Hrawq : GLA.raw_q E tr1 = GLA.raw_q E tr2) by congruence.
  assert (k4 = k4') by congruence. subst k4'.
  assert (Hrawk : GLA.raw_k E tr1 = GLA.raw_k E tr2) by congruence.
  assert (v4 = v4') by congruence. subst v4'.
  assert (Hrawv : GLA.raw_v E tr1 = GLA.raw_v E tr2) by congruence.
  assert (g4 = g4') by congruence. subst g4'.
  assert (g4r = g4r') by congruence. subst g4r'.
  assert (Hgt : GLA.gate_tensor E tr1 = GLA.gate_tensor E tr2) by congruence.
  rewrite Hrawq in A8. rewrite Hrawk in A9.
  assert (q' = q'') by congruence. subst q''.
  assert (k' = k'') by congruence. subst k''.
  assert (Hrq : GLA.rec_q E tr1 = GLA.rec_q E tr2) by congruence.
  assert (Hrk : GLA.rec_k E tr1 = GLA.rec_k E tr2) by congruence.
  assert (Hrv : GLA.rec_v E tr1 = GLA.rec_v E tr2) by congruence.
  assert (Hrg : GLA.rec_g E tr1 = GLA.rec_g E tr2) by congruence.
  rewrite Hrq in A15.
  assert (Hmode : GLA.mode E tr1 = GLA.mode E tr2) by congruence.
  rewrite Hrq, Hrk, Hrv, Hrg, Hmode in A16.
  rewrite A16 in B16. injection B16 as Hout Hst.
  rewrite Hrq, Hst in A17.
  assert (Hc : GLA.cache_out E tr1 = GLA.cache_out E tr2) by congruence.
  rewrite Hrawv in A18.
  assert (Hcs : GLA.cos_sin E tr1 = GLA.cos_sin E tr2) by congruence.
  rewrite Hrawq, Hrawk, Hcs in A19. rewrite A19 in B19.
  injection B19 as <- <-.
  rewrite Hrawv in A20. rewrite <- A20 in B20. injection B20 as <- <- <-.
  repeat split; auto.
Qed.

Lemma mask_without_padding_is_dropped_witness :
  is_ok (GLA.forward Demo.env Demo.gla_layer (Demo.hidden 3 1) None None
           (Some Demo.empty_cache) None) = true
  /\ GLA.forward Demo.env Demo.gla_layer (Demo.hidden 3 1)
       (Some Demo.ones_mask) None (Some Demo.empty_cache) None
     = GLA.forward Demo.env Demo.gla_layer (Demo.hidden 3 1) None None
         (Some Demo.empty_cache) None.
Proof.
  split; [reflexivity |].
  apply (mask_without_padding_is_dropped Demo.env).
  intros idx Hb. unfold Demo.ones_mask, tabulate in *. cbn [elem shape] in *.
  rewrite Hb. lra.
Defined.

Lemma demo_gla_padded :
  is_ok (GLA.forward Demo.env Demo.gla_layer (Demo.hidden 3 1)
           (Some Demo.left_padded_mask) None (Some Demo.empty_cache) None)
  = true.
Proof.
  unfold GLA.forward, GLA.attend, GLA.keep_padding_mask.
  rewrite (tensor_contains_true 0%R Demo.left_padded_mask [0; 0]);
    reflexivity.
Qed.

Lemma gla_recurrent_path_ignores_mask_witness :
  exists tr1 tr2,
    GLA.forward Demo.env Demo.gla_layer (Demo.hidden 3 1)
      (Some Demo.left_padded_mask) None (Some Demo.empty_cache) None = Ok tr1
    /\ GLA.forward Demo.env Demo.gla_layer (Demo.hidden 3 1) None None
         (Some Demo.empty_cache) None = Ok tr2
    /\ GLA.rec_v Demo.env tr1 = GLA.rec_v Demo.env tr2
    /\ GLA.rec_out Demo.env tr1 = GLA.rec_out Demo.env tr2
    /\ GLA.cache_out Demo.env tr1 = GLA.cache_out Demo.env tr2.
Proof.
  destruct (is_ok_inv _ demo_gla_padded) as [tr1 H1].
  destruct (is_ok_inv _ demo_gla_prefill) as [tr2 H2].
  exists tr1, tr2.
  split; [exact H1 |]. split; [exact H2 |].
  destruct (gla_recurrent_path_ignores_mask Demo.env _ _ _ _ _ _ _ _ _ H1 H2)
    as (_ & _ & Hv & _ & _ & Ho & _ & Hc & _).
  auto.
Defined.

(** ** Inputs the linear-attention class rejects *)

(** [LigerQwen2GatedLinearAttention.forward] unpacks the size of the hidden
    states into exactly three numbers and infers the head count with a
    [view(bsz, q_len, -1, head_dim)]: hidden states that are not 3-D raise
    [ValueError] (once the cache lookup has passed), and no call succeeds
    on an empty batch, an empty sequence or a zero head width. *)
Theorem gla_forward_input_requirements (E : Env) self hs mask pos pkv pe :
  (length (shape hs) <> 3 ->
   is_ok (get_last_state (GLA.layer_idx self) pkv) = true ->
   GLA.forward E self hs mask pos pkv pe = Err ValueError)
  /\ (forall tr,
        GLA.forward E self hs mask pos pkv pe = Ok tr ->
        exists bsz q_len f,
          shape hs = [bsz; q_len; f]
          /\ bsz <> 0 /\ q_len <> 0 /\ GLA.head_dim self <> 0)
  /\ (forall bsz q_len f,
        shape hs = [bsz; q_len; f] ->
        bsz * q_len * GLA.head_dim self = 0 ->
        is_ok (GLA.forward E self hs mask pos pkv pe) = false).
Proof.
  assert (Hsucc : forall tr,
             GLA.forward E self hs mask pos pkv pe = Ok tr ->
             exists bsz q_len f,
               shape hs = [bsz; q_len; f]
               /\ bsz <> 0 /\ q_len <> 0 /\ GLA.head_dim self <> 0).
  { intros tr H.
    apply gla_forward_inv in H
      as (last & bsz & q_len & f & q0 & k0 & v0 & g0 & _ & Hs & _ & _ & _
          & _ & H).
    apply gla_attend_inv in H
      as (k4 & v4 & g4 & g4r & q' & k' & rq & rk & Hq4 & _).
    apply split_heads_inv in Hq4 as (Hb & Hn & Hd & _).
    exists bsz, q_len, f. auto. }
  split; [| split].
  - intros Hlen Hlast. unfold GLA.forward, rbind.
    destruct (get_last_state (GLA.layer_idx self) pkv) as [last|];
      [| discriminate Hlast].
    destruct (shape hs) as [|a [|b [|c [|d r]]]]; try reflexivity.
    simpl in Hlen. lia.
  - exact Hsucc.
  - intros bsz q_len f Hs Hz.
    destruct (GLA.forward E self hs mask pos pkv pe) as [tr|] eqn:H;
      [| reflexivity].
    destruct (Hsucc tr eq_refl) as (b' & n' & f' & Hs' & Hb & Hn & Hd).
    rewrite Hs in Hs'. injection Hs' as <- <- <-.
    exfalso. apply Nat.eq_mul_0 in Hz as [Hz | Hz]; [| contradiction].
    apply Nat.eq_mul_0 in Hz as [Hz | Hz]; contradiction.
Qed.

Lemma gla_forward_input_requirements_witness :
  GLA.forward Demo.env Demo.gla_layer
    (tabulate [3; 4] BFloat16 (fun _ => 1%R)) None None None None
  = Err ValueError
  /\ is_ok (GLA.forward Demo.env Demo.gla_layer (Demo.hidden 0 1) None None
              None None) = false.
Proof.
  split.
  - apply (proj1 (gla_forward_input_requirements Demo.env Demo.gla_layer
                    (tabulate [3; 4] BFloat16 (fun _ => 1%R))
                    None None None None)); [simpl; lia | reflexivity].
  - apply (proj2 (proj2 (gla_forward_input_requirements Demo.env
                           Demo.gla_layer (Demo.hidden 0 1)
                           None None None None)) 1 0 4); reflexivity.
Defined.

(** ** Head layouts *)

(** Merging the heads undoes splitting them: [rearrange(., 'b h n d -> b n
    (h d)')] applied to [rearrange(x, 'b n (h d) -> b h n d', h=h)] succeeds
    and gives back the shape, the dtype and every element of [x]. *)
Theorem merge_heads_inverts_split_heads h x x4 :
  rearrange_split_heads h x = Ok x4 ->
  exists x',
    rearrange_merge_heads x4 = Ok x'
    /\ shape x' = shape x
    /\ dtype x' = dtype x
    /\ forall idx, in_bounds (shape x) idx = true -> elem x' idx = elem x idx.
Proof.
  intros Hsplit.
  apply rearrange_split_heads_inv in Hsplit
    as (b & n & f & Hs & Hh & Hmod & Hs4 & Hd4 & He4).
  unfold rearrange_merge_heads. rewrite Hs4.
  eexists. split; [reflexivity |].
  assert (Hf : h * (f / h) = f).
  { pose proof (Nat.div_mod f h Hh). lia. }
  cbn [shape dtype tabulate]. rewrite Hf, Hs.
  split; [reflexivity |]. split; [exact Hd4 |].
  intros idx Hb.
  rewrite elem_tabulate_in by exact Hb.
  destruct idx as [|ib [|i [|j [|? ?]]]]; simpl in Hb; try discriminate Hb;
    try (rewrite !andb_false_r in Hb; discriminate Hb).
  apply andb_prop in Hb as [Hib Hb]. apply andb_prop in Hb as [Hi Hb].
  apply andb_prop in Hb as [Hj _].
  apply Nat.ltb_lt in Hib, Hi, Hj.
  assert (Hd : f / h <> 0) by (intros Hz; rewrite Hz in Hf; lia).
  rewrite He4.
  - do 4 f_equal.
    pose proof (Nat.div_mod j (f / h) Hd). lia.
  - simpl.
    assert (Hq : j / (f / h) < h).
    { apply Nat.Div0.div_lt_upper_bound. lia. }
    pose proof (Nat.mod_upper_bound j (f / h) Hd) as Hr.
    apply Nat.ltb_lt in Hib, Hi, Hq, Hr.
    now rewrite Hib, Hi, Hq, Hr.
Qed.

Lemma merge_heads_inverts_split_heads_witness :
  exists x4 x',
    rearrange_split_heads 2 Demo.queries = Ok x4
    /\ rearrange_merge_heads x4 = Ok x'
    /\ shape x' = shape Demo.queries
    /\ elem x' [0; 2; 3] = elem Demo.queries [0; 2; 3].
Proof.
  eexists.
  destruct (merge_heads_inverts_split_heads 2 Demo.queries _ eq_refl)
    as (x' & Hm & Hs & _ & He).
  exists x'. split; [reflexivity |]. split; [exact Hm |].
  split; [exact Hs |]. apply He. reflexivity.
Defined.

(** ** Construction with a zero head count *)

(** Both constructors divide by the head counts before anything else: a
    configuration with no query heads or no key/value heads raises
    [ZeroDivisionError], in the linear-attention class even when the hidden
    size check would fail, and in the slot-attention class even when
    [head_dim] is configured, because the default
    [hidden_size // num_heads] is computed before the lookup. *)
Theorem zero_head_count_raises_zero_division (E : Env) :
  (forall cfg idx,
      LigerGSAConfig.num_attention_heads cfg = 0
      \/ LigerGSAConfig.num_key_value_heads cfg = 0 ->
      GSA.__init__ E cfg idx = Err ZeroDivisionError)
  /\ (forall cfg idx,
      LigerQwen2GLAConfig.num_attention_heads cfg = 0
      \/ LigerQwen2GLAConfig.num_key_value_heads cfg = 0 ->
      GLA.__init__ E cfg idx = Err ZeroDivisionError).
Proof.
  split; intros cfg idx Hz.
  - unfold GSA.__init__, rbind, floordiv.
    destruct (LigerGSAConfig.num_attention_heads cfg =? 0) eqn:HN;
      [reflexivity |].
    destruct Hz as [Hz | Hz].
    + rewrite Hz in HN. discriminate.
    + now rewrite Hz.
  - unfold GLA.__init__, rbind, floordiv.
    destruct (LigerQwen2GLAConfig.num_attention_heads cfg =? 0) eqn:HN;
      [reflexivity |].
    destruct Hz as [Hz | Hz].
    + rewrite Hz in HN. discriminate.
    + now rewrite Hz.
Qed.

Lemma zero_head_count_raises_zero_division_witness :
  GSA.__init__ Demo.env Demo.gsa_config_no_heads (Some 0)
  = Err ZeroDivisionError
  /\ GLA.__init__ Demo.env Demo.gla_config_no_kv_heads (Some 0)
     = Err ZeroDivisionError.
Proof.
  split.
  - apply (proj1 (zero_head_count_raises_zero_division Demo.env)).
    left. reflexivity.
  - apply (proj2 (zero_head_count_raises_zero_division Demo.env)).
    right. reflexivity.
Defined.

(** ** Query and key head counts of a constructed slot-attention layer *)

Lemma gsa_init_fields (E : Env) cfg idx self :
  GSA.__init__ E cfg idx = Ok self ->
  LigerGSAConfig.num_attention_heads cfg <> 0
  /\ LigerGSAConfig.num_key_value_heads cfg <> 0
  /\ GSA.layer_idx self = idx
  /\ GSA.num_heads self = LigerGSAConfig.num_attention_heads cfg
  /\ GSA.num_key_value_heads self = LigerGSAConfig.num_key_value_heads cfg
  /\ GSA.num_key_value_groups self
     = LigerGSAConfig.num_attention_heads cfg
       / LigerGSAConfig.num_key_value_heads cfg
  /\ GSA.training self = true.
Proof.
  unfold GSA.__init__, rbind, floordiv.
  destruct (LigerGSAConfig.num_attention_heads cfg =? 0) eqn:HN;
    [discriminate |].
  destruct (LigerGSAConfig.num_key_value_heads cfg =? 0) eqn:HK;
    [discriminate |].
  intros [= <-]. apply Nat.eqb_neq in HN, HK. simpl. auto 10.
Qed.

(** In a successful call of a layer that [__init__] built, the query tensor
    handed to the recurrent kernel has [num_heads] heads and the key tensor
    has [num_key_value_heads * (num_heads // num_key_value_heads)] heads:
    the two counts are equal exactly when [num_heads] is a multiple of
    [num_key_value_heads]. *)
Theorem gsa_kernel_head_counts (E : Env) cfg idx self hs mask pos pkv pe tr :
  GSA.__init__ E cfg idx = Ok self ->
  GSA.forward E self hs mask pos pkv pe = Ok tr ->
  let N := LigerGSAConfig.num_attention_heads cfg in
  let K := LigerGSAConfig.num_key_value_heads cfg in
  exists b n d bk nk dk,
    shape (GSA.rec_q E tr) = [b; N; n; d]
    /\ shape (GSA.rec_k E tr) = [bk; K * (N / K); nk; dk]
    /\ K * (N / K) <= N
    /\ (K * (N / K) = N <-> N mod K = 0).
Proof.
  intros Hinit H N K.
  apply gsa_init_fields in Hinit as (HN & HK & _ & HNs & HKs & HGs & _).
  fold N in HN, HNs, HGs. fold K in HK, HKs, HGs.
  destruct (gsa_rec_q_shape E _ _ _ _ _ _ _ H)
    as (q0 & b & n & f & _ & _ & Hrq).
  apply gsa_forward_inv in H
    as (last & q0' & k0 & v0 & g0 & _ & _ & _ & _ & _ & H).
  apply gsa_attend_inv in H
    as (q4 & k4 & k4r & v4 & v4r & g4 & g4r & sm & vm & q_len & cos & sin
        & rq & rk & _ & Hk4 & Hk4r & _ & _ & _ & _ & _ & _ & _ & _ & _ & Hrk
        & _).
  apply rearrange_split_heads_inv in Hk4
    as (bk & nk & fk & _ & _ & _ & Hs4 & _).
  apply repeat_kv_inv in Hk4r as (b2 & k2 & s2 & d2 & Hq & Hsr & _).
  rewrite Hs4 in Hq. injection Hq as <- <- <- <-.
  exists b, n, (f / GSA.num_heads self), bk, nk,
    (fk / GSA.num_key_value_heads self).
  rewrite Hrq, Hrk. unfold to_dtype; cbn [shape]. rewrite Hsr.
  rewrite HNs, HKs, HGs.
  pose proof (Nat.div_mod N K HK) as Hdm.
  pose proof (Nat.mod_upper_bound N K HK) as Hub.
  repeat split; try lia.
Qed.

(** Two query heads over one key/value head, repeated twice. *)
Lemma gsa_kernel_head_counts_witness :
  exists tr b n d bk nk dk,
    GSA.forward Demo.env Demo.gsa_layer (Demo.hidden 3 1) None None
      (Some Demo.empty_cache) None = Ok tr
    /\ shape (GSA.rec_q Demo.env tr) = [b; 2; n; d]
    /\ shape (GSA.rec_k Demo.env tr) = [bk; 2; nk; dk].
Proof.
  destruct (is_ok_inv _ demo_gsa_prefill) as [tr Htr].
  destruct (gsa_kernel_head_counts Demo.env _ _ _ _ _ _ _ _ _
              demo_gsa_init Htr)
    as (b & n & d & bk & nk & dk & Hq & Hk & _).
  exists tr, b, n, d, bk, nk, dk.
  split; [exact Htr |]. split; [exact Hq | exact Hk].
Defined.

(** ** The dtype of the windowed path *)

Lemma cast_back_float32 target sq sk sv wq wk wv :
  (wq, wk, wv) = cast_back target sq sk sv ->
  dtype wq = Float32 ->
  target = Float32 /\ dtype wk = Float32 /\ dtype wv = Float32.
Proof.
  unfold cast_back.
  destruct (decide (dtype sq = Float32)) as [Hq | Hq].
  - intros [= -> -> ->]. unfold to_dtype; cbn [dtype]. auto.
  - intros [= -> -> ->] Hd. contradiction.
Qed.

(** Query, key and value tensors whose rotary-embedded query is float32 are
    cast back before the flash-attention kernel: the kernel sees a float32
    query only if the target dtype (autocast dtype, else the
    pre-quantization dtype, else the dtype of the query projection weight)
    is itself float32, and then key and value are float32 too. *)
Theorem windowed_path_is_cast_back (E : Env) :
  (forall self hs mask pos pkv pe tr,
      GSA.forward E self hs mask pos pkv pe = Ok tr ->
      dtype (GSA.win_q E tr) = Float32 ->
      target_dtype E (LigerGSAConfig._pre_quantization_dtype (GSA.config self))
        (weight_dtype (GSA.q_proj self)) = Float32
      /\ dtype (GSA.win_k E tr) = Float32
      /\ dtype (GSA.win_v E tr) = Float32)
  /\ (forall self hs mask pos pkv pe tr,
      GLA.forward E self hs mask pos pkv pe = Ok tr ->
      dtype (GLA.win_q E tr) = Float32 ->
      target_dtype E
        (LigerQwen2GLAConfig._pre_quantization_dtype (GLA.config self))
        (weight_dtype (GLA.q_proj self)) = Float32
      /\ dtype (GLA.win_k E tr) = Float32
      /\ dtype (GLA.win_v E tr) = Float32).
Proof.
  split; intros self hs mask pos pkv pe tr H Hd.
  - apply gsa_forward_inv in H
      as (last & q0 & k0 & v0 & g0 & _ & _ & _ & _ & _ & H).
    apply gsa_attend_inv in H
      as (q4 & k4 & k4r & v4 & v4r & g4 & g4r & sm & vm & q_len & cos & sin
          & rq & rk & _ & _ & _ & _ & _ & _ & _ & _ & _ & _ & _ & _ & _ & _
          & _ & _ & _ & _ & _ & _ & _ & _ & Hcast & _).
    eapply cast_back_float32; eassumption.
  - apply gla_forward_inv in H
      as (last & bsz & q_len & f & q0 & k0 & v0 & g0 & _ & _ & _ & _ & _
          & _ & H).
    apply gla_attend_inv in H
      as (k4 & v4 & g4 & g4r & q' & k' & rq & rk & _ & _ & _ & _ & _ & _ & _
          & _ & _ & _ & _ & _ & _ & _ & _ & _ & _ & _ & _ & Hcast & _).
    eapply cast_back_float32; eassumption.
Qed.

Lemma demo_gsa_float32 :
  is_ok (GSA.forward Demo.env Demo.gsa_layer (Demo.hidden_float32 3 1) None
           None None None) = true.
Proof. reflexivity. Qed.

(** Float32 hidden states through the demonstration layer, whose weights
    are bfloat16: the kernel's query is not float32. *)
Lemma windowed_path_is_cast_back_witness :
  exists tr,
    GSA.forward Demo.env Demo.gsa_layer (Demo.hidden_float32 3 1) None None
      None None = Ok tr
    /\ dtype (GSA.win_q Demo.env tr) <> Float32.
Proof.
  destruct (is_ok_inv _ demo_gsa_float32) as [tr H].
  exists tr. split; [exact H |].
  intros Hd.
  destruct (proj1 (windowed_path_is_cast_back Demo.env) _ _ _ _ _ _ _ H Hd)
    as [Ht _].
  discriminate Ht.
Defined.

(** ** The decay handed to the slot-attention kernel *)

(** The float32 decay tensor [s] that reaches the recurrent kernel stays
    in the closed range [0, 1] of the rounded [1 - exp(g)]: without a mask
    it is that tensor; with a mask of shape [batch, len] whose entries are
    0 (padding) or 1 (token), every in-range element is the decay
    multiplied by the mask entry of its position, and every element lies
    in [0, 1]. *)
Theorem kernel_decay_in_unit_interval (E : Env) self last hs q k v g pos pkv
    pe :
  (forall tr,
      run (GSA.attend E self last hs q k v g None pos pkv pe) = Ok tr ->
      GSA.rec_s E tr = to_dtype Float32 (GSA.decay_tensor E tr)
      /\ forall idx, (0 <= elem (GSA.rec_s E tr) idx <= 1)%R)
  /\ (forall m b n fg len tr,
        run (GSA.attend E self last hs q k v g (Some m) pos pkv pe) = Ok tr ->
        shape g = [b; n; fg] -> shape m = [b; len] -> n <= len ->
        (forall idx,
            in_bounds (shape m) idx = true ->
            elem m idx = 0%R \/ elem m idx = 1%R) ->
        (forall ib ih i id,
            in_bounds (shape (GSA.rec_s E tr)) [ib; ih; i; id] = true ->
            elem (GSA.rec_s E tr) [ib; ih; i; id]
            = (elem (GSA.decay_tensor E tr) [ib; ih; i; id]
               * elem m [ib; (len - n + i)%nat])%R)
        /\ forall idx, (0 <= elem (GSA.rec_s E tr) idx <= 1)%R).
Proof.
  assert (Hrange : forall tr g4r,
             gate g4r = Ok (GSA.gate_tensor E tr) ->
             GSA.decay_tensor E tr = GSA.decay (GSA.gate_tensor E tr) ->
             forall idx, (0 <= elem (GSA.decay_tensor E tr) idx <= 1)%R).
  { intros tr g4r Hgate Hdec idx. rewrite Hdec. apply decay_elem_range.
    intros i. eapply gate_elem_nonpos; eassumption. }
  split.
  - intros tr Htr.
    apply gsa_attend_inv in Htr
      as (q4 & k4 & k4r & v4 & v4r & g4 & g4r & sm & vm & q_len & cos & sin
          & rq & rk & _ & _ & _ & _ & _ & _ & _ & Hgate & Hdec & Hsm & _ & _
          & _ & _ & Hrs & _).
    unfold with_mask in Hsm. injection Hsm as <-.
    split; [exact Hrs |].
    intros idx. rewrite Hrs. unfold to_dtype; cbn [elem].
    eapply Hrange; eassumption.
  - intros m b n fg len tr Htr Hsg Hsm Hle Hm.
    apply gsa_attend_inv in Htr
      as (q4 & k4 & k4r & v4 & v4r & g4 & g4r & sm & vm & q_len & cos & sin
          & rq & rk & _ & _ & _ & _ & _ & Hg4 & Hg4r & Hgate & Hdec & Hsm'
          & _ & _ & _ & _ & Hrs & _).
    unfold with_mask in Hsm'.
    apply rearrange_split_heads_inv in Hg4
      as (b1 & n1 & f1 & Hsg' & _ & _ & Hsh4 & _).
    rewrite Hsg in Hsg'. injection Hsg' as <- <- <-.
    apply repeat_kv_inv in Hg4r as (b2 & k2 & s2 & d2 & Hq & Hshr & _).
    rewrite Hsh4 in Hq. injection Hq as <- <- <- <-.
    pose proof (gate_shape _ _ Hgate) as Hgs. rewrite Hshr in Hgs.
    assert (Hds : shape (GSA.decay_tensor E tr)
                  = [b; GSA.num_key_value_heads self
                        * GSA.num_key_value_groups self; n;
                     fg / GSA.num_key_value_heads self]).
    { rewrite Hdec, decay_shape. exact Hgs. }
    pose proof (masked_eq _ _ _ _ _ _ _ _ Hsm' Hds Hsm Hle) as Hsm_eq.
    rewrite Hrs. unfold to_dtype; cbn [elem shape]. rewrite Hsm_eq.
    cbn [shape tabulate].
    split.
    + intros ib ih i id Hb. now rewrite elem_tabulate_in by exact Hb.
    + intros idx.
      destruct (elem_tabulate_cases
                  [b; GSA.num_key_value_heads self
                      * GSA.num_key_value_groups self; n;
                   fg / GSA.num_key_value_heads self]
                  (dtype (GSA.decay_tensor E tr))
                  (fun idx0 =>
                     match idx0 with
                     | [ib; ih; i; id] =>
                         (elem (GSA.decay_tensor E tr) [ib; ih; i; id]
                          * elem m [ib; (len - n + i)%nat])%R
                     | _ => 0%R
                     end) idx) as [[Hb ->] | [_ ->]]; [| lra].
      destruct idx as [|ib [|ih [|i [|id [|? ?]]]]]; try lra.
      pose proof (Hrange tr g4r Hgate Hdec [ib; ih; i; id]) as Hd.
      simpl in Hb.
      apply andb_prop in Hb as [Hib Hb]. apply andb_prop in Hb as [_ Hb].
      apply andb_prop in Hb as [Hi _].
      apply Nat.ltb_lt in Hib, Hi.
      assert (Hmb : in_bounds (shape m) [ib; len - n + i] = true).
      { rewrite Hsm. simpl.
        assert (Hlt : len - n + i < len) by lia.
        apply Nat.ltb_lt in Hib, Hlt. now rewrite Hib, Hlt. }
      destruct (Hm _ Hmb) as [-> | ->]; lra.
Qed.

Lemma demo_gsa_attend_padded :
  is_ok (run (GSA.attend Demo.env Demo.gsa_layer_grouped None
                (Demo.hidden_grouped 3 1) Demo.queries_grouped
                Demo.keys_grouped Demo.values_grouped
                Demo.pooled_keys_grouped (Some Demo.left_padded_mask)
                None None None)) = true.
Proof. reflexivity. Qed.

(** The grouped-query layer on three tokens, the first one padding: the
    decay of the padded position is multiplied by 0. *)
Lemma kernel_decay_in_unit_interval_witness :
  exists tr,
    run (GSA.attend Demo.env Demo.gsa_layer_grouped None
           (Demo.hidden_grouped 3 1) Demo.queries_grouped
           Demo.keys_grouped Demo.values_grouped Demo.pooled_keys_grouped
           (Some Demo.left_padded_mask) None None None) = Ok tr
    /\ (0 <= elem (GSA.rec_s Demo.env tr) [0; 1; 0; 1]%nat <= 1)%R.
Proof.
  destruct (is_ok_inv _ demo_gsa_attend_padded) as [tr H].
  exists tr. split; [exact H |].
  apply (proj2 (kernel_decay_in_unit_interval Demo.env
                  Demo.gsa_layer_grouped None (Demo.hidden_grouped 3 1)
                  Demo.queries_grouped Demo.keys_grouped
                  Demo.values_grouped Demo.pooled_keys_grouped None None
                  None)
           Demo.left_padded_mask 1 3 4 3 tr H);
    try reflexivity; try lia.
  intros idx Hb. unfold Demo.left_padded_mask, tabulate in *.
  cbn [elem shape] in *. rewrite Hb.
  destruct idx as [|? [|[|?] [|? ?]]]; auto.
Defined.

(** * Properties of the stack models *)

Ltac out_step H :=
  match type of H with
  | obind ?m _ = Return _ =>
      let x := fresh "x" in
      let Hx := fresh "Hx" in
      destruct m as [x | ?] eqn:Hx; [cbn [obind] in H | discriminate H]
  end.

Lemma call_Return {A} (r : result A) (a : A) :
  call r = Return a -> r = Ok a.
Proof. destruct r; simpl; congruence. Qed.

Lemma xorb_false_eq (a b : bool) : xorb a b = false -> a = b.
Proof. now destruct a, b. Qed.

Section GLAModel_properties.
Context (E : Env) (T : GLAModel.Transformers E).

(** What a successful preparation tells about the arguments and about
    the names it binds. *)
Lemma prepare_inv self input_ids position_ids pkv inputs_embeds uc oa ohs
    cp p :
  GLAModel.prepare E T self input_ids position_ids pkv inputs_embeds uc oa
    ohs cp = Return p ->
  GLAModel.is_None input_ids = negb (GLAModel.is_None inputs_embeds)
  /\ pkv <> GLAModel.Legacy E
  /\ GLAModel.p_output_attentions E p
     = default (GLAModelConfig.output_attentions (GLAModel.config E self)) oa
  /\ GLAModel.p_output_hidden_states E p
     = default (GLAModelConfig.output_hidden_states (GLAModel.config E self))
         ohs
  /\ GLAModel.p_use_cache E p
     = (if GLAModel.gradient_checkpointing E self && GLAModel.training E self
        then false
        else default (GLAModelConfig.use_cache (GLAModel.config E self)) uc)
  /\ (GLAModel.p_use_cache E p = true ->
      is_Some (GLAModel.p_past_key_values E p))
  /\ (GLAModel.p_use_cache E p = false ->
      GLAModel.p_past_key_values E p
      = match pkv with
        | GLAModel.ACache _ c => Some c
        | _ => None
        end).
Proof.
  unfold GLAModel.prepare. intros H.
  destruct (xorb _ _) eqn:Hx; [discriminate H |].
  apply xorb_false_eq in Hx.
  split; [exact Hx |].
  split; [intros ->; discriminate H |].
  out_step H. out_step H. out_step H. out_step H. out_step H.
  injection H as <-. cbn.
  split; [reflexivity |]. split; [reflexivity |].
  split.
  { destruct (GLAModel.gradient_checkpointing E self),
      (GLAModel.training E self), (default _ uc); reflexivity. }
  set (use_cache := if _ && _ && _ then false else _) in *.
  split.
  - intros Huc. rewrite Huc in Hx2. cbn in Hx2.
    destruct x as [c |]; cbn in Hx2.
    + injection Hx2 as <-. eauto.
    + destruct (call _); cbn in Hx2; [| discriminate Hx2].
      injection Hx2 as <-. eauto.
  - intros Huc. rewrite Huc in Hx2. cbn in Hx2. injection Hx2 as <-.
    destruct pkv; cbn in Hx0; congruence.
Qed.
(** With [output_hidden_states] set, the first iteration stops at the
    read of [all_softmax_hidden_states]. *)
Lemma layer_step_unbound_local self mask pos oa uc cp pe st layer l :
  GLAModel.l_all_hidden_states E st = Some l ->
  GLAModel.l_all_softmax_hidden_states E st = None ->
  GLAModel.layer_step E T self mask pos oa true uc cp pe st layer
  = Raise UnboundLocalError.
Proof.
  intros Hl Hs. unfold GLAModel.layer_step. rewrite Hl, Hs. reflexivity.
Qed.

(** Under gradient checkpointing in training mode, an iteration stops
    before the layer is called. *)
Lemma layer_step_checkpointing self mask pos oa uc cp pe st layer :
  GLAModel.gradient_checkpointing E self = true ->
  GLAModel.training E self = true ->
  GLAModel.layer_step E T self mask pos oa false uc cp pe st layer
  = Raise (match GLAModel._gradient_checkpointing_func E self with
           | Some _ => NameError
           | None => AttributeError
           end).
Proof.
  intros Hg Ht. unfold GLAModel.layer_step. rewrite Hg, Ht. cbn.
  destruct (GLAModel._gradient_checkpointing_func E self); reflexivity.
Qed.

(** What the loop keeps when it runs to its end on the plain path. *)
Lemma run_layers_plain self mask pos oa uc cp pe ls :
  GLAModel.gradient_checkpointing E self && GLAModel.training E self = false ->
  forall st st',
    GLAModel.run_layers E
      (GLAModel.layer_step E T self mask pos oa false uc cp pe) st ls
    = Return st' ->
    GLAModel.l_all_hidden_states E st' = GLAModel.l_all_hidden_states E st
    /\ (is_Some (GLAModel.l_past_key_values E st) ->
        is_Some (GLAModel.l_past_key_values E st'))
    /\ (GLAModel.l_past_key_values E st = None ->
        GLAModel.l_past_key_values E st' = None)
    /\ (oa = false ->
        GLAModel.l_all_self_attns E st' = GLAModel.l_all_self_attns E st)
    /\ (oa = true -> forall l,
          GLAModel.l_all_self_attns E st = Some l ->
          exists l', GLAModel.l_all_self_attns E st' = Some l'
                     /\ length l' = length l + length ls).
Proof.
  intros Hgc. induction ls as [| layer ls IH]; intros st st' H.
  - cbn in H. injection H as <-.
    repeat split; auto.
    intros _ l Hl. exists l. split; [exact Hl | cbn; lia].
  - cbn [GLAModel.run_layers] in H. out_step H.
    apply IH in H as (Hh & Hp & Hn & Ha0 & Ha1). clear IH.
    unfold GLAModel.layer_step in Hx. rewrite Hgc in Hx.
    cbn [obind] in Hx.
    out_step Hx. out_step Hx. injection Hx as <-.
    out_step Hx0. injection Hx0 as <-. cbn in *.
    assert (Hsome : is_Some (GLAModel.l_past_key_values E st) ->
                    is_Some (GLAModel.cache_after E
                               (GLAModel.l_past_key_values E st) (snd x))).
    { intros [c ->]. cbn. destruct (snd x); eauto. }
    assert (Hnone : GLAModel.l_past_key_values E st = None ->
                    GLAModel.cache_after E
                      (GLAModel.l_past_key_values E st) (snd x) = None).
    { intros ->. reflexivity. }
    split; [exact Hh |].
    split; [auto |]. split; [auto |].
    split.
    + intros ->. rewrite Ha0 by reflexivity. now injection Hx1 as <-.
    + intros ->. intros l Hl.
      out_step Hx1. rewrite Hl in Hx1. cbn in Hx1. injection Hx1 as <-.
      destruct (Ha1 eq_refl (l ++ [x0]) eq_refl) as (l' & Hl' & Hlen).
      exists l'. split; [exact Hl' |].
      rewrite Hlen, length_app. cbn. lia.
Qed.

(** A stack that runs at least one layer. *)
Lemma take_layers_nonempty {A} (n : nat) (ls : list A) :
  0 < n -> ls <> [] -> exists l rest, take n ls = l :: rest.
Proof.
  intros Hn Hls. destruct n; [lia |]. destruct ls; [congruence |].
  cbn. eauto.
Qed.

(** [forward] on a stack that runs at least one layer returns only with
    [output_hidden_states] off and outside gradient checkpointing in
    training mode. *)
Lemma forward_nonempty_inv self input_ids mask position_ids pkv
    inputs_embeds uc oa ohs rd cp p out :
  GLAModel.prepare E T self input_ids position_ids pkv inputs_embeds uc oa
    ohs cp = Return p ->
  GLAModel.forward E T self input_ids mask position_ids pkv inputs_embeds uc
    oa ohs rd cp = Return out ->
  take (GLAModelConfig.num_hidden_layers (GLAModel.config E self))
    (GLAModel.layers E self) <> [] ->
  GLAModel.p_output_hidden_states E p = false
  /\ GLAModel.gradient_checkpointing E self && GLAModel.training E self
     = false.
Proof.
  intros Hp H Hne. unfold GLAModel.forward in H. rewrite Hp in H.
  cbn [obind] in H.
  destruct (take _ _) as [| layer rest]; [congruence |].
  cbn [GLAModel.run_layers obind] in H.
  destruct (GLAModel.p_output_hidden_states E p) eqn:Hohs.
  - rewrite (layer_step_unbound_local _ _ _ _ _ _ _ _ _ []) in H
      by reflexivity.
    discriminate H.
  - split; [reflexivity |].
    destruct (GLAModel.gradient_checkpointing E self) eqn:Hg;
      [| reflexivity].
    destruct (GLAModel.training E self) eqn:Ht; [| reflexivity].
    rewrite layer_step_checkpointing in H by assumption.
    discriminate H.
Qed.

Lemma forward_prepared self input_ids mask position_ids pkv inputs_embeds
    uc oa ohs rd cp out :
  GLAModel.forward E T self input_ids mask position_ids pkv inputs_embeds uc
    oa ohs rd cp = Return out ->
  exists p,
    GLAModel.prepare E T self input_ids position_ids pkv inputs_embeds uc oa
      ohs cp = Return p.
Proof.
  unfold GLAModel.forward. intros H.
  destruct (GLAModel.prepare _ _ _ _ _ _ _ _ _ _ _); [eauto | discriminate H].
Qed.
End GLAModel_properties.

(** ** The demonstration stack *)

Lemma is_Return_inv {A} (r : outcome A) :
  is_Return r = true -> exists a, r = Return a.
Proof. destruct r; [eauto | discriminate]. Qed.

Lemma demo_model_init :
  GLAModel.__init__ Demo.env DemoModel.transformers
    DemoModel.gla_model_config = Ok DemoModel.gla_model.
Proof. reflexivity. Qed.

Lemma demo_model_prepare gc ohs :
  is_Return (GLAModel.prepare Demo.env DemoModel.transformers
               (DemoModel.gla_model_with gc) (Some DemoModel.input_ids) None
               (GLAModel.NoCache Demo.env) None None None ohs None) = true.
Proof. destruct gc; reflexivity. Qed.

Lemma demo_model_forward oa :
  is_Return (GLAModel.forward Demo.env DemoModel.transformers
               DemoModel.gla_model (Some DemoModel.input_ids) None None
               (GLAModel.NoCache Demo.env) None None (Some oa) None None
               None) = true.
Proof. destruct oa; reflexivity. Qed.

(** ** Arguments the Qwen2 stack rejects, and runs that cannot return *)

(** [LigerQwen2GLAModel.forward] raises [ValueError] when both or neither
    of [input_ids] and [inputs_embeds] are given, and when
    [past_key_values] is neither [None] nor a cache object.  A call that
    returns was given exactly one of the two inputs and no legacy cache,
    and, if the stack runs at least one layer, had [output_hidden_states]
    off and was not under gradient checkpointing in training mode. *)
Theorem model_forward_requirements (E : Env) (T : GLAModel.Transformers E)
    self input_ids mask position_ids pkv inputs_embeds uc oa ohs rd cp :
  (GLAModel.is_None input_ids = GLAModel.is_None inputs_embeds ->
   GLAModel.forward E T self input_ids mask position_ids pkv inputs_embeds
     uc oa ohs rd cp = Raise (Raised ValueError))
  /\ (pkv = GLAModel.Legacy E ->
      GLAModel.forward E T self input_ids mask position_ids pkv
        inputs_embeds uc oa ohs rd cp = Raise (Raised ValueError))
  /\ (forall out,
        GLAModel.forward E T self input_ids mask position_ids pkv
          inputs_embeds uc oa ohs rd cp = Return out ->
        GLAModel.is_None input_ids <> GLAModel.is_None inputs_embeds
        /\ pkv <> GLAModel.Legacy E
        /\ (GLAModelConfig.num_hidden_layers (GLAModel.config E self) = 0
            \/ GLAModel.layers E self = []
            \/ (default
                  (GLAModelConfig.output_hidden_states
                     (GLAModel.config E self)) ohs = false
                /\ GLAModel.gradient_checkpointing E self
                   && GLAModel.training E self = false))).
Proof.
  split; [| split].
  - intros Heq. unfold GLAModel.forward, GLAModel.prepare.
    rewrite Heq. now destruct (GLAModel.is_None inputs_embeds).
  - intros ->. unfold GLAModel.forward, GLAModel.prepare.
    now destruct (xorb _ _).
  - intros out H.
    destruct (forward_prepared _ _ _ _ _ _ _ _ _ _ _ _ _ _ H) as [p Hp].
    pose proof (prepare_inv _ _ _ _ _ _ _ _ _ _ _ _ Hp)
      as (Hone & Hleg & _ & Hohs & _).
    split.
    { rewrite Hone. now destruct (GLAModel.is_None inputs_embeds). }
    split; [exact Hleg |].
    destruct (GLAModelConfig.num_hidden_layers (GLAModel.config E self))
      as [| n] eqn:Hn; [now left |].
    destruct (GLAModel.layers E self) as [| layer rest] eqn:Hls;
      [right; now left |].
    right; right. rewrite <- Hohs.
    eapply forward_nonempty_inv; [exact Hp | exact H |].
    rewrite Hn, Hls. discriminate.
Qed.

(** The demonstration stack, called with token ids and with embeddings at
    once. *)
Lemma model_forward_requirements_witness :
  GLAModel.forward Demo.env DemoModel.transformers DemoModel.gla_model
    (Some DemoModel.input_ids) None None (GLAModel.NoCache Demo.env)
    (Some (Demo.hidden 3 1)) None None None None None
  = Raise (Raised ValueError).
Proof.
  apply (proj1 (model_forward_requirements Demo.env DemoModel.transformers
                  DemoModel.gla_model (Some DemoModel.input_ids) None None
                  (GLAModel.NoCache Demo.env) (Some (Demo.hidden 3 1)) None
                  None None None None)).
  reflexivity.
Defined.

(** A call of [LigerQwen2GLAModel.forward] with [output_hidden_states] on
    (as argument or, by default, in the configuration) whose arguments get
    through the preparation raises [UnboundLocalError] as soon as the
    stack runs one layer: the loop reads [all_softmax_hidden_states],
    which no statement assigns. *)
Theorem output_hidden_states_raises_unbound_local (E : Env)
    (T : GLAModel.Transformers E) self input_ids mask position_ids pkv
    inputs_embeds uc oa ohs rd cp p :
  GLAModel.prepare E T self input_ids position_ids pkv inputs_embeds uc oa
    ohs cp = Return p ->
  default (GLAModelConfig.output_hidden_states (GLAModel.config E self)) ohs
  = true ->
  0 < GLAModelConfig.num_hidden_layers (GLAModel.config E self) ->
  GLAModel.layers E self <> [] ->
  GLAModel.forward E T self input_ids mask position_ids pkv inputs_embeds uc
    oa ohs rd cp = Raise UnboundLocalError.
Proof.
  intros Hp Hohs Hn Hls.
  pose proof (prepare_inv _ _ _ _ _ _ _ _ _ _ _ _ Hp)
    as (_ & _ & _ & Hohs' & _).
  rewrite Hohs in Hohs'.
  destruct (take_layers_nonempty _ _ Hn Hls) as (layer & rest & Htake).
  unfold GLAModel.forward. rewrite Hp. cbn [obind].
  rewrite Htake, Hohs'. cbn [GLAModel.run_layers].
  rewrite (layer_step_unbound_local _ _ _ _ _ _ _ _ _ _ _ [])
    by reflexivity.
  reflexivity.
Qed.

Lemma output_hidden_states_raises_unbound_local_witness :
  GLAModel.forward Demo.env DemoModel.transformers DemoModel.gla_model
    (Some DemoModel.input_ids) None None (GLAModel.NoCache Demo.env) None
    None None (Some true) None None
  = Raise UnboundLocalError.
Proof.
  destruct (is_Return_inv _ (demo_model_prepare false (Some true)))
    as [p Hp].
  apply (output_hidden_states_raises_unbound_local Demo.env
           DemoModel.transformers DemoModel.gla_model
           (Some DemoModel.input_ids) None None (GLAModel.NoCache Demo.env)
           None None None (Some true) None None p Hp).
  - reflexivity.
  - cbn. lia.
  - discriminate.
Defined.

(** Under gradient checkpointing in training mode, a call of
    [LigerQwen2GLAModel.forward] with [output_hidden_states] off whose
    arguments get through the preparation fails before any layer is
    called, as soon as the stack runs one layer: with [NameError] at the
    read of [causal_mask], which is bound nowhere, or with
    [AttributeError] if no checkpointing function was set. *)
Theorem gradient_checkpointing_raises_name_error (E : Env)
    (T : GLAModel.Transformers E) self input_ids mask position_ids pkv
    inputs_embeds uc oa ohs rd cp p :
  GLAModel.prepare E T self input_ids position_ids pkv inputs_embeds uc oa
    ohs cp = Return p ->
  default (GLAModelConfig.output_hidden_states (GLAModel.config E self)) ohs
  = false ->
  GLAModel.gradient_checkpointing E self = true ->
  GLAModel.training E self = true ->
  0 < GLAModelConfig.num_hidden_layers (GLAModel.config E self) ->
  GLAModel.layers E self <> [] ->
  GLAModel.forward E T self input_ids mask position_ids pkv inputs_embeds uc
    oa ohs rd cp
  = Raise (match GLAModel._gradient_checkpointing_func E self with
           | Some _ => NameError
           | None => AttributeError
           end).
Proof.
  intros Hp Hohs Hg Ht Hn Hls.
  pose proof (prepare_inv _ _ _ _ _ _ _ _ _ _ _ _ Hp)
    as (_ & _ & _ & Hohs' & _).
  rewrite Hohs in Hohs'.
  destruct (take_layers_nonempty _ _ Hn Hls) as (layer & rest & Htake).
  unfold GLAModel.forward. rewrite Hp. cbn [obind].
  rewrite Htake, Hohs'. cbn [GLAModel.run_layers].
  rewrite layer_step_checkpointing by assumption.
  reflexivity.
Qed.

Lemma gradient_checkpointing_raises_name_error_witness :
  GLAModel.forward Demo.env DemoModel.transformers
    (DemoModel.gla_model_with true) (Some DemoModel.input_ids) None None
    (GLAModel.NoCache Demo.env) None None None None None None
  = Raise NameError.
Proof.
  destruct (is_Return_inv _ (demo_model_prepare true None)) as [p Hp].
  apply (gradient_checkpointing_raises_name_error Demo.env
           DemoModel.transformers (DemoModel.gla_model_with true)
           (Some DemoModel.input_ids) None None (GLAModel.NoCache Demo.env)
           None None None None None None p Hp).
  - reflexivity.
  - reflexivity.
  - reflexivity.
  - cbn. lia.
  - discriminate.
Defined.

(** ** What the Qwen2 stack returns *)

(** When [LigerQwen2GLAModel.forward] returns: the last hidden state is
    an output of the final norm; the cache is returned exactly when
    [use_cache] is in force (on by argument or configuration, and not
    switched off by gradient checkpointing in training mode), in which
    case there is one; [attentions] has one entry per layer run when
    [output_attentions] is on and is [None] otherwise; [hidden_states] is
    [None] unless [output_hidden_states] is on, and then no layer was run
    and it holds the last hidden state alone. *)
Theorem model_forward_outputs (E : Env) (T : GLAModel.Transformers E)
    self input_ids mask position_ids pkv inputs_embeds uc oa ohs rd cp out :
  GLAModel.forward E T self input_ids mask position_ids pkv inputs_embeds uc
    oa ohs rd cp = Return out ->
  (exists h, GLAModel.norm E self h = Ok (GLAModel.last_hidden_state E out))
  /\ (if GLAModel.gradient_checkpointing E self && GLAModel.training E self
      then GLAModel.past_key_values E out = None
      else if default (GLAModelConfig.use_cache (GLAModel.config E self)) uc
           then is_Some (GLAModel.past_key_values E out)
           else GLAModel.past_key_values E out = None)
  /\ (if default (GLAModelConfig.output_attentions (GLAModel.config E self))
           oa
      then exists l,
          GLAModel.attentions E out = Some l
          /\ length l
             = GLAModelConfig.num_hidden_layers (GLAModel.config E self)
               `min` length (GLAModel.layers E self)
      else GLAModel.attentions E out = None)
  /\ (if default
           (GLAModelConfig.output_hidden_states (GLAModel.config E self)) ohs
      then GLAModel.hidden_states E out
           = Some [GLAModel.last_hidden_state E out]
           /\ (GLAModelConfig.num_hidden_layers (GLAModel.config E self) = 0
               \/ GLAModel.layers E self = [])
      else GLAModel.hidden_states E out = None).
Proof.
  intros H.
  destruct (forward_prepared _ _ _ _ _ _ _ _ _ _ _ _ _ _ H) as [p Hp].
  pose proof (prepare_inv _ _ _ _ _ _ _ _ _ _ _ _ Hp)
    as (_ & _ & Hoa & Hohs & Huc & Hsome & Hnone).
  rewrite <- Hoa, <- Hohs.
  assert (Hcache :
            if GLAModel.p_use_cache E p
            then is_Some (GLAModel.p_past_key_values E p) else True).
  { destruct (GLAModel.p_use_cache E p); auto. }
  clear Hsome Hnone.
  pose proof (length_take (GLAModel.layers E self)
                (GLAModelConfig.num_hidden_layers (GLAModel.config E self)))
    as Hlen.
  destruct (take _ _) as [| layer rest] eqn:Htake.
  - (* no layer is run *)
    unfold GLAModel.forward in H. rewrite Hp in H. cbn [obind] in H.
    rewrite Htake in H. cbn [GLAModel.run_layers obind] in H.
    out_step H. apply call_Return in Hx. out_step H.
    injection H as <-. cbn in *.
    split; [eauto |].
    split.
    { destruct (GLAModel.gradient_checkpointing E self
                && GLAModel.training E self);
        rewrite Huc in Hcache |- *; [reflexivity |].
      destruct (default _ uc); [exact Hcache | reflexivity]. }
    split.
    { destruct (GLAModel.p_output_attentions E p); [| reflexivity].
      exists []. split; [reflexivity | exact Hlen]. }
    destruct (GLAModel.p_output_hidden_states E p); cbn in Hx0.
    + injection Hx0 as <-. split; [reflexivity |].
      destruct (GLAModelConfig.num_hidden_layers (GLAModel.config E self));
        [now left |].
      destruct (GLAModel.layers E self); [now right | discriminate Htake].
    + now injection Hx0 as <-.
  - (* at least one layer is run *)
    assert (Hne : take
                    (GLAModelConfig.num_hidden_layers
                       (GLAModel.config E self))
                    (GLAModel.layers E self) <> [])
      by (rewrite Htake; discriminate).
    destruct (forward_nonempty_inv _ _ _ _ _ _ _ _ _ _ _ _ _ _ _ Hp H Hne)
      as [Hf Hgc].
    unfold GLAModel.forward in H. rewrite Hp in H. cbn [obind] in H.
    rewrite Htake, Hf in H.
    out_step H.
    apply (run_layers_plain _ _ _ _ _ _ _ _ _ _ Hgc) in Hx
      as (Hh & Hs & _ & Ha0 & Ha1).
    out_step H. apply call_Return in Hx. cbn [obind] in H.
    injection H as <-. cbn in *.
    split; [eauto |].
    split.
    { rewrite Hgc. rewrite Hgc in Huc. rewrite <- Huc.
      destruct (GLAModel.p_use_cache E p); [auto | reflexivity]. }
    split; [| rewrite Hf; exact Hh].
    destruct (GLAModel.p_output_attentions E p) eqn:Ho.
    + destruct (Ha1 eq_refl [] eq_refl) as (l & Hl & Hl').
      exists l. split; [exact Hl |]. rewrite Hl'. cbn. exact Hlen.
    + now apply Ha0.
Qed.

(** The demonstration stack on three token ids, with [output_attentions]
    on: two layers, two entries. *)
Lemma model_forward_outputs_witness :
  exists out l,
    GLAModel.forward Demo.env DemoModel.transformers DemoModel.gla_model
      (Some DemoModel.input_ids) None None (GLAModel.NoCache Demo.env) None
      None (Some true) None None None = Return out
    /\ GLAModel.attentions Demo.env out = Some l /\ length l = 2
    /\ is_Some (GLAModel.past_key_values Demo.env out).
Proof.
  destruct (is_Return_inv _ (demo_model_forward true)) as [out H].
  destruct (model_forward_outputs Demo.env DemoModel.transformers _ _ _ _ _
              _ _ _ _ _ _ _ H) as (_ & Hc & (l & Hl & Hlen) & _).
  exists out, l. split; [exact H |]. split; [exact Hl |].
  split; [exact Hlen | exact Hc].
Defined.

(** ** The default position ids *)

(** When neither [cache_position] nor [position_ids] is passed, the
    position ids that the rotary embedding and every layer receive are the
    single row [seen, seen + 1, ..., seen + n - 1], where [n] is the
    sequence length of the embeddings and [seen] the sequence length
    reported by the cache in use ([0] without one). *)
Theorem default_position_ids_continue_after_cache (E : Env)
    (T : GLAModel.Transformers E) self input_ids pkv inputs_embeds uc oa ohs
    p :
  GLAModel.prepare E T self input_ids None pkv inputs_embeds uc oa ohs None
  = Return p ->
  exists seen n,
    shape_at (GLAModel.p_inputs_embeds E p) 1 = Ok n
    /\ match GLAModel.p_past_key_values E p with
       | Some c => GLAModel.get_seq_length E T c = Ok seen
       | None => seen = 0
       end
    /\ shape (GLAModel.p_position_ids E p) = [1; n]
    /\ dtype (GLAModel.p_position_ids E p) = Int64
    /\ forall i, i < n ->
         elem (GLAModel.p_position_ids E p) [0; i] = INR (seen + i).
Proof.
  unfold GLAModel.prepare. intros H.
  destruct (xorb _ _); [discriminate H |].
  out_step H. out_step H. out_step H. out_step H. out_step H.
  injection H as <-. cbn [GLAModel.p_inputs_embeds GLAModel.p_position_ids
                            GLAModel.p_past_key_values].
  out_step Hx2. out_step Hx2. injection Hx2 as <-.
  apply call_Return in Hx5.
  exists x4, x5. split; [exact Hx5 |].
  split.
  { destruct x1 as [c |]; [now apply call_Return in Hx4 |].
    cbn in Hx4. congruence. }
  unfold unsqueeze0, torch_arange. cbn [shape dtype tabulate].
  replace (x4 + x5 - x4) with x5 by lia.
  split; [reflexivity |]. split; [reflexivity |].
  intros i Hi.
  assert (Hb : in_bounds [x5] [i] = true).
  { cbn. rewrite andb_true_r. now apply Nat.ltb_lt. }
  rewrite elem_tabulate_in by exact Hb.
  now rewrite elem_tabulate_in by exact Hb.
Qed.

Lemma default_position_ids_continue_after_cache_witness :
  exists p,
    GLAModel.prepare Demo.env DemoModel.transformers DemoModel.gla_model
      (Some DemoModel.input_ids) None (GLAModel.NoCache Demo.env) None None
      None None None = Return p
    /\ shape (GLAModel.p_position_ids Demo.env p) = [1; 3]
    /\ elem (GLAModel.p_position_ids Demo.env p) [0; 2] = 2%R.
Proof.
  destruct (is_Return_inv _ (demo_model_prepare false None)) as [p Hp].
  exists p. split; [exact Hp |].
  destruct (default_position_ids_continue_after_cache Demo.env
              DemoModel.transformers _ _ _ _ _ _ _ _ Hp)
    as (seen & n & Hn & Hseen & Hsh & _ & Hel).
  unfold DemoModel.gla_model in Hp. cbn in Hp. injection Hp as <-.
  cbn in Hn, Hseen. injection Hn as <-. injection Hseen as <-.
  split; [exact Hsh |].
  rewrite (Hel 2) by lia. cbn. lra.
Defined.

(** ** Construction of the two stacks *)

Lemma gla_init_index (E : Env) config idx a :
  GLA.__init__ E config idx = Ok a ->
  GLA.layer_idx a = idx /\ GLA.config a = config.
Proof.
  unfold GLA.__init__, rbind. intros H.
  destruct (floordiv _ _); [| discriminate H].
  destruct (floordiv _ _); [| discriminate H].
  destruct (negb _); [discriminate H |].
  injection H as <-. split; reflexivity.
Qed.

Lemma gsa_init_index (E : Env) config idx a :
  GSA.__init__ E config idx = Ok a ->
  GSA.layer_idx a = idx /\ GSA.config a = config.
Proof.
  unfold GSA.__init__, rbind. intros H.
  destruct (floordiv _ _); [| discriminate H].
  destruct (floordiv _ _); [| discriminate H].
  injection H as <-. split; reflexivity.
Qed.

Lemma gla_build_layers_spec (E : Env) (T : GLAModel.Transformers E) config
    count :
  forall first ls,
    GLAModel.build_layers E T config first count = Ok ls ->
    length ls = count
    /\ forall i layer,
        ls !! i = Some layer ->
        GLA.layer_idx (GLAModel.self_attn layer) = Some (first + i)
        /\ GLA.config (GLAModel.self_attn layer)
           = GLAModelConfig.attention config.
Proof.
  induction count as [| count IH]; intros first ls H; cbn in H.
  - injection H as <-. split; [reflexivity |]. intros i layer Hi.
    discriminate Hi.
  - unfold rbind in H.
    destruct (GLAModel.LigerQwen2DecoderLayer__init__ E T config first)
      as [layer0 |] eqn:Hl; [| discriminate H].
    destruct (GLAModel.build_layers E T config (S first) count)
      as [rest |] eqn:Hr; [| discriminate H].
    injection H as <-.
    apply IH in Hr as [Hlen Hrest].
    split; [cbn; now rewrite Hlen |].
    intros [| i] layer Hi; cbn in Hi.
    + injection Hi as <-.
      unfold GLAModel.LigerQwen2DecoderLayer__init__, rbind in Hl.
      destruct (GLAModel.Qwen2DecoderLayer__init__ E T config first);
        [| discriminate Hl].
      destruct (GLA.__init__ E _ _) as [att |] eqn:Ha; [| discriminate Hl].
      injection Hl as <-. cbn.
      apply gla_init_index in Ha as [-> ->].
      split; [f_equal; lia | reflexivity].
    + apply Hrest in Hi as [-> ->].
      split; [f_equal; lia | reflexivity].
Qed.

Lemma gsa_build_layers_spec (E : Env) (T : GSAModel.Transformers) config
    count :
  forall first ls,
    GSAModel.build_layers E T config first count = Ok ls ->
    length ls = count
    /\ forall i layer,
        ls !! i = Some layer ->
        GSA.layer_idx (GSAModel.self_attn layer) = Some (first + i)
        /\ GSA.config (GSAModel.self_attn layer)
           = GSAModelConfig.attention config.
Proof.
  induction count as [| count IH]; intros first ls H; cbn in H.
  - injection H as <-. split; [reflexivity |]. intros i layer Hi.
    discriminate Hi.
  - unfold rbind in H.
    destruct (GSAModel.LigerGSADecoderLayer__init__ E T config first)
      as [layer0 |] eqn:Hl; [| discriminate H].
    destruct (GSAModel.build_layers E T config (S first) count)
      as [rest |] eqn:Hr; [| discriminate H].
    injection H as <-.
    apply IH in Hr as [Hlen Hrest].
    split; [cbn; now rewrite Hlen |].
    intros [| i] layer Hi; cbn in Hi.
    + injection Hi as <-.
      unfold GSAModel.LigerGSADecoderLayer__init__, rbind in Hl.
      destruct (GSAModel.LlamaDecoderLayer__init__ T config first);
        [| discriminate Hl].
      destruct (GSA.__init__ E _ _) as [att |] eqn:Ha; [| discriminate Hl].
      injection Hl as <-. cbn.
      apply gsa_init_index in Ha as [-> ->].
      split; [f_equal; lia | reflexivity].
    + apply Hrest in Hi as [-> ->].
      split; [f_equal; lia | reflexivity].
Qed.

Lemma get_last_state_with_index {S} (l : nat)
    (pkv : option (FlaCache S)) :
  get_last_state (Some l) pkv <> Err TypeError.
Proof.
  unfold get_last_state, cache_getitem.
  destruct pkv as [c |]; [| discriminate].
  destruct (l <? cache_len c); [| discriminate].
  destruct (states c !! l); discriminate.
Qed.

(** Both stack models number their layers: a model that [__init__] builds
    has [num_hidden_layers] layers, not in gradient-checkpointing mode,
    and the attention of the layer at position [i] carries the model's
    attention configuration and the layer index [i], so that its cache
    lookup never meets the missing index of a bare attention layer. *)
Theorem stack_layers_are_numbered (E : Env) :
  (forall (T : GLAModel.Transformers E) config m,
      GLAModel.__init__ E T config = Ok m ->
      length (GLAModel.layers E m) = GLAModelConfig.num_hidden_layers config
      /\ GLAModel.config E m = config
      /\ GLAModel.gradient_checkpointing E m = false
      /\ forall i layer,
          GLAModel.layers E m !! i = Some layer ->
          GLA.layer_idx (GLAModel.self_attn layer) = Some i
          /\ GLA.config (GLAModel.self_attn layer)
             = GLAModelConfig.attention config
          /\ forall pkv : option (FlaCache (RState E)),
              get_last_state (GLA.layer_idx (GLAModel.self_attn layer)) pkv
              <> Err TypeError)
  /\ (forall (T : GSAModel.Transformers) config m,
      GSAModel.__init__ E T config = Ok m ->
      length (GSAModel.layers m) = GSAModelConfig.num_hidden_layers config
      /\ GSAModel.config m = config
      /\ GSAModel.gradient_checkpointing m = false
      /\ forall i layer,
          GSAModel.layers m !! i = Some layer ->
          GSA.layer_idx (GSAModel.self_attn layer) = Some i
          /\ GSA.config (GSAModel.self_attn layer)
             = GSAModelConfig.attention config
          /\ forall pkv : option (FlaCache (RState E)),
              get_last_state (GSA.layer_idx (GSAModel.self_attn layer)) pkv
              <> Err TypeError).
Proof.
  split; intros T config m H.
  - unfold GLAModel.__init__, rbind in H.
    destruct (GLAModel.Qwen2Model__init__ E T config); [| discriminate H].
    destruct (GLAModel.build_layers E T config 0 _) as [ls |] eqn:Hls;
      [| discriminate H].
    destruct (GLAModel.post_init E T config); [| discriminate H].
    injection H as <-. cbn.
    apply gla_build_layers_spec in Hls as [Hlen Hall].
    split; [exact Hlen |]. split; [reflexivity |]. split; [reflexivity |].
    intros i layer Hi. apply Hall in Hi as [Hidx Hcfg].
    split; [exact Hidx |]. split; [exact Hcfg |].
    intros pkv. rewrite Hidx. apply get_last_state_with_index.
  - unfold GSAModel.__init__, rbind in H.
    destruct (GSAModel.LlamaModel__init__ T config); [| discriminate H].
    destruct (GSAModel.build_layers E T config 0 _) as [ls |] eqn:Hls;
      [| discriminate H].
    destruct (GSAModel.post_init T config); [| discriminate H].
    injection H as <-. cbn.
    apply gsa_build_layers_spec in Hls as [Hlen Hall].
    split; [exact Hlen |]. split; [reflexivity |]. split; [reflexivity |].
    intros i layer Hi. apply Hall in Hi as [Hidx Hcfg].
    split; [exact Hidx |]. split; [exact Hcfg |].
    intros pkv. rewrite Hidx. apply get_last_state_with_index.
Qed.

(** The second layer of the demonstration stack. *)
Lemma stack_layers_are_numbered_witness :
  length (GLAModel.layers Demo.env DemoModel.gla_model) = 2
  /\ GLA.layer_idx (GLAModel.self_attn (DemoModel.gla_decoder_layer 1))
     = Some 1.
Proof.
  destruct (proj1 (stack_layers_are_numbered Demo.env)
              DemoModel.transformers DemoModel.gla_model_config
              DemoModel.gla_model demo_model_init)
    as (Hlen & _ & _ & Hall).
  split; [exact Hlen |].
  exact (proj1 (Hall 1 (DemoModel.gla_decoder_layer 1) eq_refl)).
Defined.

(** ** Weight initialisation *)

(** [_init_weights] refills the weight of a linear layer and of an
    embedding with the values drawn, keeping shape and dtype; it zeroes a
    bias; it zeroes the padding row of an embedding after the refill, so
    that this row is zero whatever was drawn while every other row holds
    what was drawn; a padding index past the last row raises
    [IndexError]; a module of any other class comes back untouched. *)
Theorem init_weights_effect (T : GSAModel.Transformers) config :
  let drawn :=
    GSAModel.draw T 0 (GSAModelConfig.initializer_range config) in
  (forall weight bias,
      exists weight',
        GSAModel._init_weights T config (GSAModel.LinearModule weight bias)
        = Ok (GSAModel.LinearModule weight' (zero_ <$> bias))
        /\ shape weight' = shape weight /\ dtype weight' = dtype weight
        /\ (forall idx, in_bounds (shape weight) idx = true ->
                        elem weight' idx = drawn idx)
        /\ forall b, bias = Some b ->
             shape (zero_ b) = shape b /\ forall idx, elem (zero_ b) idx = 0%R)
  /\ (forall weight rows rest p,
        shape weight = rows :: rest -> p < rows ->
        exists weight',
          GSAModel._init_weights T config
            (GSAModel.EmbeddingModule weight (Some p))
          = Ok (GSAModel.EmbeddingModule weight' (Some p))
          /\ shape weight' = shape weight /\ dtype weight' = dtype weight
          /\ (forall idx, elem weight' (p :: idx) = 0%R)
          /\ forall i idx, i <> p ->
               in_bounds (shape weight) (i :: idx) = true ->
               elem weight' (i :: idx) = drawn (i :: idx))
  /\ (forall weight rows rest p,
        shape weight = rows :: rest -> rows <= p ->
        GSAModel._init_weights T config
          (GSAModel.EmbeddingModule weight (Some p)) = Err IndexError)
  /\ (forall parameters,
        GSAModel._init_weights T config (GSAModel.OtherModule parameters)
        = Ok (GSAModel.OtherModule parameters)).
Proof.
  intros drawn. split; [| split; [| split]].
  - intros weight bias. eexists. split; [reflexivity |].
    split; [reflexivity |]. split; [reflexivity |].
    split.
    + intros idx Hb. unfold normal_. now rewrite elem_tabulate_in.
    + intros b _. split; [reflexivity |].
      intros idx. unfold zero_, tabulate; cbn.
      now destruct (in_bounds _ _).
  - intros weight rows rest p Hsh Hp.
    unfold GSAModel._init_weights, zero_row_, normal_.
    cbn [shape dtype tabulate rbind]. rewrite Hsh.
    assert (Hlt : (p <? rows) = true) by now apply Nat.ltb_lt.
    rewrite Hlt. cbn [rbind]. eexists. split; [reflexivity |].
    split; [reflexivity |]. split; [reflexivity |].
    split.
    + intros idx. unfold tabulate; cbn [elem]. rewrite Nat.eqb_refl.
      now destruct (in_bounds _ _).
    + intros i idx Hne Hb. unfold tabulate; cbn [elem]. rewrite Hb.
      apply Nat.eqb_neq in Hne. now rewrite Hne.
  - intros weight rows rest p Hsh Hp.
    unfold GSAModel._init_weights, zero_row_, normal_.
    cbn [shape dtype tabulate rbind]. rewrite Hsh.
    assert (Hge : (p <? rows) = false) by now apply Nat.ltb_ge.
    now rewrite Hge.
  - reflexivity.
Qed.

(** Row 1 of a table of three rows. *)
Lemma init_weights_effect_witness :
  exists weight',
    GSAModel._init_weights DemoModel.gsa_transformers
      DemoModel.gsa_model_config
      (GSAModel.EmbeddingModule DemoModel.embedding_table (Some 1))
    = Ok (GSAModel.EmbeddingModule weight' (Some 1))
    /\ elem weight' [1; 0] = 0%R
    /\ elem weight' [2; 0] = 2%R.
Proof.
  destruct (proj1 (proj2 (init_weights_effect
                            DemoModel.gsa_transformers
                            DemoModel.gsa_model_config))
              DemoModel.embedding_table 3 [2] 1 eq_refl)
    as (w & Hw & _ & _ & Hz & Hd); [lia |].
  exists w. split; [exact Hw |]. split; [apply Hz |].
  rewrite Hd; [| lia | reflexivity].
  cbn. lra.
Defined.
